(** * issuemirror: the on-disk mirror of a tracker's issues and comments

    A shallow embedding of package [issuemirror] (issuemirror.go) and of the
    [mirrorissues] command that fills the mirror, with the properties of the
    store, of the normalizer and of the sync loops proved over it.

    Conventions of the embedding:
    - Go's [int] is [Z]; [*T] is [option T] ([nil] is [None]); a slice is a
      [list]; [[]byte] is [list byte]; [string] is [string].
    - A function returning [error] returns [res unit]; [(T, error)] is
      [res T].  A run-time panic (nil dereference, index out of range) and
      [log.Fatal] end the program like an error that nobody handles, so they
      are error values as well.
    - Code with effects is a function from the state to a result and the
      state after; the state after an error is the state at the error.

    What stands for the world outside the program:
    - The file system is a tree of directories, regular files and other
      nodes, with the timestamps and the two permission facts the system
      calls of the program depend on.  It has no symbolic links and it
      keeps timestamps exactly.  A system call fails for a reason the
      tree shows (a missing entry, a node of the wrong kind, a missing
      permission); and the write to a file that was opened and
      truncated, or the close after it, can fail (no space left, an I/O
      error), leaving the bytes that were accepted.  Which writes fail,
      and after how many bytes, is not for the program to decide: the
      disk carries the faults to come.
    - The remote answers a request as a function of the request.
    - Package encoding/json is a parameter of the program.
    - The two loops that the remote can keep going are bounded by a number
      of turns, [fuel]; reaching the bound is the error [OutOfFuel]. *)

From Stdlib Require Import ZArith List String Ascii Bool Lia.
From Stdlib Require Import Strings.Byte.
From Stdlib Require Import Sorting.Mergesort Sorting.Permutation Sorting.Sorted Orders.
Import ListNotations.

Set Warnings "-register-all".

Local Open Scope string_scope.
Local Open Scope list_scope.
Local Open Scope Z_scope.

(* ================================================================== *)
(** ** Errors and results *)
(* ================================================================== *)

Inductive error : Type :=
| ENOENT                       (* no such file or directory; os.IsNotExist *)
| ENOTDIR                      (* a path component is not a directory *)
| EISDIR                       (* open for writing on a directory *)
| EACCES                       (* permission denied *)
| EPERM                        (* operation not permitted (not the owner) *)
| ENXIO                        (* open for writing on a socket or the like *)
| ENOSPC                       (* no space left on the device *)
| EIO                          (* an input/output error of the device *)
| SkipDir                      (* filepath.SkipDir *)
| ErrJSON                      (* an error of encoding/json *)
| ErrRemote                    (* an error of the remote API *)
| ErrUnexpectedDirectory (path : list string)  (* fmt.Errorf("unexpected directory: %q") *)
| ErrNonNumeric (path : list string)  (* fmt.Errorf("unexpected non-numeric json file %s") *)
| PanicNilDeref                (* run-time panic: nil pointer dereference *)
| PanicIndex                   (* run-time panic: index out of range *)
| OutOfFuel.                   (* the model's loop bound was reached *)

Inductive res (A : Type) : Type :=
| Ok (a : A)
| Err (e : error).
Arguments Ok {A} a.
Arguments Err {A} e.

Definition IsNotExist (e : error) : bool :=
  match e with ENOENT => true | _ => false end.

Definition isSkipDir (e : error) : bool :=
  match e with SkipDir => true | _ => false end.

(** Stateful code: the state survives an error (a failed run leaves the
    disk as it was at the failure). *)
Definition M (S A : Type) : Type := S -> res A * S.

Definition ret {S A} (a : A) : M S A := fun s => (Ok a, s).
Definition fail {S A} (e : error) : M S A := fun s => (Err e, s).
Definition bind {S A B} (m : M S A) (k : A -> M S B) : M S B :=
  fun s => match m s with
           | (Ok a, s') => k a s'
           | (Err e, s') => (Err e, s')
           end.
Definition lift {S A} (r : res A) : M S A := fun s => (r, s).
Definition gets {S A} (f : S -> A) : M S A := fun s => (Ok (f s), s).
Definition modify {S} (f : S -> S) : M S unit := fun s => (Ok tt, f s).

Declare Scope monad_scope.
Delimit Scope monad_scope with monad.
Notation "x <- m ;; k" := (bind m (fun x => k))
  (at level 61, m at next level, right associativity) : monad_scope.
Notation "m ;;; k" := (bind m (fun _ => k))
  (at level 61, right associativity) : monad_scope.
Local Open Scope monad_scope.

(** [for _, x := range xs { if err := body(x); err != nil { return err } }] *)
Fixpoint forM {S A} (xs : list A) (body : A -> M S unit) : M S unit :=
  match xs with
  | [] => ret tt
  | x :: xs' => body x ;;; forM xs' body
  end.

(** [*p] for a pointer [p]. *)
Definition deref {S A} (p : option A) : M S A :=
  match p with
  | Some a => ret a
  | None => fail PanicNilDeref
  end.

(* ================================================================== *)
(** ** Strings and integers: package strings, strconv, fmt *)
(* ================================================================== *)

Definition HasPrefix (s pre : string) : bool := String.prefix pre s.

Definition TrimPrefix (s pre : string) : string :=
  if HasPrefix s pre
  then substring (String.length pre) (String.length s - String.length pre) s
  else s.

Definition HasSuffix (s suf : string) : bool :=
  (String.length suf <=? String.length s)%nat &&
  String.eqb (substring (String.length s - String.length suf)
                        (String.length suf) s) suf.

Definition TrimSuffix (s suf : string) : string :=
  if HasSuffix s suf
  then substring 0 (String.length s - String.length suf) s
  else s.

Definition maxInt : Z := 9223372036854775807.
Definition minInt : Z := -9223372036854775808.

Definition digitOf (c : ascii) : option Z :=
  let n := Z.of_N (N_of_ascii c) in
  if (48 <=? n) && (n <=? 57) then Some (n - 48) else None.

Fixpoint parseDigits (s : string) (acc : Z) : option Z :=
  match s with
  | EmptyString => Some acc
  | String c s' =>
      match digitOf c with
      | Some d => parseDigits s' (acc * 10 + d)
      | None => None
      end
  end.

(** [strconv.Atoi]: an optional sign, then one or more decimal digits, the
    value within the range of [int] (64 bits); [None] is its error. *)
Definition Atoi (s : string) : option Z :=
  match s with
  | EmptyString => None
  | String c rest =>
      let neg := Ascii.eqb c "-" in
      let digits := if neg || Ascii.eqb c "+" then rest else s in
      match digits with
      | EmptyString => None
      | _ =>
          match parseDigits digits 0 with
          | Some n =>
              let v := if neg then - n else n in
              if (minInt <=? v) && (v <=? maxInt) then Some v else None
          | None => None
          end
      end
  end.

Definition digitChar (d : Z) : ascii := ascii_of_N (Z.to_N (48 + d)).

(** The decimal digits of [n >= 0], most significant first; [fuel] bounds
    the number of digits. *)
Fixpoint digitsOf (fuel : nat) (n : Z) (acc : string) : string :=
  match fuel with
  | O => acc
  | S fuel' =>
      let acc' := String (digitChar (n mod 10)) acc in
      if n <? 10 then acc' else digitsOf fuel' (n / 10) acc'
  end.

Definition decimal (n : Z) : string := digitsOf 20 n EmptyString.

(** [strconv.Itoa], also [fmt.Sprint] of an [int]. *)
Definition Itoa (n : Z) : string :=
  if n <? 0 then ("-" ++ decimal (- n))%string else decimal n.

Fixpoint zeros (k : nat) : string :=
  match k with O => EmptyString | S k' => String "0" (zeros k') end.

(** [fmt.Sprintf("%03d", n)]: zero padding to width 3, the sign counted
    in the width. *)
Definition Sprintf03d (n : Z) : string :=
  if n <? 0
  then let d := decimal (- n) in
       ("-" ++ zeros (2 - String.length d) ++ d)%string
  else let d := decimal n in (zeros (3 - String.length d) ++ d)%string.

(* ================================================================== *)
(** ** Paths: package path/filepath *)
(* ================================================================== *)

(** A cleaned absolute path, as the list of its components. *)
Definition path : Type := list string.

Definition Join (p : path) (elems : list string) : path := p ++ elems.

Definition Dir (p : path) : path := removelast p.

Definition Base (p : path) : string := last p "/".

Fixpoint joinSlash (p : list string) : string :=
  match p with
  | [] => EmptyString
  | [x] => x
  | x :: p' => (x ++ "/" ++ joinSlash p')%string
  end.

Fixpoint relComponents (base target : path) : list string :=
  match base, target with
  | b :: base', t :: target' =>
      if String.eqb b t then relComponents base' target'
      else map (fun _ => "..") base ++ target
  | _, _ => map (fun _ => "..") base ++ target
  end.

(** [filepath.Rel] on two cleaned absolute paths (it cannot fail there). *)
Definition Rel (base target : path) : string :=
  match relComponents base target with
  | [] => "."
  | cs => joinSlash cs
  end.

(* ================================================================== *)
(** ** The file system: packages os and io/ioutil *)
(* ================================================================== *)

(** [time.Time] as an instant: the distance from Go's zero time
    (January 1, year 1, 00:00:00 UTC). *)
Definition time : Type := Z.

Definition IsZero (t : time) : bool := t =? 0.
Definition Equal (t u : time) : bool := t =? u.
Definition zeroTime : time := 0.

(** What the kernel keeps about a file besides its content: the two
    timestamps, whether the process may write to it (for a directory:
    create entries in it) and whether the process owns it.  Setting the
    timestamps to explicit values needs ownership; write permission alone
    is not enough (utimensat(2)). *)
Record meta : Type := mkMeta {
  modTime : time;
  accTime : time;
  writable : bool;
  owned : bool
}.

Inductive node : Type :=
| File (data : list byte) (m : meta)
| Directory (entries : list (string * node)) (m : meta)
| Special (m : meta).          (* neither regular file nor directory *)

Definition metaOf (n : node) : meta :=
  match n with
  | File _ m => m
  | Directory _ m => m
  | Special m => m
  end.

Definition withMeta (n : node) (m : meta) : node :=
  match n with
  | File d _ => File d m
  | Directory es _ => Directory es m
  | Special _ => Special m
  end.

(** [os.FileInfo], the part the program reads. *)
Record FileInfo : Type := mkFileInfo {
  IsDir : bool;
  IsRegular : bool;
  ModTime : time
}.

Definition infoOf (n : node) : FileInfo :=
  match n with
  | File _ m => mkFileInfo false true (modTime m)
  | Directory _ m => mkFileInfo true false (modTime m)
  | Special m => mkFileInfo false false (modTime m)
  end.

Fixpoint find (es : list (string * node)) (name : string) : option node :=
  match es with
  | [] => None
  | (k, v) :: es' => if String.eqb name k then Some v else find es' name
  end.

(** The entries of a directory are kept in the lexical order of their
    names, the order in which [filepath.Walk] visits them. *)
Fixpoint insert (name : string) (c : node) (es : list (string * node))
  : list (string * node) :=
  match es with
  | [] => [(name, c)]
  | (k, v) :: es' =>
      match String.compare name k with
      | Eq => (name, c) :: es'
      | Lt => (name, c) :: es
      | Gt => (k, v) :: insert name c es'
      end
  end.

Fixpoint lookup (n : node) (p : path) : res node :=
  match p with
  | [] => Ok n
  | name :: p' =>
      match n with
      | Directory es _ =>
          match find es name with
          | Some c => lookup c p'
          | None => Err ENOENT
          end
      | _ => Err ENOTDIR
      end
  end.

(** The disk, the clock the kernel stamps writes with, and the faults to
    come: for each write of the data of a file, in order, [Some (k, e)]
    when the device accepts [k] bytes at most and the write, or the
    close after it, fails with [e], and [None] when it does not fail;
    after the list no write fails. *)
Record FS : Type := mkFS {
  tree : node;
  now : time;
  faults : list (option (nat * error))
}.

(** [os.Stat] (and [os.Lstat]: the model has no symbolic links). *)
Definition Stat (fs : FS) (file : path) : res FileInfo :=
  match lookup (tree fs) file with
  | Ok n => Ok (infoOf n)
  | Err e => Err e
  end.

Definition newMeta (t : time) : meta := mkMeta t t true true.

Definition touch (t : time) (m : meta) : meta :=
  mkMeta t (accTime m) (writable m) (owned m).

(** [os.MkdirAll(dir, 0755)]: every missing directory on the way is
    created; a component that exists and is no directory is an error. *)
Fixpoint mkdirAll (t : time) (p : path) (n : node) : res node :=
  match p with
  | [] =>
      match n with
      | Directory _ _ => Ok n
      | _ => Err ENOTDIR
      end
  | name :: p' =>
      match n with
      | Directory es m =>
          match find es name with
          | Some c =>
              match mkdirAll t p' c with
              | Ok c' => Ok (Directory (insert name c' es) m)
              | Err e => Err e
              end
          | None =>
              if writable m
              then match mkdirAll t p' (Directory [] (newMeta t)) with
                   | Ok c' => Ok (Directory (insert name c' es) (touch t m))
                   | Err e => Err e
                   end
              else Err EACCES
          end
      | _ => Err ENOTDIR
      end
  end.

Definition MkdirAll (dir : path) : M FS unit := fun fs =>
  match mkdirAll (now fs) dir (tree fs) with
  | Ok n => (Ok tt, mkFS n (now fs) (faults fs))
  | Err e => (Err e, fs)
  end.

(** The tree after [data] was put into the file at [p], opened with
    O_WRONLY|O_CREATE|O_TRUNC: the open fails, before anything is
    touched, for a reason the tree shows; else the file is made or
    emptied and holds [data].  The kernel stamps the modification time
    with its clock. *)
Fixpoint writeFile (t : time) (data : list byte) (p : path) (n : node)
  : res node :=
  match p with
  | [] =>
      match n with
      | File _ m => if writable m then Ok (File data (touch t m)) else Err EACCES
      | Directory _ _ => Err EISDIR
      | Special _ => Err ENXIO
      end
  | name :: p' =>
      match n with
      | Directory es m =>
          match find es name with
          | Some c =>
              match writeFile t data p' c with
              | Ok c' => Ok (Directory (insert name c' es) m)
              | Err e => Err e
              end
          | None =>
              match p' with
              | [] =>
                  if writable m
                  then Ok (Directory (insert name (File data (newMeta t)) es)
                                     (touch t m))
                  else Err EACCES
              | _ :: _ => Err ENOENT
              end
          end
      | _ => Err ENOTDIR
      end
  end.

(** The fault of the next write of the data of a file, if it has one. *)
Definition writeFault (fs : FS) : option (nat * error) :=
  hd None (faults fs).

(** The bytes the device accepts of [data]. *)
Definition accepted (fs : FS) (data : list byte) : list byte :=
  match writeFault fs with
  | Some (k, _) => firstn k data
  | None => data
  end.

(** [ioutil.WriteFile(file, data, 0644)]: open, write, close.  When the
    open fails nothing has happened.  When the write or the close fails
    the file, truncated by the open, holds the bytes that were accepted,
    and the error is returned. *)
Definition WriteFile (file : path) (data : list byte) : M FS unit := fun fs =>
  match writeFile (now fs) (accepted fs data) file (tree fs) with
  | Ok n =>
      (match writeFault fs with
       | Some (_, e) => Err e
       | None => Ok tt
       end,
       mkFS n (now fs) (tl (faults fs)))
  | Err e => (Err e, fs)
  end.

(** [os.Chtimes(file, atime, mtime)]. *)
Fixpoint chtimes (at_ mt : time) (p : path) (n : node) : res node :=
  match p with
  | [] =>
      let m := metaOf n in
      if owned m
      then Ok (withMeta n (mkMeta mt at_ (writable m) (owned m)))
      else Err EPERM
  | name :: p' =>
      match n with
      | Directory es m =>
          match find es name with
          | Some c =>
              match chtimes at_ mt p' c with
              | Ok c' => Ok (Directory (insert name c' es) m)
              | Err e => Err e
              end
          | None => Err ENOENT
          end
      | _ => Err ENOTDIR
      end
  end.

Definition Chtimes (file : path) (at_ mt : time) : M FS unit := fun fs =>
  match chtimes at_ mt file (tree fs) with
  | Ok n => (Ok tt, mkFS n (now fs) (faults fs))
  | Err e => (Err e, fs)
  end.

(** [ioutil.ReadFile]. *)
Definition ReadFile (fs : FS) (file : path) : res (list byte) :=
  match lookup (tree fs) file with
  | Ok (File d _) => Ok d
  | Ok (Directory _ _) => Err EISDIR
  | Ok (Special _) => Err ENXIO
  | Err e => Err e
  end.

(** [os.Open]: the open file is the node found at the path. *)
Definition Open (fs : FS) (name : path) : res node :=
  lookup (tree fs) name.

(** [f.Readdirnames(-1)]: the names of all the entries of a directory. *)
Definition Readdirnames (f : node) : res (list string) :=
  match f with
  | Directory es _ => Ok (map fst es)
  | _ => Err ENOTDIR
  end.

(** Whether [file] is on disk with exactly the modification time [v]. *)
Definition upToDate (fs : FS) (file : path) (v : time) : bool :=
  match Stat fs file with
  | Ok fi => Equal (ModTime fi) v
  | Err _ => false
  end.

(* ================================================================== *)
(** ** The records: package github *)
(* ================================================================== *)

(** The structs are those of the go-github client library.  Each record
    below has the fields the program reads or clears, and the fields that
    identify the record; every field is a pointer in Go, absent when nil. *)

Module github.

Record User : Type := mkUser {
  userLogin : option string;
  userID : option Z;
  userAvatarURL : option string;
  userHTMLURL : option string;
  userGravatarID : option string;
  userURL : option string;
  userEventsURL : option string;
  userFollowingURL : option string;
  userFollowersURL : option string;
  userGistsURL : option string;
  userOrganizationsURL : option string;
  userReceivedEventsURL : option string;
  userReposURL : option string;
  userStarredURL : option string;
  userSubscriptionsURL : option string
}.

Record Label : Type := mkLabel {
  labelURL : option string;
  labelName : option string;
  labelColor : option string
}.

Record Milestone : Type := mkMilestone {
  msURL : option string;
  msHTMLURL : option string;
  msLabelsURL : option string;
  msID : option Z;
  msNumber : option Z;
  msState : option string;
  msTitle : option string;
  msDescription : option string;
  msCreator : option User;
  msOpenIssues : option Z;
  msClosedIssues : option Z;
  msCreatedAt : option time;
  msUpdatedAt : option time;
  msClosedAt : option time;
  msDueOn : option time
}.

Record Reactions : Type := mkReactions {
  TotalCount : option Z;
  PlusOne : option Z;
  MinusOne : option Z;
  Laugh : option Z;
  Confused : option Z;
  Heart : option Z;
  Hooray : option Z;
  reactionsURL : option string
}.

Record Issue : Type := mkIssue {
  issueNumber : option Z;
  issueTitle : option string;
  issueUser : option User;
  issueLabels : list Label;
  issueAssignee : option User;
  issueComments : option Z;
  issueUpdatedAt : option time;
  issueURL : option string;
  issueHTMLURL : option string;
  issueMilestone : option Milestone;
  issueReactions : option Reactions;
  issueAssignees : list (option User)
}.

Record IssueComment : Type := mkIssueComment {
  commentID : option Z;
  commentBody : option string;
  commentUser : option User;
  commentReactions : option Reactions;
  commentUpdatedAt : option time;
  commentURL : option string;
  commentHTMLURL : option string;
  commentIssueURL : option string
}.

(** [github.ListOptions], [github.IssueListByRepoOptions] and the part of
    [github.Response] the program reads. *)
Record ListOptions : Type := mkListOptions {
  Page : Z;
  PerPage : Z
}.

Record IssueListByRepoOptions : Type := mkIssueListByRepoOptions {
  State : string;
  Sort : string;
  Direction : string;
  ListOpts : ListOptions
}.

Record Response : Type := mkResponse {
  NextPage : Z
}.

(** [client.Issues]: the two calls of the remote API the program makes.
    A call answers with its result or with an error. *)
Record Client : Type := mkClient {
  ListByRepo : string -> string -> IssueListByRepoOptions
               -> res (list Issue * Response);
  ListComments : string -> string -> Z -> ListOptions
                 -> res (list IssueComment * Response)
}.

End github.
Import github.

(* ================================================================== *)
(** ** The normalizer: cleanIssue, cleanComment and their helpers *)
(* ================================================================== *)

(** The Go functions clear fields in place and return (or set through a
    pointer) the flag [cleaned]; here each returns the record after the
    call together with the flag. *)

(** [cleanStr(pps, cleaned)]: the flag is only ever raised. *)
Definition cleanStr (s : option string) (cleaned : bool)
  : option string * bool :=
  match s with
  | Some _ => (None, true)
  | None => (s, cleaned)
  end.

Definition cleanUser (u : option User) : option User * bool :=
  match u with
  | None => (None, false)
  | Some u =>
      let cleaned := false in
      let '(avatar, cleaned) := cleanStr (userAvatarURL u) cleaned in
      let '(html, cleaned) := cleanStr (userHTMLURL u) cleaned in
      let '(gravatar, cleaned) := cleanStr (userGravatarID u) cleaned in
      let '(url, cleaned) := cleanStr (userURL u) cleaned in
      let '(events, cleaned) := cleanStr (userEventsURL u) cleaned in
      let '(following, cleaned) := cleanStr (userFollowingURL u) cleaned in
      let '(followers, cleaned) := cleanStr (userFollowersURL u) cleaned in
      let '(gists, cleaned) := cleanStr (userGistsURL u) cleaned in
      let '(orgs, cleaned) := cleanStr (userOrganizationsURL u) cleaned in
      let '(received, cleaned) := cleanStr (userReceivedEventsURL u) cleaned in
      let '(repos, cleaned) := cleanStr (userReposURL u) cleaned in
      let '(starred, cleaned) := cleanStr (userStarredURL u) cleaned in
      let '(subs, cleaned) := cleanStr (userSubscriptionsURL u) cleaned in
      (Some (mkUser (userLogin u) (userID u) avatar html gravatar url events
                    following followers gists orgs received repos starred
                    subs),
       cleaned)
  end.

Definition cleanLabel (l : Label) : Label * bool :=
  let cleaned := false in
  let '(url, cleaned) := cleanStr (labelURL l) cleaned in
  let '(color, cleaned) := cleanStr (labelColor l) cleaned in
  (mkLabel url (labelName l) color, cleaned).

(** [if p != nil { p = nil; cleaned = true }] *)
Definition dropField {A} (p : option A) (cleaned : bool) : option A * bool :=
  match p with
  | Some _ => (None, true)
  | None => (p, cleaned)
  end.

Definition cleanIssueMilestone (m : option Milestone)
  : option Milestone * bool :=
  match m with
  | None => (None, false)
  | Some m =>
      let cleaned := false in
      let '(url, cleaned) := cleanStr (msURL m) cleaned in
      let '(html, cleaned) := cleanStr (msHTMLURL m) cleaned in
      let '(labels, cleaned) := cleanStr (msLabelsURL m) cleaned in
      let '(state, cleaned) := cleanStr (msState m) cleaned in
      let '(descr, cleaned) := cleanStr (msDescription m) cleaned in
      let '(creator, cleaned) := dropField (msCreator m) cleaned in
      let '(created, cleaned) := dropField (msCreatedAt m) cleaned in
      let '(updated, cleaned) := dropField (msUpdatedAt m) cleaned in
      let '(closed, cleaned) := dropField (msClosedAt m) cleaned in
      let '(closed, cleaned) := dropField closed cleaned in
      let '(due, cleaned) := dropField (msDueOn m) cleaned in
      let '(openIssues, cleaned) := dropField (msOpenIssues m) cleaned in
      let '(closedIssues, cleaned) := dropField (msClosedIssues m) cleaned in
      (Some (mkMilestone url html labels (msID m) (msNumber m) state
                         (msTitle m) descr creator openIssues closedIssues
                         created updated closed due),
       cleaned)
  end.

(** [if *v != nil && **v == 0 { *v = nil }]: the body of the loop of
    [cleanReactions]; it does not touch [cleaned]. *)
Definition dropZero (v : option Z) : option Z :=
  match v with
  | Some n => if n =? 0 then None else v
  | None => v
  end.

Definition cleanReactions (r : Reactions) : Reactions * bool :=
  let cleaned := false in
  let '(url, cleaned) := cleanStr (reactionsURL r) cleaned in
  (mkReactions (TotalCount r) (dropZero (PlusOne r)) (dropZero (MinusOne r))
               (dropZero (Laugh r)) (dropZero (Confused r))
               (dropZero (Heart r)) (dropZero (Hooray r)) url,
   cleaned).

(** [cleanReactionsPtr(rp)] with [rp] the address of the field. *)
Definition cleanReactionsPtr (rp : option Reactions)
  : option Reactions * bool :=
  match rp with
  | None => (None, false)
  | Some r =>
      match TotalCount r with
      | None => (None, true)
      | Some n =>
          if n =? 0 then (None, true)
          else let '(r', c) := cleanReactions r in
               (Some r', if c then true else false)
      end
  end.

Definition cleanComment (c : option IssueComment)
  : option IssueComment * bool :=
  match c with
  | None => (None, false)
  | Some c =>
      let cleaned := false in
      let '(user, cu) := cleanUser (commentUser c) in
      let cleaned := if cu then true else cleaned in
      let '(reactions, cr) := cleanReactionsPtr (commentReactions c) in
      let cleaned := if cr then true else cleaned in
      let '(url, cleaned) := cleanStr (commentURL c) cleaned in
      let '(html, cleaned) := cleanStr (commentHTMLURL c) cleaned in
      let '(issueurl, cleaned) := cleanStr (commentIssueURL c) cleaned in
      (Some (mkIssueComment (commentID c) (commentBody c) user reactions
                            (commentUpdatedAt c) url html issueurl),
       cleaned)
  end.

(** [for i := range is.Labels { if cleanLabel(&is.Labels[i]) { cleaned = true } }] *)
Fixpoint cleanLabels (ls : list Label) (cleaned : bool) : list Label * bool :=
  match ls with
  | [] => ([], cleaned)
  | l :: ls' =>
      let '(l', c) := cleanLabel l in
      let cleaned := if c then true else cleaned in
      let '(ls'', cleaned) := cleanLabels ls' cleaned in
      (l' :: ls'', cleaned)
  end.

(** [for _, u := range is.Assignees { if cleanUser(u) { cleaned = true } }] *)
Fixpoint cleanUsers (us : list (option User)) (cleaned : bool)
  : list (option User) * bool :=
  match us with
  | [] => ([], cleaned)
  | u :: us' =>
      let '(u', c) := cleanUser u in
      let cleaned := if c then true else cleaned in
      let '(us'', cleaned) := cleanUsers us' cleaned in
      (u' :: us'', cleaned)
  end.

Definition cleanIssue (is_ : Issue) : Issue * bool :=
  let cleaned := false in
  let '(user, c) := cleanUser (issueUser is_) in
  let cleaned := if c then true else cleaned in
  let '(url, cleaned) := cleanStr (issueURL is_) cleaned in
  let '(html, cleaned) := cleanStr (issueHTMLURL is_) cleaned in
  let '(labels, cleaned) := cleanLabels (issueLabels is_) cleaned in
  let '(reactions, c) := cleanReactionsPtr (issueReactions is_) in
  let cleaned := if c then true else cleaned in
  let '(assignee, c) := cleanUser (issueAssignee is_) in
  let cleaned := if c then true else cleaned in
  let '(assignees, cleaned) :=
    if (Z.of_nat (List.length (issueAssignees is_)) =? 1)
    then ([], true) else (issueAssignees is_, cleaned) in
  let '(assignees, cleaned) := cleanUsers assignees cleaned in
  let '(milestone, c) := cleanIssueMilestone (issueMilestone is_) in
  let cleaned := if c then true else cleaned in
  (mkIssue (issueNumber is_) (issueTitle is_) user labels assignee
           (issueComments is_) (issueUpdatedAt is_) url html milestone
           reactions assignees,
   cleaned).

(* ================================================================== *)
(** ** The world the program runs in *)
(* ================================================================== *)

(** The remote calls made and the files written, in the order in which
    they happened ([writeDiskJSON] logs each file it wrote); and, for the
    properties of the two enumerations, the records handed to a callback
    that does nothing but note them. *)
Inductive event : Type :=
| CallListByRepo (owner repo : string) (opts : IssueListByRepoOptions)
| CallListComments (owner repo : string) (issueNum : Z) (opts : ListOptions)
| LogWrote (file : path)
| Yielded (id : option Z).

Record world : Type := mkWorld {
  disk : FS;
  trace : list event
}.

Definition onDisk {A} (m : M FS A) : M world A := fun w =>
  let '(r, fs) := m (disk w) in (r, mkWorld fs (trace w)).

Definition emit (e : event) : M world unit :=
  modify (fun w => mkWorld (disk w) (trace w ++ [e])).

(** What is passed to [json.MarshalIndent] as [interface{}]. *)
Inductive value : Type :=
| VIssue (i : Issue)
| VComment (c : IssueComment).

(** Package encoding/json, at the types the program uses it at:
    [json.MarshalIndent] (no prefix, a tab as indent) and [json.Unmarshal] into a
    [github.Issue] and into a [github.IssueComment]. *)
Record JSON : Type := mkJSON {
  MarshalIndent : value -> res (list byte);
  UnmarshalIssue : list byte -> res Issue;
  UnmarshalComment : list byte -> res IssueComment
}.

(* ================================================================== *)
(** ** filepath.Walk and sort.Ints *)
(* ================================================================== *)

Definition WalkFunc (S : Type) : Type :=
  path -> option FileInfo -> option error -> M S unit.

(** [filepath.Walk]'s recursion: the function is called on the node, then
    on every entry of a directory in lexical order; [SkipDir] returned for
    a directory skips it, any other error ends the walk. *)
Fixpoint walk {S} (walkFn : WalkFunc S) (p : path) (n : node) : M S unit :=
  fun s =>
    match walkFn p (Some (infoOf n)) None s with
    | (Err e, s1) =>
        if IsDir (infoOf n) && isSkipDir e then (Ok tt, s1) else (Err e, s1)
    | (Ok _, s1) =>
        match n with
        | Directory es _ =>
            (fix each (es : list (string * node)) (s : S) : res unit * S :=
               match es with
               | [] => (Ok tt, s)
               | (name, c) :: es' =>
                   match walk walkFn (p ++ [name]) c s with
                   | (Ok _, s') => each es' s'
                   | (Err e, s') =>
                       if negb (IsDir (infoOf c)) || negb (isSkipDir e)
                       then (Err e, s')
                       else each es' s'
                   end
               end) es s1
        | _ => (Ok tt, s1)
        end
    end.

Definition Walk {S} (fs : FS) (root : path) (walkFn : WalkFunc S) : M S unit :=
  match lookup (tree fs) root with
  | Err e => walkFn root None (Some e)
  | Ok n => walk walkFn root n
  end.

Module ZOrder <: TotalLeBool.

Definition t := Z.

Definition leb := Z.leb.

Lemma leb_total : forall x y, leb x y = true \/ leb y x = true.
Proof. intros x y. unfold leb. rewrite !Z.leb_le. lia. Qed.

End ZOrder.

Module ZSort := Sort ZOrder.

(** [sort.Ints]. *)
Definition sortInts (xs : list Z) : list Z := ZSort.sort xs.

(* ================================================================== *)
(** ** Package issuemirror: type Root and its methods *)
(* ================================================================== *)

Module Root.

Definition t : Type := path.

Definition IssueJSONFile (r : t) (num : Z) : path :=
  Join r ["issues"; Sprintf03d (Z.rem num 1000);
          (Itoa num ++ ".json")%string].

Definition IssueCommentsDir (r : t) (num : Z) : path :=
  Join r ["issues"; Sprintf03d (Z.rem num 1000);
          (Itoa num ++ ".comments")%string].

Definition IssueCommentFile (r : t) (issueNum commentID : Z) : path :=
  Join r ["issues"; Sprintf03d (Z.rem issueNum 1000);
          (Itoa issueNum ++ ".comments")%string;
          ("comment-" ++ Itoa commentID ++ ".json")%string].

Definition NumComments (r : t) (issueNum : Z) : M world Z := fun w =>
  match Open (disk w) (IssueCommentsDir r issueNum) with
  | Err e =>
      if IsNotExist e
      then match Stat (disk w) (IssueJSONFile r issueNum) with
           | Ok _ => (Ok 0, w)
           | Err _ => (Err e, w)
           end
      else (Err e, w)
  | Ok f =>
      match Readdirnames f with
      | Err e => (Err e, w)
      | Ok names => (Ok (Z.of_nat (List.length names)), w)
      end
  end.

Section WithJSON.

Variable json : JSON.

Definition Issue (r : t) (num : Z) : M world github.Issue := fun w =>
  match ReadFile (disk w) (IssueJSONFile r num) with
  | Err e => (Err e, w)
  | Ok slurp => (UnmarshalIssue json slurp, w)
  end.

Definition IssueComment (r : t) (issueNum commentID : Z)
  : M world github.IssueComment := fun w =>
  match ReadFile (disk w) (IssueCommentFile r issueNum commentID) with
  | Err e => (Err e, w)
  | Ok slurp => (UnmarshalComment json slurp, w)
  end.

(** The function [ForeachIssue] walks the tree with; its state is the
    slice [nums]. *)
Definition issueWalkFn (issueDir : path) : WalkFunc (list Z) :=
  fun p fi err =>
    match err with
    | Some e => fail e
    | None =>
        fi <- deref fi ;;
        let rel := Rel issueDir p in
        if IsDir fi && (3 <? String.length rel)%nat then fail SkipDir
        else if IsRegular fi then
          let base := Base p in
          if HasSuffix base ".json" then
            match Atoi (TrimSuffix base ".json") with
            | None => fail (ErrNonNumeric p)
            | Some num => modify (fun nums => nums ++ [num])
            end
          else ret tt
        else ret tt
    end.

Definition ForeachIssue (r : t) (fn : github.Issue -> M world unit)
  : M world unit := fun w =>
  let issueDir := Join r ["issues"] in
  match Walk (disk w) issueDir (issueWalkFn issueDir) [] with
  | (Err e, _) => (Err e, w)
  | (Ok _, nums) =>
      forM (sortInts nums) (fun num => is_ <- Issue r num ;; fn is_) w
  end.

(** The function [ForeachIssueComment] walks the comments directory with;
    its state is the slice [ids]. *)
Definition commentWalkFn (commentsDir : path) : WalkFunc (list Z) :=
  fun p fi err =>
    match err with
    | Some e => fail e
    | None =>
        fi <- deref fi ;;
        if IsDir fi then
          if list_eq_dec string_dec p commentsDir then ret tt
          else fail (ErrUnexpectedDirectory p)
        else if IsRegular fi then
          let base := Base p in
          if HasPrefix base "comment-" && HasSuffix base ".json" then
            let idStr := TrimPrefix (TrimSuffix base ".json") "comment-" in
            match Atoi idStr with
            | None => fail (ErrNonNumeric p)
            | Some id => modify (fun ids => ids ++ [id])
            end
          else ret tt
        else ret tt
    end.

Definition ForeachIssueComment (r : t) (issueNum : Z)
  (fn : github.IssueComment -> M world unit) : M world unit := fun w =>
  let commentsDir := IssueCommentsDir r issueNum in
  match Walk (disk w) commentsDir (commentWalkFn commentsDir) [] with
  | (Err e, _) => if IsNotExist e then (Ok tt, w) else (Err e, w)
  | (Ok _, ids) =>
      forM (sortInts ids) (fun id => c <- IssueComment r issueNum id ;; fn c) w
  end.

End WithJSON.

End Root.

(* ================================================================== *)
(** ** Command mirrorissues: writeDiskJSON and the two sync passes *)
(* ================================================================== *)

Section Mirror.

Variable json : JSON.

(** [j[len(j)-1] != '\n'] then [append(j, '\n')]; indexing an empty slice
    panics. *)
Definition ensureNewline (j : list byte) : res (list byte) :=
  match j with
  | [] => Err PanicIndex
  | _ => if Byte.eqb (last j x00) x0a then Ok j else Ok (j ++ [x0a])
  end.

(** The head of [writeDiskJSON], up to the decision whether to write and
    with which timestamp: [None] is the early [return false, nil]. *)
Definition writeDecision (st : res FileInfo) (modTime : time)
  : res (option time) :=
  if IsZero modTime then
    match st with
    | Err e => Err e
    | Ok fi => Ok (Some (ModTime fi))
    end
  else
    match st with
    | Ok fi => if Equal (ModTime fi) modTime then Ok None else Ok (Some modTime)
    | Err _ => Ok (Some modTime)
    end.

Definition writeDiskJSON (file : path) (modTime : time) (v : value)
  : M world bool :=
  st <- gets (fun w => Stat (disk w) file) ;;
  decision <- lift (writeDecision st modTime) ;;
  match decision with
  | None => ret false
  | Some modTime =>
      j <- lift (MarshalIndent json v) ;;
      j <- lift (ensureNewline j) ;;
      onDisk (MkdirAll (Dir file)) ;;;
      onDisk (WriteFile file j) ;;;
      onDisk (Chtimes file modTime modTime) ;;;
      emit (LogWrote file) ;;;
      ret true
  end.

Variable client : Client.
Variable root : Root.t.
Variable reclean : bool.

(** The body of [for _, is := range issues] of the first pass; the
    accumulator is [keepGoing]. *)
Fixpoint syncPage (issues : list Issue) (keepGoing : bool) : M world bool :=
  match issues with
  | [] => ret keepGoing
  | is_ :: rest =>
      let '(is_, _) := cleanIssue is_ in
      num <- deref (issueNumber is_) ;;
      let issueFile := Root.IssueJSONFile root num in
      updatedAt <- deref (issueUpdatedAt is_) ;;
      wrote <- writeDiskJSON issueFile updatedAt (VIssue is_) ;;
      syncPage rest (if wrote then true else keepGoing)
  end.

Definition issueListOptions (page : Z) : IssueListByRepoOptions :=
  mkIssueListByRepoOptions "all" "updated" "desc" (mkListOptions page 100).

(** One turn of [for keepGoing { ... }]: the request for a page and the
    loop over its issues; the result is [keepGoing]. *)
Definition fetchPage (page : Z) : M world bool :=
  emit (CallListByRepo "golang" "go" (issueListOptions page)) ;;;
  r <- lift (ListByRepo client "golang" "go" (issueListOptions page)) ;;
  syncPage (fst r) false.

(** [for keepGoing { ... page++ }], entered with [keepGoing] true; [fuel]
    bounds the number of pages. *)
Fixpoint syncIssues (fuel : nat) (page : Z) : M world unit :=
  match fuel with
  | O => fail OutOfFuel
  | S fuel' =>
      keepGoing <- fetchPage page ;;
      if keepGoing then syncIssues fuel' (page + 1) else ret tt
  end.

(** The body of [for _, c := range comments] of [updateComments]. *)
Fixpoint writeComments (issueNum : Z) (comments : list IssueComment)
  : M world unit :=
  match comments with
  | [] => ret tt
  | c :: rest =>
      let '(c', _) := cleanComment (Some c) in
      c <- deref c' ;;
      id <- deref (commentID c) ;;
      updatedAt <- deref (commentUpdatedAt c) ;;
      writeDiskJSON (Root.IssueCommentFile root issueNum id) updatedAt
                    (VComment c) ;;;
      writeComments issueNum rest
  end.

(** The closure [updateComments]; [fuel] bounds the number of pages. *)
Fixpoint updateCommentsFrom (fuel : nat) (issueNum page : Z) : M world unit :=
  match fuel with
  | O => fail OutOfFuel
  | S fuel' =>
      emit (CallListComments "golang" "go" issueNum (mkListOptions page 100)) ;;;
      r <- lift (ListComments client "golang" "go" issueNum
                              (mkListOptions page 100)) ;;
      writeComments issueNum (fst r) ;;;
      let page := NextPage (snd r) in
      if page =? 0 then ret tt else updateCommentsFrom fuel' issueNum page
  end.

Definition updateComments (fuel : nat) (issueNum : Z) : M world unit :=
  updateCommentsFrom fuel issueNum 1.

(** The function passed to [ForeachIssueComment] under [-reclean]. *)
Definition recleanComment (issueNum : Z) (c : IssueComment) : M world unit :=
  let '(c', cleaned) := cleanComment (Some c) in
  if cleaned then
    c <- deref c' ;;
    id <- deref (commentID c) ;;
    writeDiskJSON (Root.IssueCommentFile root issueNum id) zeroTime
                  (VComment c) ;;;
    ret tt
  else ret tt.

(** The [if *reclean { ... }] block; it returns the issue as cleaned in
    place, which the rest of the function goes on with. *)
Definition recleanIssue (is_ : Issue) : M world Issue :=
  let '(is', cleaned) := cleanIssue is_ in
  (if cleaned then
     num <- deref (issueNumber is') ;;
     writeDiskJSON (Root.IssueJSONFile root num) zeroTime (VIssue is') ;;;
     ret tt
   else ret tt) ;;;
  issueNum <- deref (issueNumber is') ;;
  Root.ForeachIssueComment json root issueNum (recleanComment issueNum) ;;;
  ret is'.

(** The function passed to [ForeachIssue]: the second pass for one stored
    issue. *)
Definition reconcileIssue (fuel : nat) (is_ : Issue) : M world unit :=
  match issueComments is_ with
  | None => ret tt
  | Some _ =>
      is_ <- (if reclean then recleanIssue is_ else ret is_) ;;
      numComments <- deref (issueComments is_) ;;
      num <- deref (issueNumber is_) ;;
      onDisk_ <- Root.NumComments root num ;;
      if onDisk_ =? numComments then ret tt
      else
        num <- deref (issueNumber is_) ;;
        updateComments fuel num
  end.

Definition reconcileAll (fuel : nat) : M world unit :=
  Root.ForeachIssue json root (reconcileIssue fuel).

(** [main], from the first request on. *)
Definition main (fuel : nat) : M world unit :=
  syncIssues fuel 1 ;;;
  reconcileAll fuel.

(** The world after [n] pages were fetched one after the other, the
    first of them [page]. *)
Fixpoint afterPages (n : nat) (page : Z) (w : world) : world :=
  match n with
  | O => w
  | S n' => afterPages n' (page + 1) (snd (fetchPage page w))
  end.

(** The pages of comments the remote's own cursor leads through, from
    [page] on. *)
Fixpoint cursorPages (fuel : nat) (issueNum page : Z) : list Z :=
  match fuel with
  | O => []
  | S fuel' =>
      page ::
      match ListComments client "golang" "go" issueNum
                         (mkListOptions page 100) with
      | Ok r =>
          if NextPage (snd r) =? 0 then []
          else cursorPages fuel' issueNum (NextPage (snd r))
      | Err _ => []
      end
  end.

(** The file an issue is written to, and the issues on a page of the
    remote. *)
Definition issueFileOf (is_ : Issue) : path :=
  Root.IssueJSONFile root
    (match issueNumber is_ with Some num => num | None => 0 end).

Definition pageIssues (page : Z) : list Issue :=
  match ListByRepo client "golang" "go" (issueListOptions page) with
  | Ok r => fst r
  | Err _ => []
  end.

(** Whether the disk lacks the version of an issue: its file is not
    there, or has another modification time. *)
Definition changed (fs : FS) (is_ : Issue) : bool :=
  match issueUpdatedAt is_ with
  | Some u => negb (upToDate fs (issueFileOf is_) u)
  | None => true
  end.

(** The file a comment of issue [issueNum] is written to. *)
Definition commentFileOf (issueNum : Z) (c : IssueComment) : path :=
  Root.IssueCommentFile root issueNum
    (match commentID c with Some id => id | None => 0 end).

(** All the comments on the pages the cursor leads through. *)
Fixpoint fetchedComments (fuel : nat) (issueNum page : Z)
  : list IssueComment :=
  match fuel with
  | O => []
  | S fuel' =>
      match ListComments client "golang" "go" issueNum
                         (mkListOptions page 100) with
      | Ok r =>
          fst r ++
          (if NextPage (snd r) =? 0 then []
           else fetchedComments fuel' issueNum (NextPage (snd r)))
      | Err _ => []
      end
  end.

End Mirror.

(* ================================================================== *)
(** ** Observations the properties are stated with *)
(* ================================================================== *)

(** What the file of [v] is to hold: the output of [MarshalIndent] for
    [v], which is not empty, as it is when its last byte is a newline,
    and followed by one newline when it is not. *)
Definition encoded (json : JSON) (v : value) (j : list byte) : Prop :=
  exists j0,
    MarshalIndent json v = Ok j0 /\ j0 <> [] /\
    ((last j0 x00 = x0a /\ j = j0) \/
     (last j0 x00 <> x0a /\ j = j0 ++ [x0a])).

Definition nodeAt (w : world) (file : path) : res node :=
  lookup (tree (disk w)) file.

(** The pages of issues requested, the pages of comments requested with
    their issue, and the records noted, each in the order of the trace. *)
Fixpoint issuePagesRequested (tr : list event) : list Z :=
  match tr with
  | [] => []
  | CallListByRepo _ _ opts :: tr' =>
      Page (ListOpts opts) :: issuePagesRequested tr'
  | _ :: tr' => issuePagesRequested tr'
  end.

Fixpoint commentPagesRequested (tr : list event) : list (Z * Z) :=
  match tr with
  | [] => []
  | CallListComments _ _ num opts :: tr' =>
      (num, Page opts) :: commentPagesRequested tr'
  | _ :: tr' => commentPagesRequested tr'
  end.

Fixpoint yielded (tr : list event) : list (option Z) :=
  match tr with
  | [] => []
  | Yielded id :: tr' => id :: yielded tr'
  | _ :: tr' => yielded tr'
  end.

(** The callbacks that note the record they are given. *)
Definition noteIssue (is_ : Issue) : M world unit :=
  emit (Yielded (issueNumber is_)).

Definition noteComment (c : IssueComment) : M world unit :=
  emit (Yielded (commentID c)).

(** The loop of [filepath.Walk] over the entries of a directory, as a
    function of its own. *)
Fixpoint walkEntries {S} (walkFn : WalkFunc S) (p : path)
  (es : list (string * node)) : M S unit :=
  fun s =>
    match es with
    | [] => (Ok tt, s)
    | (name, c) :: es' =>
        match walk walkFn (p ++ [name]) c s with
        | (Ok _, s') => walkEntries walkFn p es' s'
        | (Err e, s') =>
            if negb (IsDir (infoOf c)) || negb (isSkipDir e)
            then (Err e, s')
            else walkEntries walkFn p es' s'
        end
    end.

(** What the walk of [ForeachIssueComment] makes of one entry of the
    comments directory: an error, nothing, or an identity. *)
Definition scanCommentEntry (commentsDir : path) (name : string) (c : node)
  : res (option Z) :=
  match c with
  | Directory _ _ => Err (ErrUnexpectedDirectory (commentsDir ++ [name]))
  | Special _ => Ok None
  | File _ _ =>
      if HasPrefix name "comment-" && HasSuffix name ".json" then
        match Atoi (TrimPrefix (TrimSuffix name ".json") "comment-") with
        | None => Err (ErrNonNumeric (commentsDir ++ [name]))
        | Some id => Ok (Some id)
        end
      else Ok None
  end.

(** And of all the entries, in their order: the first error, or the
    identities. *)
Fixpoint scanComments (commentsDir : path) (es : list (string * node))
  : res (list Z) :=
  match es with
  | [] => Ok []
  | (name, c) :: es' =>
      match scanCommentEntry commentsDir name c with
      | Err e => Err e
      | Ok o =>
          match scanComments commentsDir es' with
          | Err e => Err e
          | Ok l => Ok (match o with Some id => id :: l | None => l end)
          end
      end
  end.

(** A name of the form comment-<integer>.json. *)
Definition commentFileName (name : string) : bool :=
  HasPrefix name "comment-" && HasSuffix name ".json" &&
  match Atoi (TrimPrefix (TrimSuffix name ".json") "comment-") with
  | Some _ => true
  | None => false
  end.

(* ================================================================== *)
(** ** Example data: a codec, a remote and a few disks *)
(* ================================================================== *)

Module Example.

Definition dq : string := String (ascii_of_nat 34) EmptyString.
Definition tab : string := String (ascii_of_nat 9) EmptyString.
Definition nl : string := String (ascii_of_nat 10) EmptyString.

Definition intField (name : string) (v : option Z) : list string :=
  match v with
  | Some n => [(tab ++ dq ++ name ++ dq ++ ": " ++ Itoa n)%string]
  | None => []
  end.

Definition strField (name : string) (v : option string) : list string :=
  match v with
  | Some s => [(tab ++ dq ++ name ++ dq ++ ": " ++ dq ++ s ++ dq)%string]
  | None => []
  end.

Fixpoint joinLines (ls : list string) : string :=
  match ls with
  | [] => EmptyString
  | [l] => (l ++ nl)%string
  | l :: ls' => (l ++ "," ++ nl ++ joinLines ls')%string
  end.

Definition object (fields : list string) : string :=
  match fields with
  | [] => "{}"
  | _ => ("{" ++ nl ++ joinLines fields ++ "}")%string
  end.

(** The output of [json.MarshalIndent] (no prefix, a tab as indent) for a record of which
    the fields below are the only ones present; the example records are
    such records, but for their timestamps, which this codec leaves out. *)
Definition marshal (v : value) : res (list byte) :=
  match v with
  | VIssue i =>
      Ok (list_byte_of_string
            (object (intField "number" (issueNumber i)
                     ++ intField "comments" (issueComments i)
                     ++ strField "url" (issueURL i))))
  | VComment c =>
      Ok (list_byte_of_string
            (object (intField "id" (commentID c)
                     ++ strField "url" (commentURL c))))
  end.

Fixpoint splitLines (s cur : string) : list string :=
  match s with
  | EmptyString => [cur]
  | String c s' =>
      if Ascii.eqb c (ascii_of_nat 10) then cur :: splitLines s' EmptyString
      else splitLines s' (cur ++ String c EmptyString)%string
  end.

Definition fieldOf (name line : string) : option string :=
  let l := TrimSuffix (TrimPrefix line tab) "," in
  let key := (dq ++ name ++ dq ++ ": ")%string in
  if HasPrefix l key then Some (TrimPrefix l key) else None.

Fixpoint firstField (name : string) (ls : list string) : option string :=
  match ls with
  | [] => None
  | l :: ls' =>
      match fieldOf name l with
      | Some v => Some v
      | None => firstField name ls'
      end
  end.

Definition intOf (name : string) (ls : list string) : option Z :=
  match firstField name ls with
  | Some v => Atoi v
  | None => None
  end.

Definition strOf (name : string) (ls : list string) : option string :=
  match firstField name ls with
  | Some v => Some (TrimSuffix (TrimPrefix v dq) dq)
  | None => None
  end.

Definition noUser : option User := None.

Definition unmarshalIssue (b : list byte) : res Issue :=
  let s := string_of_list_byte b in
  if HasPrefix s "{" then
    let ls := splitLines s EmptyString in
    Ok (mkIssue (intOf "number" ls) None noUser [] noUser
                (intOf "comments" ls) None (strOf "url" ls) None None None [])
  else Err ErrJSON.

Definition unmarshalComment (b : list byte) : res IssueComment :=
  let s := string_of_list_byte b in
  if HasPrefix s "{" then
    let ls := splitLines s EmptyString in
    Ok (mkIssueComment (intOf "id" ls) None noUser None None
                       (strOf "url" ls) None None)
  else Err ErrJSON.

Definition codec : JSON := mkJSON marshal unmarshalIssue unmarshalComment.

(** An issue as the remote lists it, and a comment. *)
Definition issue (num comments : Z) (updatedAt : time) : Issue :=
  mkIssue (Some num) None noUser [] noUser (Some comments) (Some updatedAt)
          (Some "https://api.example/issue") None None None [].

Definition comment (id : Z) (updatedAt : time) : IssueComment :=
  mkIssueComment (Some id) None noUser None (Some updatedAt)
                 (Some "https://api.example/comment") None None.

Definition bytesOf (v : value) : list byte :=
  match marshal v with
  | Ok j => match ensureNewline j with Ok j' => j' | Err _ => [] end
  | Err _ => []
  end.

(** The bytes the program stores for an issue and for a comment. *)
Definition issueBytes (num comments : Z) : list byte :=
  bytesOf (VIssue (fst (cleanIssue (issue num comments 0)))).

Definition commentBytes (id : Z) : list byte :=
  bytesOf (VComment (mkIssueComment (Some id) None noUser None None None
                                    None None)).

Definition root : Root.t := ["mirror"].

Definition dir (t : time) (es : list (string * node)) : node :=
  Directory es (newMeta t).

Definition file (t : time) (d : list byte) : node := File d (newMeta t).

(** A disk whose mirror directory is empty. *)
Definition emptyDisk : FS := mkFS (dir 10 [("mirror", dir 10 [])]) 1000 [].

Definition mirror (shards : list (string * node)) : FS :=
  mkFS (dir 10 [("mirror", dir 10 [("issues", dir 10 shards)])]) 1000 [].

Definition start (fs : FS) : world := mkWorld fs [].

(** The file of issue 42, a disk that holds it at version 500, and the
    same disk with the file writable by the process but owned by someone
    else. *)
Definition file42 : path := Root.IssueJSONFile root 42.

Definition stored42 : FS :=
  mirror [("042", dir 10 [("42.json", file 500 (issueBytes 42 3))])].

Definition foreign42 : FS :=
  mirror [("042", dir 10 [("42.json",
                           File (issueBytes 42 3)
                                (mkMeta 500 500 true false))])].

(** Issue 42 with one stored comment, and beside the comment a file of
    another name. *)
Definition withNotes : FS :=
  mirror [("042", dir 10 [("42.comments",
                           dir 10 [("comment-1.json", file 50 (commentBytes 1));
                                   ("notes.txt", file 60 [])]);
                          ("42.json", file 500 (issueBytes 42 1))])].

(** Issue 42 with one stored comment, and a directory inside the comments
    directory. *)
Definition nested : FS :=
  mirror [("042", dir 10 [("42.comments",
                           dir 10 [("comment-1.json", file 50 (commentBytes 1));
                                   ("deeper", dir 10 [])]);
                          ("42.json", file 500 (issueBytes 42 1))])].

(** Issue 42 with two stored comments; and with a comment file whose
    identity is no integer. *)
Definition twoComments : FS :=
  mirror [("042", dir 10 [("42.comments",
                           dir 10 [("comment-1.json", file 50 (commentBytes 1));
                                   ("comment-2.json", file 60 (commentBytes 2))]);
                          ("42.json", file 500 (issueBytes 42 2))])].

Definition badName : FS :=
  mirror [("042", dir 10 [("42.comments",
                           dir 10 [("comment-1.json", file 50 (commentBytes 1));
                                   ("comment-x.json", file 60 (commentBytes 2))]);
                          ("42.json", file 500 (issueBytes 42 2))])].

(** A remote with four pages of issues, most recently updated first, and
    with the comments of issue 42 on two pages, the cursor of the first
    pointing at page 7. *)
Definition listByRepo (owner repo : string) (opts : IssueListByRepoOptions)
  : res (list Issue * Response) :=
  match Page (ListOpts opts) with
  | 1 => Ok ([issue 44 0 900; issue 43 0 800], mkResponse 2)
  | 2 => Ok ([issue 42 3 700], mkResponse 3)
  | 3 => Ok ([issue 41 0 600; issue 40 0 500], mkResponse 4)
  | 4 => Ok ([issue 39 0 400], mkResponse 0)
  | _ => Ok ([], mkResponse 0)
  end.

Definition listComments (owner repo : string) (issueNum : Z)
  (opts : ListOptions) : res (list IssueComment * Response) :=
  if issueNum =? 42 then
    match Page opts with
    | 1 => Ok ([comment 1 50; comment 2 60], mkResponse 7)
    | 7 => Ok ([comment 3 70], mkResponse 0)
    | _ => Ok ([], mkResponse 0)
    end
  else Ok ([], mkResponse 0).

Definition client : Client := mkClient listByRepo listComments.

(** A disk that holds issues 40 and 41 as the remote has them, and not
    issue 39. *)
Definition synced40 : FS :=
  mirror [("040", dir 10 [("40.json", file 500 (issueBytes 40 0))]);
          ("041", dir 10 [("41.json", file 600 (issueBytes 41 0))])].

(** An issue as [unmarshalIssue] reads it back from [issueBytes]. *)
Definition stored (num comments : Z) : Issue :=
  mkIssue (Some num) None noUser [] noUser (Some comments) None None None
          None None [].

(** A disk written before the normalizer dropped URLs: issue 42 and its
    one comment are stored with their URLs. *)
Definition dirtyIssue : Issue :=
  mkIssue (Some 42) None noUser [] noUser (Some 1) None
          (Some "https://api.example/issue") None None None [].

Definition dirty : FS :=
  mirror [("042", dir 10 [("42.comments",
                           dir 10 [("comment-1.json",
                                    file 50 (bytesOf (VComment (comment 1 0))))]);
                          ("42.json", file 500 (bytesOf (VIssue dirtyIssue)))])].

(** A stored issue without the [Comments] field, and with a URL. *)
Definition orphanIssue : Issue :=
  mkIssue (Some 7) None noUser [] noUser None None
          (Some "https://api.example/issue") None None None [].

Definition orphan : FS :=
  mirror [("007", dir 10 [("7.json", file 300 (bytesOf (VIssue orphanIssue)))])].

(** A comment with one thumbs-up; the remote sends the count 0 for the
    thumbs-down. *)
Definition thumbs : Reactions :=
  mkReactions (Some 1) (Some 1) (Some 0) None None None None None.

Definition reacted : IssueComment :=
  mkIssueComment (Some 7) None noUser (Some thumbs) (Some 500) None None None.

Definition reactedIssue : Issue :=
  mkIssue (Some 7) None noUser [] noUser (Some 0) (Some 500) None None None
          (Some thumbs) [].

(** A disk in sync with the first page of the remote: issues 44 and 43
    with their versions, neither of them with comments. *)
Definition inSync : FS :=
  mirror [("043", dir 10 [("43.json", file 800 (issueBytes 43 0))]);
          ("044", dir 10 [("44.json", file 900 (issueBytes 44 0))])].

(** The disk that holds issue 42, on a device that fails after seven
    bytes of the next write. *)
Definition failing42 : FS := mkFS (tree stored42) 1000 [Some (7%nat, ENOSPC)].

End Example.

(* ================================================================== *)
(** ** The runs of writeDiskJSON *)
(* ================================================================== *)

(** Every way a call of [writeDiskJSON] can go, with the disk it leaves. *)
Inductive writeRun (json : JSON) (file : path) (v : time) (val : value) (w : world)
  : res bool -> world -> Prop :=
| RunStatFails e :
    writeDecision (Stat (disk w) file) v = Err e ->
    writeRun json file v val w (Err e) w
| RunCurrent :
    writeDecision (Stat (disk w) file) v = Ok None ->
    writeRun json file v val w (Ok false) w
| RunMarshalFails ts e :
    writeDecision (Stat (disk w) file) v = Ok (Some ts) ->
    MarshalIndent json val = Err e ->
    writeRun json file v val w (Err e) w
| RunEmptyJSON ts e :
    writeDecision (Stat (disk w) file) v = Ok (Some ts) ->
    MarshalIndent json val = Ok [] ->
    e = PanicIndex ->
    writeRun json file v val w (Err e) w
| RunMkdirFails ts j e :
    writeDecision (Stat (disk w) file) v = Ok (Some ts) ->
    encoded json val j ->
    mkdirAll (now (disk w)) (Dir file) (tree (disk w)) = Err e ->
    writeRun json file v val w (Err e) w
| RunWriteFails ts j n1 e :
    writeDecision (Stat (disk w) file) v = Ok (Some ts) ->
    encoded json val j ->
    mkdirAll (now (disk w)) (Dir file) (tree (disk w)) = Ok n1 ->
    writeFile (now (disk w)) (accepted (disk w) j) file n1 = Err e ->
    writeRun json file v val w (Err e)
             (mkWorld (mkFS n1 (now (disk w)) (faults (disk w))) (trace w))
| RunShortWrite ts j n1 n2 k e :
    writeDecision (Stat (disk w) file) v = Ok (Some ts) ->
    encoded json val j ->
    mkdirAll (now (disk w)) (Dir file) (tree (disk w)) = Ok n1 ->
    writeFault (disk w) = Some (k, e) ->
    writeFile (now (disk w)) (firstn k j) file n1 = Ok n2 ->
    writeRun json file v val w (Err e)
             (mkWorld (mkFS n2 (now (disk w)) (tl (faults (disk w))))
                      (trace w))
| RunChtimesFails ts j n1 n2 e :
    writeDecision (Stat (disk w) file) v = Ok (Some ts) ->
    encoded json val j ->
    mkdirAll (now (disk w)) (Dir file) (tree (disk w)) = Ok n1 ->
    writeFault (disk w) = None ->
    writeFile (now (disk w)) j file n1 = Ok n2 ->
    chtimes ts ts file n2 = Err e ->
    writeRun json file v val w (Err e)
             (mkWorld (mkFS n2 (now (disk w)) (tl (faults (disk w))))
                      (trace w))
| RunWrote ts j n1 n2 n3 :
    writeDecision (Stat (disk w) file) v = Ok (Some ts) ->
    encoded json val j ->
    mkdirAll (now (disk w)) (Dir file) (tree (disk w)) = Ok n1 ->
    writeFault (disk w) = None ->
    writeFile (now (disk w)) j file n1 = Ok n2 ->
    chtimes ts ts file n2 = Ok n3 ->
    writeRun json file v val w (Ok true)
             (mkWorld (mkFS n3 (now (disk w)) (tl (faults (disk w))))
                      (trace w ++ [LogWrote file])).


(* ================================================================== *)
(** ** Small notions the properties of the passes are stated with *)
(* ================================================================== *)

Definition noFile (files : list path) : bool :=
  match files with [] => true | _ => false end.

(** The pages [page], [page + 1], ..., [n] of them. *)
Fixpoint pagesFrom (n : nat) (page : Z) : list Z :=
  match n with
  | O => []
  | S n' => page :: pagesFrom n' (page + 1)
  end.


(** Two paths that part at some component: neither is the other, nor
    above or below the other. *)
Inductive diverge : path -> path -> Prop :=
| diverge_here a b p q : a <> b -> diverge (a :: p) (b :: q)
| diverge_next a p q : diverge p q -> diverge (a :: p) (a :: q).

(** The same pages of comments requested before and after. *)
Definition sameCommentPages (w w' : world) : Prop :=
  commentPagesRequested (trace w') = commentPagesRequested (trace w).


(** The values of Go's [int]. *)
Definition isInt (n : Z) : Prop := minInt <= n <= maxInt.

(** An issue as the remote sends it: with its number, and with a time of
    update that is not the zero time; and a comment with its identity. *)
Definition wellFormed (is_ : Issue) : Prop :=
  (exists num, issueNumber is_ = Some num /\ isInt num) /\
  (exists u, issueUpdatedAt is_ = Some u /\ IsZero u = false).

Definition identified (c : IssueComment) : Prop :=
  exists id, commentID c = Some id /\ isInt id.

(** Whether a pointer field is set, and a comment with other reactions. *)
Definition present {A} (o : option A) : bool :=
  match o with Some _ => true | None => false end.

Definition withReactions (c : IssueComment) (r : option Reactions)
  : IssueComment :=
  mkIssueComment (commentID c) (commentBody c) (commentUser c) r
                 (commentUpdatedAt c) (commentURL c) (commentHTMLURL c)
                 (commentIssueURL c).

(** An issue with other reactions. *)
Definition issueWithReactions (i : Issue) (r : option Reactions) : Issue :=
  mkIssue (issueNumber i) (issueTitle i) (issueUser i) (issueLabels i)
          (issueAssignee i) (issueComments i) (issueUpdatedAt i)
          (issueURL i) (issueHTMLURL i) (issueMilestone i) r
          (issueAssignees i).

(** The assignees [cleanIssue] goes on with: none when there is exactly
    one. *)
Definition keptAssignees (i : Issue) : list (option User) :=
  if Z.of_nat (List.length (issueAssignees i)) =? 1 then []
  else issueAssignees i.

(** Induction on a tree, with the property known for the nodes of the
    entries of a directory. *)
Section NodeInduction.

Variable P : node -> Prop.
Hypothesis HFile : forall d m, P (File d m).
Hypothesis HDirectory :
  forall es m, Forall (fun e => P (snd e)) es -> P (Directory es m).
Hypothesis HSpecial : forall m, P (Special m).

Fixpoint node_induction (n : node) : P n :=
  match n with
  | File d m => HFile d m
  | Directory es m =>
      HDirectory es m
        ((fix each (es : list (string * node))
            : Forall (fun e => P (snd e)) es :=
            match es with
            | [] => Forall_nil _
            | (name, c) :: es' =>
                Forall_cons (name, c) (node_induction c) (each es')
            end) es)
  | Special m => HSpecial m
  end.

End NodeInduction.

(** A comment as the remote sends it: with its identity, and with a time
    of update that is not the zero time. *)
Definition versioned (c : IssueComment) : Prop :=
  exists id u,
    commentID c = Some id /\ commentUpdatedAt c = Some u /\ IsZero u = false.

(** The requests a run of [updateComments] makes, as events. *)
Definition commentRequests (issueNum : Z) (pages : list Z) : list event :=
  map (fun p => CallListComments "golang" "go" issueNum (mkListOptions p 100))
      pages.

(** The numbers the walk of [ForeachIssue] finds on a disk. *)
Definition storedNumbers (fs : FS) (r : Root.t) : list Z :=
  snd (Walk fs (Join r ["issues"])
            (Root.issueWalkFn (Join r ["issues"])) []).

(** The identities the walk of [ForeachIssueComment] finds for an issue
    on a disk. *)
Definition storedComments (fs : FS) (r : Root.t) (issueNum : Z) : list Z :=
  snd (Walk fs (Root.IssueCommentsDir r issueNum)
            (Root.commentWalkFn (Root.IssueCommentsDir r issueNum)) []).

(** Whether the chain of pages that the remote's cursor leads through,
    from [page] on, comes to its end within [fuel] pages: with a page
    whose cursor is 0, or with a request that fails. *)
Fixpoint chainEnds (client : Client) (fuel : nat) (issueNum page : Z) : bool :=
  match fuel with
  | O => false
  | S fuel' =>
      match ListComments client "golang" "go" issueNum
                         (mkListOptions page 100) with
      | Ok r =>
          if NextPage (snd r) =? 0 then true
          else chainEnds client fuel' issueNum (NextPage (snd r))
      | Err _ => true
      end
  end.

(** The steps of a run of [updateComments], one after the other: the
    request for a page, and the turn of the loop for a comment of a
    page. *)
Inductive commentStep : Type :=
| RequestPage (page : Z)
| PutComment (c : IssueComment).

(** The steps from [page] on, as the answers of the remote give them:
    the request for the page, the comments of the page in their order,
    and then the same for the page the cursor names, unless the cursor
    is 0. *)
Fixpoint commentSteps (client : Client) (fuel : nat) (issueNum page : Z)
  : list commentStep :=
  match fuel with
  | O => []
  | S fuel' =>
      RequestPage page ::
      match ListComments client "golang" "go" issueNum
                         (mkListOptions page 100) with
      | Ok r =>
          map PutComment (fst r) ++
          (if NextPage (snd r) =? 0 then []
           else commentSteps client fuel' issueNum (NextPage (snd r)))
      | Err _ => []
      end
  end.

(** What a step is: the request, logged and made; and the body of the
    loop over the comments, for the one comment. *)
Definition runCommentStep (json : JSON) (client : Client) (root : Root.t)
  (issueNum : Z) (s : commentStep) : M world unit :=
  match s with
  | RequestPage page =>
      emit (CallListComments "golang" "go" issueNum (mkListOptions page 100)) ;;;
      _ <- lift (ListComments client "golang" "go" issueNum
                              (mkListOptions page 100)) ;;
      ret tt
  | PutComment c => writeComments json root issueNum [c]
  end.

(** Step [s], taken in world [w], fails with [e] and leaves [w']: the
    remote fails the request, which leaves the disk alone; or the
    comment lacks its identity or its time of update, and nothing is
    changed; or the call of [writeDiskJSON] for the normalized comment
    fails in [w] with [e] and leaves [w']. *)
Definition commentStepFails (json : JSON) (client : Client) (root : Root.t)
  (issueNum : Z) (s : commentStep) (w : world) (e : error) (w' : world)
  : Prop :=
  match s with
  | RequestPage page =>
      ListComments client "golang" "go" issueNum (mkListOptions page 100)
      = Err e /\ disk w' = disk w
  | PutComment c =>
      (e = PanicNilDeref /\
       (commentID c = None \/ commentUpdatedAt c = None) /\ w' = w)
      \/
      (exists c' id u,
         fst (cleanComment (Some c)) = Some c' /\
         commentID c = Some id /\ commentUpdatedAt c = Some u /\
         writeDiskJSON json (Root.IssueCommentFile root issueNum id) u
                       (VComment c') w = (Err e, w'))
  end.

(* ================================================================== *)
(** * Properties *)
(* ================================================================== *)

(** ** The file system *)

Lemma compare_refl (s : string) : String.compare s s = Eq.
Proof.
  pose proof (String.compare_antisym s s) as H.
  destruct (String.compare s s); simpl in H; congruence.
Qed.

Lemma compare_neq (a b : string) :
  String.compare a b <> Eq -> String.eqb a b = false.
Proof.
  intros H. destruct (String.eqb a b) eqn:E; [|reflexivity].
  apply String.eqb_eq in E. subst. now rewrite compare_refl in H.
Qed.

Lemma find_insert (name : string) (c : node) (es : list (string * node)) :
  find (insert name c es) name = Some c.
Proof.
  induction es as [|[k v] es IH]; simpl.
  - now rewrite String.eqb_refl.
  - destruct (String.compare name k) eqn:E; simpl.
    + now rewrite String.eqb_refl.
    + now rewrite String.eqb_refl.
    + rewrite compare_neq by congruence. exact IH.
Qed.

Lemma find_insert_other (name other : string) (c : node)
  (es : list (string * node)) :
  other <> name -> find (insert name c es) other = find es other.
Proof.
  intros Hne. assert (Hf : String.eqb other name = false).
  { destruct (String.eqb other name) eqn:E; [|reflexivity].
    apply String.eqb_eq in E. contradiction. }
  induction es as [|[k v] es IH]; simpl.
  - now rewrite Hf.
  - destruct (String.compare name k) eqn:E; simpl.
    + apply String.compare_eq_iff in E. subst k. now rewrite Hf.
    + now rewrite Hf.
    + destruct (String.eqb other k); [reflexivity | exact IH].
Qed.

Lemma lookup_insert (name : string) (c : node) es m (p : path) :
  lookup (Directory (insert name c es) m) (name :: p) = lookup c p.
Proof. simpl. now rewrite find_insert. Qed.

(** A successful [ioutil.WriteFile] leaves a regular file with the data
    and the clock's time. *)
Lemma writeFile_lookup t data (p : path) : forall n n',
  writeFile t data p n = Ok n' ->
  exists m, lookup n' p = Ok (File data m) /\ modTime m = t.
Proof.
  induction p as [|name p IH]; intros n n' H.
  - destruct n as [d m|es m|m]; simpl in H; try discriminate.
    destruct (writable m); inversion H; subst.
    eexists; split; [reflexivity | reflexivity].
  - destruct n as [d m|es m|m]; simpl in H; try discriminate.
    destruct (find es name) as [c|] eqn:Ef.
    + destruct (writeFile t data p c) as [c'|] eqn:Ew; inversion H; subst.
      rewrite lookup_insert. eauto.
    + destruct p; [|discriminate].
      destruct (writable m); inversion H; subst.
      rewrite lookup_insert. simpl. eauto.
Qed.

(** A successful [os.Chtimes] changes the two timestamps of the node and
    nothing else of it. *)
Lemma chtimes_lookup a mt (p : path) : forall n n',
  chtimes a mt p n = Ok n' ->
  exists x, lookup n p = Ok x /\
            lookup n' p
            = Ok (withMeta x (mkMeta mt a (writable (metaOf x))
                                     (owned (metaOf x)))).
Proof.
  induction p as [|name p IH]; intros n n' H.
  - simpl in H. destruct (owned (metaOf n)) eqn:Eo; inversion H; subst.
    exists n. simpl. rewrite Eo. split; reflexivity.
  - destruct n as [d m|es m|m]; simpl in H; try discriminate.
    destruct (find es name) as [c|] eqn:Ef; [|discriminate].
    destruct (chtimes a mt p c) as [c'|] eqn:Ec; inversion H; subst.
    rewrite lookup_insert. simpl. rewrite Ef. eauto.
Qed.

(** A failing [os.Chtimes] on a node that exists is a refusal for want of
    ownership. *)
Lemma chtimes_error a mt (p : path) : forall n e x,
  chtimes a mt p n = Err e -> lookup n p = Ok x ->
  e = EPERM /\ owned (metaOf x) = false.
Proof.
  induction p as [|name p IH]; intros n e x H Hl.
  - simpl in *. inversion Hl; subst.
    destruct (owned (metaOf x)); inversion H; auto.
  - destruct n as [d m|es m|m]; simpl in *; try discriminate.
    destruct (find es name) as [c|] eqn:Ef; [|discriminate].
    destruct (chtimes a mt p c) as [c'|] eqn:Ec; inversion H; subst.
    eauto.
Qed.

(** Creating the directories above [p] does not change what is at [p]. *)
Lemma mkdirAll_lookup t (p : path) : forall n n',
  mkdirAll t (removelast p) n = Ok n' -> lookup n' p = lookup n p.
Proof.
  induction p as [|name p IH]; intros n n' H.
  - simpl in H. destruct n; inversion H; reflexivity.
  - destruct p as [|name2 p].
    + simpl in H. destruct n; inversion H; reflexivity.
    + change (removelast (name :: name2 :: p))
        with (name :: removelast (name2 :: p)) in H.
      destruct n as [d m|es m|m]; simpl in H; try discriminate.
      destruct (find es name) as [c|] eqn:Ef.
      * destruct (mkdirAll t _ c) as [c'|] eqn:Em; inversion H; subst.
        rewrite lookup_insert. simpl lookup at 2. rewrite Ef. now apply IH.
      * destruct (writable m); [|discriminate].
        destruct (mkdirAll t _ (Directory [] (newMeta t))) as [c'|] eqn:Em;
          inversion H; subst.
        rewrite lookup_insert. simpl lookup at 2. rewrite Ef.
        rewrite (IH _ _ Em). reflexivity.
Qed.

(** What is at [p] before a successful [ioutil.WriteFile] there: nothing,
    or a regular file whose permissions the write keeps. *)
Lemma writeFile_prior t data (p : path) : forall n n',
  writeFile t data p n = Ok n' ->
  (lookup n p = Err ENOENT /\
   lookup n' p = Ok (File data (newMeta t)))
  \/ (exists d m, lookup n p = Ok (File d m) /\
                  lookup n' p = Ok (File data (touch t m))).
Proof.
  induction p as [|name p IH]; intros n n' H.
  - destruct n as [d m|es m|m]; simpl in H; try discriminate.
    destruct (writable m); inversion H; subst. right. simpl. eauto.
  - destruct n as [d m|es m|m]; simpl in H; try discriminate.
    destruct (find es name) as [c|] eqn:Ef.
    + destruct (writeFile t data p c) as [c'|] eqn:Ew; inversion H; subst.
      rewrite lookup_insert. simpl. rewrite Ef. eauto.
    + destruct p; [|discriminate].
      destruct (writable m); inversion H; subst.
      rewrite lookup_insert. simpl. rewrite Ef. left. auto.
Qed.

Lemma lookup_app (p q : path) : forall n,
  lookup n (p ++ q)
  = match lookup n p with Ok c => lookup c q | Err e => Err e end.
Proof.
  induction p as [|name p IH]; intros n; [reflexivity|].
  simpl. destruct n as [d m|es m|m]; try reflexivity.
  destruct (find es name); [apply IH | reflexivity].
Qed.

(** *** Writing where directories are missing *)



(** ** Decimal numerals *)

Lemma append_assoc (a b c : string) :
  ((a ++ b) ++ c)%string = (a ++ (b ++ c))%string.
Proof. induction a as [|x a IH]; simpl; congruence. Qed.

Lemma append_nil_r (a : string) : (a ++ EmptyString)%string = a.
Proof. induction a as [|x a IH]; simpl; congruence. Qed.

Lemma append_length (a b : string) :
  String.length (a ++ b) = (String.length a + String.length b)%nat.
Proof. induction a as [|x a IH]; simpl; congruence. Qed.

Lemma append_inj_l (s a b : string) :
  (s ++ a)%string = (s ++ b)%string -> a = b.
Proof.
  induction s as [|c s IH]; simpl; intros H; [exact H|].
  inversion H. auto.
Qed.

Lemma append_inj_r (t : string) : forall a b : string,
  (a ++ t)%string = (b ++ t)%string -> a = b.
Proof.
  induction a as [|x a IH]; intros [|y b] H; simpl in H.
  - reflexivity.
  - apply (f_equal String.length) in H. simpl in H.
    rewrite append_length in H. lia.
  - apply (f_equal String.length) in H. simpl in H.
    rewrite append_length in H. lia.
  - inversion H. f_equal. now apply IH.
Qed.

Lemma digitOf_digitChar (d : Z) :
  0 <= d < 10 -> digitOf (digitChar d) = Some d.
Proof.
  intros H.
  assert (Hd : d = 0 \/ d = 1 \/ d = 2 \/ d = 3 \/ d = 4 \/ d = 5 \/ d = 6
               \/ d = 7 \/ d = 8 \/ d = 9) by lia.
  intuition (subst; reflexivity).
Qed.

Lemma parseDigits_app (s1 s2 : string) : forall a,
  parseDigits (s1 ++ s2) a
  = match parseDigits s1 a with
    | Some b => parseDigits s2 b
    | None => None
    end.
Proof.
  induction s1 as [|c s1 IH]; intros a; simpl; [reflexivity|].
  destruct (digitOf c); [apply IH | reflexivity].
Qed.

Lemma digitsOf_S (fuel : nat) (n : Z) (acc : string) :
  digitsOf (S fuel) n acc
  = if n <? 10 then String (digitChar (n mod 10)) acc
    else digitsOf fuel (n / 10) (String (digitChar (n mod 10)) acc).
Proof. reflexivity. Qed.

(** The digits [digitsOf] puts before [acc] read back as the number. *)
Lemma digitsOf_spec (fuel : nat) : forall n acc,
  0 <= n < 10 ^ Z.of_nat (S fuel) ->
  exists ds,
    digitsOf (S fuel) n acc = (ds ++ acc)%string /\
    ds <> EmptyString /\
    forall a,
      parseDigits ds a = Some (a * 10 ^ Z.of_nat (String.length ds) + n).
Proof.
  induction fuel as [|fuel IH]; intros n acc Hn.
  - change (10 ^ Z.of_nat 1) with 10 in Hn.
    exists (String (digitChar n) EmptyString).
    assert (Hlt : (n <? 10) = true) by (apply Z.ltb_lt; lia).
    rewrite digitsOf_S, Hlt, Z.mod_small by lia.
    split; [reflexivity|]. split; [discriminate|].
    intros a. simpl. rewrite digitOf_digitChar by lia.
    f_equal; lia.
  - rewrite (digitsOf_S (S fuel)). destruct (n <? 10) eqn:Hlt.
    + apply Z.ltb_lt in Hlt.
      exists (String (digitChar n) EmptyString).
      rewrite Z.mod_small by lia.
      split; [reflexivity|]. split; [discriminate|].
      intros a. simpl. rewrite digitOf_digitChar by lia.
      f_equal; lia.
    + apply Z.ltb_ge in Hlt.
      assert (Hdiv : 0 <= n / 10 < 10 ^ Z.of_nat (S fuel)).
      { split; [apply Z.div_pos; lia|].
        apply Z.div_lt_upper_bound; [lia|].
        rewrite <- Z.pow_succ_r by lia.
        replace (Z.succ (Z.of_nat (S fuel))) with (Z.of_nat (S (S fuel)))
          by lia.
        lia. }
      destruct (IH (n / 10) (String (digitChar (n mod 10)) acc) Hdiv)
        as (ds & Heq & Hne & Hparse).
      exists (ds ++ String (digitChar (n mod 10)) EmptyString)%string.
      split; [|split].
      * rewrite Heq, append_assoc. reflexivity.
      * destruct ds; [contradiction | discriminate].
      * intros a. rewrite parseDigits_app, Hparse. simpl.
        rewrite digitOf_digitChar by (apply Z.mod_pos_bound; lia).
        f_equal. rewrite append_length. simpl String.length.
        rewrite Nat2Z.inj_add. change (Z.of_nat 1) with 1.
        rewrite Z.pow_add_r by lia. change (10 ^ 1) with 10.
        pose proof (Z.div_mod n 10 ltac:(lia)). lia.
Qed.

Lemma decimal_spec (n : Z) :
  0 <= n <= - minInt ->
  exists c ds,
    decimal n = String c ds /\
    (exists d, digitOf c = Some d) /\
    parseDigits (decimal n) 0 = Some n.
Proof.
  intros Hn. unfold decimal.
  destruct (digitsOf_spec 19 n EmptyString) as (ds & Heq & Hne & Hparse).
  { unfold minInt in Hn. split; [lia|].
    apply Z.le_lt_trans with 9223372036854775808; [lia | reflexivity]. }
  rewrite Heq, append_nil_r.
  destruct ds as [|c ds]; [contradiction|].
  exists c, ds. split; [reflexivity|]. split.
  - specialize (Hparse 0). simpl in Hparse.
    destruct (digitOf c) as [d|]; [eauto | discriminate].
  - rewrite Hparse. f_equal.
Qed.

(** [strconv.Atoi] reads back what [strconv.Itoa] prints. *)
Lemma Atoi_Itoa (n : Z) : isInt n -> Atoi (Itoa n) = Some n.
Proof.
  unfold isInt, Itoa. intros Hn. destruct (n <? 0) eqn:Hneg.
  - apply Z.ltb_lt in Hneg.
    destruct (decimal_spec (- n)) as (c & ds & Heq & _ & Hparse);
      [unfold minInt in *; lia|].
    simpl. rewrite Heq in *. rewrite Hparse.
    rewrite Z.opp_involutive.
    destruct Hn as [H1 H2]. apply Z.leb_le in H1, H2. now rewrite H1, H2.
  - apply Z.ltb_ge in Hneg.
    destruct (decimal_spec n) as (c & ds & Heq & [d Hd] & Hparse);
      [unfold minInt, maxInt in *; lia|].
    rewrite Heq in *. unfold Atoi.
    assert (Hm : Ascii.eqb c "-" = false).
    { apply Ascii.eqb_neq. intros ->. discriminate. }
    assert (Hp : Ascii.eqb c "+" = false).
    { apply Ascii.eqb_neq. intros ->. discriminate. }
    rewrite Hm, Hp. simpl orb. cbv iota. rewrite Hparse.
    destruct Hn as [H1 H2]. apply Z.leb_le in H1, H2. now rewrite H1, H2.
Qed.

Lemma Itoa_inj (n m : Z) : isInt n -> isInt m -> Itoa n = Itoa m -> n = m.
Proof.
  intros Hn Hm H. apply Atoi_Itoa in Hn, Hm. rewrite H in Hn. congruence.
Qed.

(** Two issues, and two comments of an issue, go to different files. *)
Lemma IssueJSONFile_inj (r : Root.t) (n m : Z) :
  isInt n -> isInt m ->
  Root.IssueJSONFile r n = Root.IssueJSONFile r m -> n = m.
Proof.
  unfold Root.IssueJSONFile, Join. intros Hn Hm H.
  apply app_inv_head in H. injection H as _ Hname.
  apply append_inj_r in Hname. now apply Itoa_inj.
Qed.

Lemma IssueCommentFile_inj (r : Root.t) (num a b : Z) :
  isInt a -> isInt b ->
  Root.IssueCommentFile r num a = Root.IssueCommentFile r num b -> a = b.
Proof.
  unfold Root.IssueCommentFile, Join. intros Ha Hb H.
  apply app_inv_head in H. injection H as Hname.
  apply append_inj_r in Hname.
  now apply Itoa_inj.
Qed.

Lemma NoDup_map_through {A B C} (f : A -> B) (g : A -> C) (l : list A) :
  (forall x y, In x l -> In y l -> g x = g y -> f x = f y) ->
  NoDup (map f l) -> NoDup (map g l).
Proof.
  induction l as [|x l IH]; intros Hinj Hnd; [constructor|].
  simpl in *. apply NoDup_cons_iff in Hnd as [Hx Hnd].
  apply NoDup_cons_iff. split.
  - intros Hin. apply in_map_iff in Hin as [y [Hy Hin]].
    apply Hx. rewrite (Hinj x y); auto. now apply in_map.
  - apply IH; auto.
Qed.

(** ** writeDiskJSON, step by step *)

Section WriteDiskJSON.

Variable json : JSON.

Lemma ensureNewline_inv (j0 : list byte) (e : error) :
  ensureNewline j0 = Err e -> j0 = [] /\ e = PanicIndex.
Proof.
  destruct j0 as [|b j0]; simpl.
  - intros H. inversion H. auto.
  - destruct (Byte.eqb _ _); discriminate.
Qed.

(** [ensureNewline] on the output of the encoder gives what the file is
    to hold. *)
Lemma ensureNewline_encoded val (j0 j : list byte) :
  MarshalIndent json val = Ok j0 -> ensureNewline j0 = Ok j ->
  encoded json val j.
Proof.
  intros Hm Hn. exists j0. split; [exact Hm|].
  destruct j0 as [|b j0]; [discriminate|]. split; [discriminate|].
  unfold ensureNewline in Hn.
  destruct (Byte.eqb (last (b :: j0) x00) x0a) eqn:E; inversion Hn; subst.
  - left. split; [now apply byte_dec_bl | reflexivity].
  - right. split; [|reflexivity]. intros Hl.
    apply byte_dec_lb in Hl. congruence.
Qed.

(** What is stored ends in a newline. *)
Lemma encoded_newline val (j : list byte) :
  encoded json val j -> last j x00 = x0a.
Proof.
  intros (j0 & _ & _ & [[Hl ->] | [_ ->]]); [exact Hl | apply last_last].
Qed.

Lemma writeDiskJSON_run file v val w r w' :
  writeDiskJSON json file v val w = (r, w') ->
  writeRun json file v val w r w'.
Proof.
  unfold writeDiskJSON, bind, gets, lift, ret. intros H.
  destruct (writeDecision (Stat (disk w) file) v) as [[ts|]|e] eqn:Ed.
  2:{ inversion H; subst. now constructor. }
  2:{ inversion H; subst. now constructor. }
  destruct (MarshalIndent json val) as [j0|e] eqn:Em.
  2:{ inversion H; subst. eapply RunMarshalFails; eauto. }
  destruct (ensureNewline j0) as [j|e] eqn:En.
  2:{ inversion H; subst. apply ensureNewline_inv in En as [-> ->].
      eapply RunEmptyJSON; eauto. }
  pose proof (ensureNewline_encoded _ _ _ Em En) as Henc.
  unfold onDisk, MkdirAll, WriteFile, Chtimes, emit, modify in H.
  simpl in H.
  destruct (mkdirAll (now (disk w)) (Dir file) (tree (disk w)))
    as [n1|e] eqn:E1; simpl in H.
  2:{ inversion H; subst. destruct w; simpl. eapply RunMkdirFails; eauto. }
  change (accepted (mkFS n1 (now (disk w)) (faults (disk w))) j)
    with (accepted (disk w) j) in H.
  change (writeFault (mkFS n1 (now (disk w)) (faults (disk w))))
    with (writeFault (disk w)) in H.
  destruct (writeFile (now (disk w)) (accepted (disk w) j) file n1)
    as [n2|e] eqn:E2; simpl in H.
  2:{ inversion H; subst. eapply RunWriteFails; eauto. }
  unfold accepted in E2.
  destruct (writeFault (disk w)) as [[k e0]|] eqn:Es; simpl in H.
  { inversion H; subst. eapply RunShortWrite; eauto. }
  destruct (chtimes ts ts file n2) as [n3|e] eqn:E3; simpl in H.
  2:{ inversion H; subst. eapply RunChtimesFails; eauto. }
  inversion H; subst. eapply RunWrote; eauto.
Qed.

End WriteDiskJSON.

(** In a proof about given bytes: what [encoded] says of them. *)
Ltac encoded_inv H :=
  let j0 := fresh "j0" in
  let Hm := fresh "Hm" in
  let Hl := fresh "Hl" in
  destruct H as (j0 & Hm & _ & [[Hl ->] | [Hl ->]]);
  vm_compute in Hm; inversion Hm; subst j0; clear Hm;
  [ try (vm_compute in Hl; discriminate Hl)
  | try (exfalso; apply Hl; vm_compute; reflexivity) ].

(** ** What a write leaves alone *)

Lemma diverge_nonempty (p q : path) : diverge p q -> p <> [] /\ q <> [].
Proof. intros H. inversion H; split; discriminate. Qed.

Lemma diverge_same_length (p : path) : forall q,
  List.length p = List.length q -> p <> q -> diverge p q.
Proof.
  induction p as [|a p IH]; intros [|b q] Hl Hne; try discriminate.
  - contradiction.
  - destruct (string_dec a b) as [->|Hab].
    + apply diverge_next. apply IH; [simpl in Hl; lia | congruence].
    + now apply diverge_here.
Qed.

Lemma lookup_other name c es m other (p : path) :
  other <> name ->
  lookup (Directory (insert name c es) m) (other :: p)
  = match find es other with
    | Some x => lookup x p
    | None => Err ENOENT
    end.
Proof. intros H. simpl. now rewrite find_insert_other. Qed.

Lemma writeFile_frame t data (p q : path) (Hd : diverge p q) : forall n n',
  writeFile t data q n = Ok n' -> lookup n' p = lookup n p.
Proof.
  induction Hd as [a b p q Hab | a p q Hd IH]; intros n n' H;
    (destruct n as [d m|es m|m]; simpl in H; try discriminate).
  - destruct (find es b) as [c|].
    + destruct (writeFile t data q c); inversion H; subst.
      now rewrite lookup_other.
    + destruct q; [|discriminate].
      destruct (writable m); inversion H; subst. now rewrite lookup_other.
  - destruct (find es a) as [c|] eqn:Ef.
    + destruct (writeFile t data q c) as [c'|] eqn:Ew; inversion H; subst.
      rewrite lookup_insert. simpl. rewrite Ef. now apply IH.
    + destruct q; [|discriminate].
      apply diverge_nonempty in Hd. now destruct Hd.
Qed.

Lemma chtimes_frame a_ mt (p q : path) (Hd : diverge p q) : forall n n',
  chtimes a_ mt q n = Ok n' -> lookup n' p = lookup n p.
Proof.
  induction Hd as [a b p q Hab | a p q Hd IH]; intros n n' H;
    (destruct n as [d m|es m|m]; simpl in H; try discriminate).
  - destruct (find es b) as [c|]; [|discriminate].
    destruct (chtimes a_ mt q c); inversion H; subst.
    now rewrite lookup_other.
  - destruct (find es a) as [c|] eqn:Ef; [|discriminate].
    destruct (chtimes a_ mt q c) as [c'|] eqn:Ew; inversion H; subst.
    rewrite lookup_insert. simpl. rewrite Ef. now apply IH.
Qed.

Lemma mkdirAll_frame t (p q : path) (Hd : diverge p q) : forall n n',
  mkdirAll t (removelast q) n = Ok n' -> lookup n' p = lookup n p.
Proof.
  induction Hd as [a b p q Hab | a p q Hd IH]; intros n n' H.
  - destruct q as [|y q].
    + simpl in H. destruct n; inversion H; reflexivity.
    + change (removelast (b :: y :: q)) with (b :: removelast (y :: q)) in H.
      destruct n as [d m|es m|m]; simpl in H; try discriminate.
      destruct (find es b) as [c|].
      * destruct (mkdirAll t _ c); inversion H; subst.
        now rewrite lookup_other.
      * destruct (writable m); [|discriminate].
        destruct (mkdirAll t _ _); inversion H; subst.
        now rewrite lookup_other.
  - destruct (diverge_nonempty _ _ Hd) as [Hp Hq].
    destruct q as [|y q]; [contradiction|].
    change (removelast (a :: y :: q)) with (a :: removelast (y :: q)) in H.
    destruct n as [d m|es m|m]; simpl in H; try discriminate.
    destruct (find es a) as [c|] eqn:Ef.
    + destruct (mkdirAll t _ c) as [c'|] eqn:Em; inversion H; subst.
      rewrite lookup_insert. simpl. rewrite Ef. now apply IH.
    + destruct (writable m); [|discriminate].
      destruct (mkdirAll t _ (Directory [] (newMeta t))) as [c'|] eqn:Em;
        inversion H; subst.
      rewrite lookup_insert. simpl. rewrite Ef.
      rewrite (IH _ _ Em). destruct p; [contradiction | reflexivity].
Qed.

(** A call of [writeDiskJSON], however it ends, leaves alone what is at
    any path that parts from the file's. *)
Lemma writeDiskJSON_frame json file v val w r w' (p : path) :
  diverge p file ->
  writeDiskJSON json file v val w = (r, w') ->
  nodeAt w' p = nodeAt w p.
Proof.
  intros Hd H. apply writeDiskJSON_run in H. unfold nodeAt.
  inversion H; subst; simpl; try reflexivity;
    repeat match goal with
           | Hc : chtimes _ _ _ _ = Ok _ |- _ =>
               rewrite (chtimes_frame _ _ _ _ Hd _ _ Hc); clear Hc
           | Hw : writeFile _ _ _ _ = Ok _ |- _ =>
               rewrite (writeFile_frame _ _ _ _ Hd _ _ Hw); clear Hw
           | Hm : mkdirAll _ _ _ = Ok _ |- _ =>
               rewrite (mkdirAll_frame _ _ _ Hd _ _ Hm); clear Hm
           end; reflexivity.
Qed.

Lemma NoDup_app_disjoint {A} (l1 l2 : list A) (a : A) :
  NoDup (l1 ++ l2) -> In a l1 -> In a l2 -> False.
Proof.
  induction l1 as [|x l1 IH]; intros Hnd H1 H2; [contradiction|].
  simpl in Hnd. apply NoDup_cons_iff in Hnd as [Hx Hnd].
  destruct H1 as [->|H1]; [|now apply IH].
  apply Hx. apply in_or_app. now right.
Qed.

Lemma upToDate_nodeAt w w' (p : path) u :
  nodeAt w' p = nodeAt w p -> upToDate (disk w') p u = upToDate (disk w) p u.
Proof. unfold nodeAt, upToDate, Stat. now intros ->. Qed.

Section WriteDiskJSONProperties.

Variable json : JSON.

Lemma lookup_parent (p : path) (x : string) : forall n c,
  lookup n (p ++ [x]) = Ok c -> exists es m, lookup n p = Ok (Directory es m).
Proof.
  induction p as [|name p IH]; intros n c H.
  - destruct n as [d m|es m|m]; simpl in H; try discriminate. simpl. eauto.
  - destruct n as [d m|es m|m]; simpl in H; try discriminate.
    simpl. destruct (find es name); [eauto | discriminate].
Qed.

Lemma lookup_Dir (file : path) : forall n d m,
  lookup n file = Ok (File d m) ->
  (exists es dm, lookup n (Dir file) = Ok (Directory es dm)) \/ file = [].
Proof.
  intros n d m H. destruct file as [|x file]; [now right|left].
  assert (Hne : x :: file <> []) by discriminate.
  rewrite (app_removelast_last EmptyString Hne) in H.
  exact (lookup_parent _ _ _ _ H).
Qed.

(** What a call that reports a write has done. *)
Lemma writeDiskJSON_wrote file v val w w' :
  writeDiskJSON json file v val w = (Ok true, w') ->
  exists ts j m,
    writeDecision (Stat (disk w) file) v = Ok (Some ts) /\
    encoded json val j /\
    nodeAt w' file = Ok (File j m) /\ modTime m = ts /\ accTime m = ts /\
    (exists es dm, nodeAt w' (Dir file) = Ok (Directory es dm)) /\
    trace w' = trace w ++ [LogWrote file].
Proof.
  intros H. apply writeDiskJSON_run in H. inversion H; subst.
  match goal with
  | Hmk : mkdirAll _ _ _ = Ok _, Hwf : writeFile _ _ _ _ = Ok _,
    Hch : chtimes _ _ _ _ = Ok _ |- _ =>
      destruct (writeFile_lookup _ _ _ _ _ Hwf) as [m0 [Hl2 _]];
      destruct (chtimes_lookup _ _ _ _ _ Hch) as [x [Hx Hl3]];
      rewrite Hl2 in Hx; inversion Hx; subst x; simpl in Hl3;
      exists ts, j, (mkMeta ts ts (writable m0) (owned m0));
      unfold nodeAt; simpl; repeat split; auto;
      destruct (lookup_Dir _ _ _ _ Hl3) as [Hd | Hnil]; [exact Hd|];
      exfalso; subst file; simpl in Hmk;
      destruct (tree (disk w)); try discriminate;
      inversion Hmk; subst n1; simpl in Hwf; discriminate
  end.
Qed.

(** A call that reports no write has not written. *)
Lemma writeDiskJSON_not_wrote file v val w w' :
  writeDiskJSON json file v val w = (Ok false, w') ->
  w' = w /\ writeDecision (Stat (disk w) file) v = Ok None.
Proof.
  intros H. apply writeDiskJSON_run in H. inversion H; subst. auto.
Qed.

(** With the zero version a call that returns no error has written. *)
Lemma writeDiskJSON_zero_wrote file val w wrote w' :
  writeDiskJSON json file zeroTime val w = (Ok wrote, w') -> wrote = true.
Proof.
  intros H. destruct wrote; [reflexivity|].
  apply writeDiskJSON_not_wrote in H as [_ H].
  unfold writeDecision in H. simpl in H.
  destruct (Stat (disk w) file); discriminate.
Qed.

Lemma writeDecision_nonzero st v :
  IsZero v = false ->
  writeDecision st v
  = match st with
    | Ok fi => if Equal (ModTime fi) v then Ok None else Ok (Some v)
    | Err _ => Ok (Some v)
    end.
Proof. intros H. unfold writeDecision. now rewrite H. Qed.



(** With the zero version: no file, no write; and a write keeps the
    modification time the file had. *)
Lemma writeDiskJSON_zero file val w :
  (forall e, Stat (disk w) file = Err e ->
             writeDiskJSON json file zeroTime val w = (Err e, w))
  /\
  (forall wrote w',
     writeDiskJSON json file zeroTime val w = (Ok wrote, w') ->
     wrote = true /\
     exists d0 m0 j m,
       nodeAt w file = Ok (File d0 m0) /\
       encoded json val j /\
       nodeAt w' file = Ok (File j m) /\
       modTime m = modTime m0).
Proof.
  split.
  - intros e He. unfold writeDiskJSON, bind, gets, lift, ret, writeDecision.
    simpl. now rewrite He.
  - intros wrote w' H. apply writeDiskJSON_run in H.
    inversion H; subst;
      match goal with
      | Hd : writeDecision _ _ = _ |- _ =>
          unfold writeDecision in Hd; simpl in Hd
      end;
      try (destruct (Stat (disk w') file); discriminate).
    split; [reflexivity|].
    match goal with
    | Hst : match Stat _ _ with _ => _ end = Ok (Some _),
      Hmk : mkdirAll _ _ _ = Ok _, Hwf : writeFile _ _ _ _ = Ok _,
      Hch : chtimes _ _ _ _ = Ok _ |- _ =>
        unfold Stat in Hst;
        destruct (lookup (tree (disk w)) file) as [x|] eqn:Hx;
          [|discriminate];
        inversion Hst; subst ts; clear Hst;
        pose proof (mkdirAll_lookup _ _ _ _ Hmk) as Hl1;
        destruct (chtimes_lookup _ _ _ _ _ Hch) as [y [Hy Hl3]];
        destruct (writeFile_prior _ _ _ _ _ Hwf)
          as [[Hno _] | (d0 & m0 & Hp & Hl2)]
    end.
    + rewrite Hl1, Hx in Hno. discriminate.
    + rewrite Hl1, Hx in Hp. inversion Hp; subst x.
      rewrite Hl2 in Hy. inversion Hy; subst y. simpl in Hl3.
      exists d0, m0, j,
        (mkMeta (modTime m0) (modTime m0) (writable m0) (owned m0)).
      unfold nodeAt. simpl. repeat split; auto.
Qed.

(** C6.  A call of [writeDiskJSON] with the zero version fails, changing
    nothing, when the file cannot be stat'ed (it does not exist); a call
    that succeeds has replaced the content of a file that was there by the
    new serialization, and the file's modification time is what it was
    before the call. *)
Theorem C6_writeDiskJSON_zero_version file val w :
  (forall e, Stat (disk w) file = Err e ->
             writeDiskJSON json file zeroTime val w = (Err e, w))
  /\
  (forall wrote w',
     writeDiskJSON json file zeroTime val w = (Ok wrote, w') ->
     wrote = true /\
     exists d0 m0 j m,
       nodeAt w file = Ok (File d0 m0) /\
       encoded json val j /\
       nodeAt w' file = Ok (File j m) /\
       modTime m = modTime m0).
Proof.
  destruct (writeDiskJSON_zero file val w) as [Hfail Hkeep].
  split.
  - intros e Hstat. now apply Hfail.
  - intros wrote w' Hrun. now apply Hkeep.
Qed.

(** C10, as the program has it.  A call of [writeDiskJSON] either reports
    no write and has left the world as it was; or reports a write and has
    stored the new content under the intended timestamp; or returns an
    error.  After an error the file's content and timestamps are what they
    were, with two exceptions, both after the file was opened, which
    truncates it.  When the write of the bytes, or the close after it,
    fails (no space left, an input/output error: the error is the one
    of the device, which accepts [k] bytes at most), the file holds the
    bytes that were accepted, the first [k] of the new content and maybe
    none, stamped with the time of the write; what it held is gone.
    When the timestamp assignment is refused after the bytes were
    written, the file holds the new content, stamped with the time of
    the write. *)
Theorem C10_writeDiskJSON_outcomes file v val w r w' :
  writeDiskJSON json file v val w = (r, w') ->
  match r with
  | Ok false => w' = w
  | Ok true =>
      exists j m,
        encoded json val j /\ nodeAt w' file = Ok (File j m) /\
        writeDecision (Stat (disk w) file) v = Ok (Some (modTime m))
  | Err e =>
      nodeAt w' file = nodeAt w file
      \/ (exists j k m,
            encoded json val j /\
            hd None (faults (disk w)) = Some (k, e) /\
            nodeAt w' file = Ok (File (firstn k j) m) /\
            modTime m = now (disk w))
      \/ (e = EPERM /\
          exists j d0 m0,
            encoded json val j /\
            nodeAt w file = Ok (File d0 m0) /\ owned m0 = false /\
            nodeAt w' file = Ok (File j (touch (now (disk w)) m0)))
  end.
Proof.
  intros H. destruct r as [[|]|e].
  - destruct (writeDiskJSON_wrote _ _ _ _ _ H)
      as (ts & j & m & Hd & Henc & Hn & Hm & _).
    exists j, m. subst ts. auto.
  - now apply writeDiskJSON_not_wrote in H.
  - apply writeDiskJSON_run in H. inversion H; subst; auto.
    + left. unfold nodeAt. simpl. eapply mkdirAll_lookup; eassumption.
    + right. left.
      match goal with
      | Hs : writeFault _ = Some _, Hwf : writeFile _ _ _ _ = Ok _ |- _ =>
          destruct (writeFile_lookup _ _ _ _ _ Hwf) as [m2 [Hl2 Ht]];
          pose proof Hs as Hf; unfold writeFault in Hf
      end.
      exists j, k, m2. unfold nodeAt. simpl. auto.
    + right. right.
      match goal with
      | Hmk : mkdirAll _ _ _ = Ok _, Hwf : writeFile _ _ _ _ = Ok _,
        Hch : chtimes _ _ _ _ = Err _ |- _ =>
          pose proof (mkdirAll_lookup _ _ _ _ Hmk) as Hl1;
          destruct (writeFile_lookup _ _ _ _ _ Hwf) as [m2 [Hl2 _]];
          destruct (chtimes_error _ _ _ _ _ _ Hch Hl2) as [-> Hown];
          destruct (writeFile_prior _ _ _ _ _ Hwf)
            as [[_ Hnew] | (d0 & m0 & Hp & Hl2')]
      end.
      * rewrite Hl2 in Hnew. inversion Hnew; subst m2. discriminate.
      * rewrite Hl2 in Hl2'. inversion Hl2'; subst m2.
        split; [reflexivity|].
        exists j, d0, m0. unfold nodeAt. simpl.
        rewrite <- Hl1. auto.
Qed.

End WriteDiskJSONProperties.

(** *** C1, C6 and C10 at work *)


Lemma C6_witness :
  (exists e,
     writeDiskJSON Example.codec Example.file42 zeroTime
                   (VIssue (Example.issue 42 4 0))
                   (Example.start Example.emptyDisk)
     = (Err e, Example.start Example.emptyDisk))
  /\
  exists w' j m,
    writeDiskJSON Example.codec Example.file42 zeroTime
                  (VIssue (Example.issue 42 4 0))
                  (Example.start Example.stored42)
    = (Ok true, w') /\
    nodeAt w' Example.file42 = Ok (File j m) /\ modTime m = 500 /\
    j <> Example.issueBytes 42 3 /\
    j = Example.bytesOf (VIssue (Example.issue 42 4 0)) /\
    last j x00 = x0a.
Proof.
  pose proof (C6_writeDiskJSON_zero_version Example.codec Example.file42
                (VIssue (Example.issue 42 4 0))
                (Example.start Example.emptyDisk)) as [Hfail _].
  pose proof (C6_writeDiskJSON_zero_version Example.codec Example.file42
                (VIssue (Example.issue 42 4 0))
                (Example.start Example.stored42)) as [_ Hkeep].
  split.
  - exists ENOENT. apply Hfail. reflexivity.
  - set (run := writeDiskJSON Example.codec Example.file42 zeroTime
                  (VIssue (Example.issue 42 4 0))
                  (Example.start Example.stored42)) in *.
    assert (Hrun : run = (Ok true, snd run)) by (vm_compute; reflexivity).
    destruct (Hkeep true (snd run) Hrun)
      as [_ (d0 & m0 & j & m & H0 & Henc & Hn & Hm)].
    exists (snd run), j, m. split; [exact Hrun|]. split; [exact Hn|].
    vm_compute in H0. inversion H0; subst d0 m0.
    split; [exact Hm|].
    split; [intros ->; vm_compute in Hn; discriminate|].
    encoded_inv Henc. split; vm_compute; reflexivity.
Defined.

Lemma C10_witness :
  (exists w',
     writeDiskJSON Example.codec Example.file42 600
                   (VIssue (Example.issue 42 4 600))
                   (Example.start Example.stored42)
     = (Ok true, w') /\
     exists j m, nodeAt w' Example.file42 = Ok (File j m) /\ modTime m = 600)
  /\
  (exists w' j k m,
     writeDiskJSON Example.codec Example.file42 600
                   (VIssue (Example.issue 42 4 600))
                   (Example.start Example.failing42)
     = (Err ENOSPC, w') /\
     k = 7%nat /\ j = Example.bytesOf (VIssue (Example.issue 42 4 600)) /\
     nodeAt w' Example.file42 = Ok (File (firstn k j) m) /\
     modTime m = 1000).
Proof.
  split.
  - set (run := writeDiskJSON Example.codec Example.file42 600
                  (VIssue (Example.issue 42 4 600))
                  (Example.start Example.stored42)).
    assert (Hrun : run = (Ok true, snd run)) by (vm_compute; reflexivity).
    exists (snd run). split; [exact Hrun|].
    destruct (C10_writeDiskJSON_outcomes Example.codec _ _ _ _ _ _ Hrun)
      as (j & m & _ & Hn & Hd).
    exists j, m. split; [exact Hn|].
    vm_compute in Hd. now inversion Hd.
  - set (run := writeDiskJSON Example.codec Example.file42 600
                  (VIssue (Example.issue 42 4 600))
                  (Example.start Example.failing42)).
    assert (Hrun : run = (Err ENOSPC, snd run)) by (vm_compute; reflexivity).
    destruct (C10_writeDiskJSON_outcomes Example.codec _ _ _ _ _ _ Hrun)
      as [Hsame | [(j & k & m & Henc & Hf & Hn & Hm) | (He & _)]].
    + vm_compute in Hsame. discriminate.
    + exists (snd run), j, k, m.
      assert (Hk : k = 7%nat) by (vm_compute in Hf; now inversion Hf).
      split; [exact Hrun|]. split; [exact Hk|].
      split; [encoded_inv Henc; vm_compute; reflexivity|]. auto.
    + discriminate He.
Defined.

(** C10 as stated fails.  On a file the process may write but does not
    own, the call returns an error after having replaced the content, and
    the modification time is the time of the write.  And on a device that
    fails after seven bytes the call returns an error and the file holds
    the first seven bytes of the new content: what it held is gone. *)
Lemma C10_counterexample :
  let w := Example.start Example.foreign42 in
  let run := writeDiskJSON Example.codec Example.file42 600
               (VIssue (Example.issue 42 4 600)) w in
  let w2 := Example.start Example.failing42 in
  let run2 := writeDiskJSON Example.codec Example.file42 600
                (VIssue (Example.issue 42 4 600)) w2 in
  (fst run = Err EPERM /\
   nodeAt w Example.file42
   = Ok (File (Example.issueBytes 42 3) (mkMeta 500 500 true false)) /\
   nodeAt (snd run) Example.file42
   = Ok (File (Example.bytesOf (VIssue (Example.issue 42 4 600)))
              (mkMeta 1000 500 true false)) /\
   Example.issueBytes 42 3
   <> Example.bytesOf (VIssue (Example.issue 42 4 600)))
  /\
  (fst run2 = Err ENOSPC /\
   nodeAt w2 Example.file42
   = Ok (File (Example.issueBytes 42 3) (mkMeta 500 500 true true)) /\
   nodeAt (snd run2) Example.file42
   = Ok (File (firstn 7 (Example.bytesOf (VIssue (Example.issue 42 4 600))))
              (mkMeta 1000 500 true true))).
Proof.
  vm_compute. repeat split. discriminate.
Qed.

(** ** The walks *)

Lemma walk_Directory {S} (walkFn : WalkFunc S) p es m s :
  walk walkFn p (Directory es m) s
  = match walkFn p (Some (infoOf (Directory es m))) None s with
    | (Err e, s1) => if isSkipDir e then (Ok tt, s1) else (Err e, s1)
    | (Ok _, s1) => walkEntries walkFn p es s1
    end.
Proof.
  simpl. destruct (walkFn p _ None s) as [[[]|e] s1]; [|reflexivity].
  generalize s1. clear s s1.
  induction es as [|[name c] es IH]; intros s; [reflexivity|].
  simpl. destruct (walk walkFn (p ++ [name]) c s) as [[[]|e] s'].
  - apply IH.
  - destruct (negb (IsDir (infoOf c)) || negb (isSkipDir e));
      [reflexivity | apply IH].
Qed.

Lemma walk_leaf {S} (walkFn : WalkFunc S) p n s :
  IsDir (infoOf n) = false ->
  walk walkFn p n s
  = match walkFn p (Some (infoOf n)) None s with
    | (Err e, s1) => (Err e, s1)
    | (Ok _, s1) => (Ok tt, s1)
    end.
Proof.
  intros Hd. destruct n as [d m|es m|m]; try discriminate; simpl;
    destruct (walkFn p _ None s) as [[[]|e] s1]; reflexivity.
Qed.

Lemma Base_snoc (p : path) (name : string) : Base (p ++ [name]) = name.
Proof. unfold Base. apply last_last. Qed.

Lemma snoc_neq (p : path) (name : string) : p ++ [name] <> p.
Proof.
  intros H. apply (f_equal (@List.length string)) in H.
  rewrite length_app in H. simpl in H. lia.
Qed.

(** The walk of [ForeachIssueComment] on one entry of the comments
    directory. *)
Lemma commentWalk_entry dir name c ids :
  walk (Root.commentWalkFn dir) (dir ++ [name]) c ids
  = match scanCommentEntry dir name c with
    | Err e => (Err e, ids)
    | Ok None => (Ok tt, ids)
    | Ok (Some id) => (Ok tt, ids ++ [id])
    end.
Proof.
  destruct c as [d m|es m|m].
  - rewrite walk_leaf by reflexivity.
    unfold Root.commentWalkFn, scanCommentEntry, bind, deref, ret, fail, modify.
    simpl. rewrite Base_snoc.
    destruct (HasPrefix name "comment-" && HasSuffix name ".json");
      [|reflexivity].
    destruct (Atoi _); reflexivity.
  - rewrite walk_Directory.
    unfold Root.commentWalkFn, scanCommentEntry, bind, deref, ret, fail.
    simpl. destruct (list_eq_dec string_dec (dir ++ [name]) dir) as [E|_].
    + now apply snoc_neq in E.
    + reflexivity.
  - rewrite walk_leaf by reflexivity. reflexivity.
Qed.

Lemma scanCommentEntry_error dir name c e :
  scanCommentEntry dir name c = Err e ->
  isSkipDir e = false /\ IsNotExist e = false.
Proof.
  intros Ee. destruct c; simpl in Ee; try discriminate.
  - destruct (_ && _); [|discriminate].
    destruct (Atoi _); inversion Ee; auto.
  - inversion Ee; auto.
Qed.

Lemma scanComments_error dir es : forall e,
  scanComments dir es = Err e -> IsNotExist e = false.
Proof.
  induction es as [|[name c] es IH]; intros e Es; [discriminate|].
  simpl in Es. destruct (scanCommentEntry dir name c) as [o|e'] eqn:Ee.
  - destruct (scanComments dir es) as [l|e'']; [discriminate|].
    inversion Es; subst. now apply IH.
  - inversion Es; subst. now apply scanCommentEntry_error in Ee.
Qed.

Lemma commentWalk_entries dir es : forall ids,
  match scanComments dir es with
  | Ok l => walkEntries (Root.commentWalkFn dir) dir es ids = (Ok tt, ids ++ l)
  | Err e => exists s,
      walkEntries (Root.commentWalkFn dir) dir es ids = (Err e, s)
  end.
Proof.
  induction es as [|[name c] es IH]; intros ids; simpl.
  - now rewrite app_nil_r.
  - rewrite commentWalk_entry.
    destruct (scanCommentEntry dir name c) as [[id|]|e] eqn:Ee.
    + specialize (IH (ids ++ [id])).
      destruct (scanComments dir es) as [l|e'].
      * rewrite IH. now rewrite <- app_assoc.
      * exact IH.
    + specialize (IH ids). destruct (scanComments dir es); exact IH.
    + destruct (scanCommentEntry_error _ _ _ _ Ee) as [He _].
      rewrite He. rewrite orb_true_r. eauto.
Qed.

(** [ForeachIssueComment] on a comments directory that is there: the
    entries are scanned, then the comments are loaded and handed over in
    the order of their identities. *)
Lemma ForeachIssueComment_scan json r num fn w es m :
  nodeAt w (Root.IssueCommentsDir r num) = Ok (Directory es m) ->
  Root.ForeachIssueComment json r num fn w
  = match scanComments (Root.IssueCommentsDir r num) es with
    | Err e => (Err e, w)
    | Ok ids =>
        forM (sortInts ids)
             (fun id => c <- Root.IssueComment json r num id ;; fn c) w
    end.
Proof.
  unfold nodeAt. intros Hn. unfold Root.ForeachIssueComment, Walk.
  rewrite Hn. rewrite walk_Directory.
  set (dir := Root.IssueCommentsDir r num).
  assert (Hroot : Root.commentWalkFn dir dir
                    (Some (infoOf (Directory es m))) None []
                  = (Ok tt, [])).
  { unfold Root.commentWalkFn, bind, deref, ret. simpl.
    destruct (list_eq_dec string_dec dir dir); [reflexivity|congruence]. }
  rewrite Hroot.
  pose proof (commentWalk_entries dir es []) as H.
  destruct (scanComments dir es) as [l|e] eqn:Es.
  - rewrite H. reflexivity.
  - destruct H as [s H]. rewrite H.
    rewrite (scanComments_error _ _ _ Es). reflexivity.
Qed.

(** ** The two enumerations *)

Lemma yielded_app (tr1 tr2 : list event) :
  yielded (tr1 ++ tr2) = yielded tr1 ++ yielded tr2.
Proof.
  induction tr1 as [|e tr1 IH]; [reflexivity|].
  destruct e; simpl; now rewrite IH.
Qed.

Lemma sortInts_length (xs : list Z) :
  List.length (sortInts xs) = List.length xs.
Proof.
  symmetry. apply Permutation_length. apply ZSort.Permuted_sort.
Qed.

Section Enumerations.

Variable json : JSON.
Variable r : Root.t.

(** Handing the comments of a list of identities to [noteComment] notes
    one record for each. *)
Lemma forM_noteComment num (ids : list Z) : forall w w',
  forM ids (fun id => c <- Root.IssueComment json r num id ;; noteComment c) w
  = (Ok tt, w') ->
  exists ys,
    yielded (trace w') = yielded (trace w) ++ ys /\
    List.length ys = List.length ids.
Proof.
  induction ids as [|id ids IH]; intros w w' H.
  - inversion H; subst. exists []. now rewrite app_nil_r.
  - simpl in H. unfold bind at 1 2 in H. unfold Root.IssueComment in H.
    destruct (ReadFile (disk w) _) as [slurp|e]; [|discriminate].
    destruct (UnmarshalComment json slurp) as [c|e]; [|discriminate].
    unfold noteComment, emit, modify in H.
    apply IH in H as [ys [Hy Hl]]. simpl in Hy.
    rewrite yielded_app in Hy. simpl in Hy.
    exists (commentID c :: ys). rewrite Hy, <- app_assoc. simpl.
    split; [reflexivity | now rewrite Hl].
Qed.

Lemma scanComments_all dir (es : list (string * node)) :
  (forall name c, In (name, c) es ->
     exists d fm, c = File d fm /\ commentFileName name = true) ->
  exists ids, scanComments dir es = Ok ids /\
              List.length ids = List.length es.
Proof.
  induction es as [|[name c] es IH]; intros Hall.
  - exists []. auto.
  - destruct (Hall name c (or_introl eq_refl)) as (d & fm & -> & Hn).
    destruct IH as [ids [Hs Hl]].
    { intros n' c' Hin. apply Hall. now right. }
    unfold commentFileName in Hn. simpl. rewrite Hs.
    destruct (HasPrefix name "comment-" && HasSuffix name ".json");
      [|discriminate].
    destruct (Atoi _) as [id|]; [|discriminate].
    exists (id :: ids). simpl. now rewrite Hl.
Qed.

(** C4, as the program has it.  [NumComments] is the number of comments
    [ForeachIssueComment] hands over when the comments directory holds
    nothing but regular files named comment-<integer>.json and the
    enumeration succeeds, and when the directory is absent while the
    issue's own file is there (both are zero then). *)
Theorem C4_NumComments_counts_yields num w :
  (forall es m w',
     nodeAt w (Root.IssueCommentsDir r num) = Ok (Directory es m) ->
     (forall name c, In (name, c) es ->
        exists d fm, c = File d fm /\ commentFileName name = true) ->
     Root.ForeachIssueComment json r num noteComment w = (Ok tt, w') ->
     exists ys,
       yielded (trace w') = yielded (trace w) ++ ys /\
       Root.NumComments r num w = (Ok (Z.of_nat (List.length ys)), w))
  /\
  (forall fi,
     nodeAt w (Root.IssueCommentsDir r num) = Err ENOENT ->
     Stat (disk w) (Root.IssueJSONFile r num) = Ok fi ->
     Root.ForeachIssueComment json r num noteComment w = (Ok tt, w) /\
     Root.NumComments r num w = (Ok 0, w)).
Proof.
  split.
  - intros es m w' Hdir Hall Hrun.
    rewrite (ForeachIssueComment_scan _ _ _ _ _ _ _ Hdir) in Hrun.
    destruct (scanComments_all (Root.IssueCommentsDir r num) es Hall)
      as [ids [Hs Hl]].
    rewrite Hs in Hrun.
    apply forM_noteComment in Hrun as [ys [Hy Hlen]].
    exists ys. split; [exact Hy|].
    unfold Root.NumComments, Open. unfold nodeAt in Hdir.
    rewrite Hdir. simpl. rewrite length_map.
    rewrite Hlen, sortInts_length, Hl. reflexivity.
  - intros fi Hdir Hst. unfold nodeAt in Hdir. split.
    + unfold Root.ForeachIssueComment, Walk. rewrite Hdir. reflexivity.
    + unfold Root.NumComments, Open. rewrite Hdir. simpl.
      now rewrite Hst.
Qed.

(** C9, as the program has it.  In a comments directory a regular file
    named comment-....json whose middle part is no integer makes
    [ForeachIssueComment] fail, before any comment is handed over; a
    regular file whose name lacks the prefix or the suffix is passed over
    by the walk, and a directory of nothing but such files is enumerated
    without error and without a single call of [fn]. *)
Theorem C9_ForeachIssueComment_names num fn w es m
  (Hdir : nodeAt w (Root.IssueCommentsDir r num) = Ok (Directory es m)) :
  (forall name d fm,
     In (name, File d fm) es ->
     HasPrefix name "comment-" = true -> HasSuffix name ".json" = true ->
     Atoi (TrimPrefix (TrimSuffix name ".json") "comment-") = None ->
     exists e, Root.ForeachIssueComment json r num fn w = (Err e, w))
  /\
  (forall name d fm ids,
     HasPrefix name "comment-" && HasSuffix name ".json" = false ->
     Root.commentWalkFn (Root.IssueCommentsDir r num)
       (Root.IssueCommentsDir r num ++ [name])
       (Some (infoOf (File d fm))) None ids
     = (Ok tt, ids))
  /\
  ((forall name c, In (name, c) es ->
      exists d fm, c = File d fm /\
        HasPrefix name "comment-" && HasSuffix name ".json" = false) ->
   Root.ForeachIssueComment json r num fn w = (Ok tt, w)).
Proof.
  rewrite (ForeachIssueComment_scan _ _ _ _ _ _ _ Hdir).
  set (dir := Root.IssueCommentsDir r num). repeat split.
  - intros name d fm Hin Hp Hs Ha.
    assert (He : exists e, scanComments dir es = Err e).
    { clear Hdir. induction es as [|[n' c'] es' IH]; [contradiction|].
      simpl. destruct (scanCommentEntry dir n' c') as [o|e] eqn:Ee; [|eauto].
      destruct Hin as [Heq|Hin].
      - inversion Heq; subst. simpl in Ee. rewrite Hp, Hs, Ha in Ee.
        discriminate.
      - destruct (IH Hin) as [e He]. rewrite He. eauto. }
    destruct He as [e He]. rewrite He. eauto.
  - intros name d fm ids Hn.
    unfold Root.commentWalkFn, bind, deref, ret. simpl.
    rewrite Base_snoc, Hn. reflexivity.
  - intros Hall.
    assert (Hs : scanComments dir es = Ok []).
    { clear Hdir. induction es as [|[n' c'] es' IH]; [reflexivity|].
      destruct (Hall n' c' (or_introl eq_refl)) as (d & fm & -> & Hn).
      simpl. rewrite Hn. rewrite IH; [reflexivity|].
      intros n2 c2 Hin. apply Hall. now right. }
    rewrite Hs. reflexivity.
Qed.

End Enumerations.

(** C8, as the program has it.  In the walk of [ForeachIssue] a directory
    is never an error: one whose path below the issues directory is
    longer than three bytes is skipped with all it contains, whatever
    that is, and any other is entered. *)
Theorem C8_ForeachIssue_directories issueDir p es m nums :
  ((3 < String.length (Rel issueDir p))%nat ->
   Root.issueWalkFn issueDir p (Some (infoOf (Directory es m))) None nums
   = (Err SkipDir, nums) /\
   walk (Root.issueWalkFn issueDir) p (Directory es m) nums = (Ok tt, nums))
  /\
  ((String.length (Rel issueDir p) <= 3)%nat ->
   Root.issueWalkFn issueDir p (Some (infoOf (Directory es m))) None nums
   = (Ok tt, nums)).
Proof.
  split; intros Hlen.
  - assert (Hfn : Root.issueWalkFn issueDir p
                    (Some (infoOf (Directory es m))) None nums
                  = (Err SkipDir, nums)).
    { unfold Root.issueWalkFn, bind, deref, ret, fail. simpl.
      apply Nat.ltb_lt in Hlen. now rewrite Hlen. }
    split; [exact Hfn|]. rewrite walk_Directory, Hfn. reflexivity.
  - unfold Root.issueWalkFn, bind, deref, ret, fail. simpl.
    apply Nat.ltb_ge in Hlen. now rewrite Hlen.
Qed.

(** *** C4, C8 and C9 at work *)

Lemma C4_witness :
  let w := Example.start Example.twoComments in
  Root.NumComments Example.root 42 w = (Ok 2, w) /\
  yielded (trace (snd (Root.ForeachIssueComment Example.codec Example.root 42
                         noteComment w)))
  = [Some 1; Some 2].
Proof.
  intros w.
  set (run := Root.ForeachIssueComment Example.codec Example.root 42
                noteComment w).
  assert (Hrun : run = (Ok tt, snd run)) by (vm_compute; reflexivity).
  assert (Hy : yielded (trace (snd run)) = [Some 1; Some 2])
    by (vm_compute; reflexivity).
  split; [|exact Hy].
  destruct (proj1 (C4_NumComments_counts_yields Example.codec Example.root
                     42 w)
                  _ _ (snd run) eq_refl) as [ys [Hys Hn]].
  - intros name c [H|[H|[]]]; inversion H; subst; eexists; eexists;
      split; reflexivity.
  - exact Hrun.
  - rewrite Hy in Hys. simpl in Hys. subst ys. exact Hn.
Defined.

(** C4 as stated fails: with a file of another name beside the one
    comment, [NumComments] is 2 and one comment is handed over. *)
Lemma C4_counterexample :
  let w := Example.start Example.withNotes in
  let run := Root.ForeachIssueComment Example.codec Example.root 42
               noteComment w in
  Root.NumComments Example.root 42 w = (Ok 2, w) /\
  fst run = Ok tt /\
  yielded (trace (snd run)) = [Some 1].
Proof. vm_compute. repeat split. Qed.

Lemma C9_witness :
  (exists e,
     Root.ForeachIssueComment Example.codec Example.root 42 noteComment
       (Example.start Example.badName)
     = (Err e, Example.start Example.badName))
  /\
  Root.commentWalkFn (Root.IssueCommentsDir Example.root 42)
    (Root.IssueCommentsDir Example.root 42 ++ ["notes.txt"])
    (Some (infoOf (Example.file 60 []))) None [1]
  = (Ok tt, [1]).
Proof.
  split.
  - apply (proj1 (C9_ForeachIssueComment_names Example.codec Example.root 42
                    noteComment (Example.start Example.badName) _ _ eq_refl)
                 "comment-x.json" (Example.commentBytes 2) (newMeta 60));
      [simpl; auto | reflexivity | reflexivity | reflexivity].
  - apply (proj1 (proj2 (C9_ForeachIssueComment_names Example.codec
                           Example.root 42 noteComment
                           (Example.start Example.badName) _ _ eq_refl))).
    reflexivity.
Defined.

(** C9 as stated fails: the file notes.txt in the comments directory is
    passed over, the enumeration succeeds and hands over the one comment. *)
Lemma C9_counterexample :
  let w := Example.start Example.withNotes in
  let run := Root.ForeachIssueComment Example.codec Example.root 42
               noteComment w in
  nodeAt w (Root.IssueCommentsDir Example.root 42 ++ ["notes.txt"])
  = Ok (Example.file 60 []) /\
  fst run = Ok tt /\
  yielded (trace (snd run)) = [Some 1].
Proof. vm_compute. repeat split. Qed.

Lemma C8_witness :
  walk (Root.issueWalkFn ["mirror"; "issues"])
       ["mirror"; "issues"; "042"; "42.comments"]
       (Example.dir 10 [("deeper", Example.dir 10 [])]) [42]
  = (Ok tt, [42]).
Proof.
  apply (proj1 (C8_ForeachIssue_directories ["mirror"; "issues"]
                  ["mirror"; "issues"; "042"; "42.comments"]
                  [("deeper", Example.dir 10 [])] (newMeta 10) [42])).
  apply Nat.ltb_lt. reflexivity.
Defined.

(** C8 as stated fails: the comments directory of issue 42, and the
    directory inside it, lie deeper than the shard directories, and
    [ForeachIssue] succeeds and hands over issue 42. *)
Lemma C8_counterexample :
  let w := Example.start Example.nested in
  let run := Root.ForeachIssue Example.codec Example.root noteIssue w in
  (exists es m,
     nodeAt w ["mirror"; "issues"; "042"; "42.comments"; "deeper"]
     = Ok (Directory es m)) /\
  fst run = Ok tt /\
  yielded (trace (snd run)) = [Some 42].
Proof.
  vm_compute. repeat split. eexists. eexists. reflexivity.
Qed.

(** ** The first pass: pages of issues *)

Lemma issuePagesRequested_app (tr1 tr2 : list event) :
  issuePagesRequested (tr1 ++ tr2)
  = issuePagesRequested tr1 ++ issuePagesRequested tr2.
Proof.
  induction tr1 as [|e tr1 IH]; [reflexivity|].
  destruct e; simpl; now rewrite IH.
Qed.

Lemma commentPagesRequested_app (tr1 tr2 : list event) :
  commentPagesRequested (tr1 ++ tr2)
  = commentPagesRequested tr1 ++ commentPagesRequested tr2.
Proof.
  induction tr1 as [|e tr1 IH]; [reflexivity|].
  destruct e; simpl; now rewrite IH.
Qed.

Lemma observe_LogWrote (files : list path) :
  issuePagesRequested (map LogWrote files) = [] /\
  commentPagesRequested (map LogWrote files) = [].
Proof. induction files as [|f files [IH1 IH2]]; simpl; auto. Qed.

Lemma cleanIssue_keeps (is_ : Issue) :
  issueNumber (fst (cleanIssue is_)) = issueNumber is_ /\
  issueComments (fst (cleanIssue is_)) = issueComments is_.
Proof.
  unfold cleanIssue.
  repeat match goal with
         | |- context [let '(_, _) := ?x in _] => destruct x
         end.
  split; reflexivity.
Qed.

Lemma cleanIssue_keeps_version (is_ : Issue) :
  issueUpdatedAt (fst (cleanIssue is_)) = issueUpdatedAt is_.
Proof.
  unfold cleanIssue.
  repeat match goal with
         | |- context [let '(_, _) := ?x in _] => destruct x
         end.
  reflexivity.
Qed.

Lemma existsb_agree {A} (f g : A -> bool) (l : list A) :
  (forall x, In x l -> f x = g x) -> existsb f l = existsb g l.
Proof.
  induction l as [|x l IH]; intros H; [reflexivity|].
  simpl. rewrite (H x (or_introl eq_refl)), IH; [reflexivity|].
  intros y Hy. apply H. now right.
Qed.

Section FirstPass.

Variable json : JSON.
Variable client : Client.
Variable root : Root.t.

(** The one trace of a call of [writeDiskJSON]: the file, when and only
    when the call reports a write. *)
Lemma writeDiskJSON_trace file v val w r w' :
  writeDiskJSON json file v val w = (r, w') ->
  trace w' = trace w ++ match r with
                        | Ok true => [LogWrote file]
                        | _ => []
                        end.
Proof.
  intros H. apply writeDiskJSON_run in H.
  inversion H; subst; simpl; now rewrite ?app_nil_r.
Qed.

(** The loop over the issues of a page logs the files it writes and
    nothing else, and raises [keepGoing] when and only when it wrote one. *)
Lemma syncPage_trace (issues : list Issue) : forall keepGoing w r w',
  syncPage json root issues keepGoing w = (r, w') ->
  exists files,
    trace w' = trace w ++ map LogWrote files /\
    forall kg, r = Ok kg -> kg = keepGoing || negb (noFile files).
Proof.
  induction issues as [|is_ issues IH]; intros keepGoing w r w' H.
  - inversion H; subst. exists []. simpl. rewrite app_nil_r. split; auto.
    intros kg Hk. inversion Hk. now rewrite orb_false_r.
  - simpl in H. destruct (cleanIssue is_) as [is' c].
    unfold bind at 1 in H. unfold deref in H.
    destruct (issueNumber is') as [num|].
    2:{ inversion H; subst. exists []. simpl. rewrite app_nil_r.
        split; [reflexivity | discriminate]. }
    unfold ret at 1 in H. unfold bind at 1 in H.
    destruct (issueUpdatedAt is') as [u|].
    2:{ inversion H; subst. exists []. simpl. rewrite app_nil_r.
        split; [reflexivity | discriminate]. }
    unfold ret at 1 in H. unfold bind at 1 in H.
    destruct (writeDiskJSON json (Root.IssueJSONFile root num) u
                (VIssue is') w) as [[wrote|e] w1] eqn:Ew.
    + pose proof (writeDiskJSON_trace _ _ _ _ _ _ Ew) as Ht.
      apply IH in H as [files [Hf Hk]].
      destruct wrote.
      * exists (Root.IssueJSONFile root num :: files). split.
        -- rewrite Hf, Ht, <- app_assoc. reflexivity.
        -- intros kg Hr. rewrite (Hk kg Hr). simpl. now rewrite orb_true_r.
      * exists files. split.
        -- rewrite Hf, Ht, app_nil_r. reflexivity.
        -- exact Hk.
    + pose proof (writeDiskJSON_trace _ _ _ _ _ _ Ew) as Ht.
      inversion H; subst. exists []. simpl. rewrite Ht.
      split; [reflexivity | discriminate].
Qed.

Lemma fetchPage_trace page w r w' :
  fetchPage json client root page w = (r, w') ->
  exists files,
    trace w' = trace w
               ++ CallListByRepo "golang" "go" (issueListOptions page)
               :: map LogWrote files /\
    forall kg, r = Ok kg -> kg = negb (noFile files).
Proof.
  unfold fetchPage, bind, emit, modify, lift. simpl.
  destruct (ListByRepo client "golang" "go" (issueListOptions page))
    as [[issues resp]|e].
  - intros H. apply syncPage_trace in H as [files [Hf Hk]].
    exists files. simpl in Hf. rewrite Hf, <- app_assoc. split; auto.
  - intros H. inversion H; subst. exists []. simpl.
    split; [reflexivity | discriminate].
Qed.

Lemma fetchPage_pages page w r w' :
  fetchPage json client root page w = (r, w') ->
  issuePagesRequested (trace w') = issuePagesRequested (trace w) ++ [page].
Proof.
  intros H. apply fetchPage_trace in H as [files [Hf _]].
  rewrite Hf, issuePagesRequested_app. simpl.
  now rewrite (proj1 (observe_LogWrote files)).
Qed.

Lemma afterPages_pages (n : nat) : forall page w,
  issuePagesRequested (trace (afterPages json client root n page w))
  = issuePagesRequested (trace w) ++ pagesFrom n page.
Proof.
  induction n as [|n IH]; intros page w; simpl.
  - now rewrite app_nil_r.
  - rewrite IH.
    destruct (fetchPage json client root page w) as [r w1] eqn:E.
    simpl snd.
    rewrite (fetchPage_pages _ _ _ _ E), <- app_assoc. reflexivity.
Qed.

(** When each of the next [k] pages leads to a write and the page after
    them to none, the loop ends after that page. *)
Lemma syncIssues_stops (k : nat) : forall page w,
  (forall i, (i < k)%nat ->
     fst (fetchPage json client root (page + Z.of_nat i)
            (afterPages json client root i page w)) = Ok true) ->
  fst (fetchPage json client root (page + Z.of_nat k)
         (afterPages json client root k page w)) = Ok false ->
  forall fuel, (k < fuel)%nat ->
    syncIssues json client root fuel page w
    = (Ok tt, afterPages json client root (S k) page w).
Proof.
  induction k as [|k IH]; intros page w Hpre Hlast fuel Hfuel;
    (destruct fuel as [|fuel]; [lia|]); simpl syncIssues; unfold bind.
  - simpl in Hlast. rewrite Z.add_0_r in Hlast. simpl.
    destruct (fetchPage json client root page w) as [r w1].
    simpl in Hlast. subst r. reflexivity.
  - pose proof (Hpre 0%nat ltac:(lia)) as H0. simpl in H0.
    rewrite Z.add_0_r in H0.
    change (afterPages json client root (S (S k)) page w)
      with (afterPages json client root (S k) (page + 1)
              (snd (fetchPage json client root page w))).
    destruct (fetchPage json client root page w) as [r w1] eqn:E.
    simpl in H0. subst r. simpl snd.
    apply IH; [| |lia].
    + intros i Hi. specialize (Hpre (S i) ltac:(lia)).
      simpl afterPages in Hpre. rewrite E in Hpre. simpl snd in Hpre.
      replace (page + 1 + Z.of_nat i) with (page + Z.of_nat (S i)) by lia.
      exact Hpre.
    + simpl afterPages in Hlast. rewrite E in Hlast. simpl snd in Hlast.
      replace (page + 1 + Z.of_nat k) with (page + Z.of_nat (S k)) by lia.
      exact Hlast.
Qed.

(** With a non-zero version, a call that returns no error has written
    when and only when the disk lacked that version. *)
Lemma writeDiskJSON_wrote_iff file v val w wrote w' :
  IsZero v = false ->
  writeDiskJSON json file v val w = (Ok wrote, w') ->
  wrote = negb (upToDate (disk w) file v).
Proof.
  intros Hv H. unfold upToDate. destruct wrote.
  - destruct (writeDiskJSON_wrote _ _ _ _ _ _ H) as (ts & j & m & Hd & _).
    rewrite writeDecision_nonzero in Hd by exact Hv.
    destruct (Stat (disk w) file) as [fi|]; [|reflexivity].
    destruct (Equal (ModTime fi) v); [discriminate | reflexivity].
  - apply writeDiskJSON_not_wrote in H as [_ Hd].
    rewrite writeDecision_nonzero in Hd by exact Hv.
    destruct (Stat (disk w) file) as [fi|]; [|discriminate].
    destruct (Equal (ModTime fi) v); [reflexivity | discriminate].
Qed.

Lemma issueFile_length num :
  List.length (Root.IssueJSONFile root num) = (List.length root + 3)%nat.
Proof. unfold Root.IssueJSONFile, Join. now rewrite length_app. Qed.

Lemma issueFileOf_diverge is1 is2 :
  issueFileOf root is1 <> issueFileOf root is2 ->
  diverge (issueFileOf root is1) (issueFileOf root is2).
Proof.
  intros H. apply diverge_same_length; [|exact H].
  unfold issueFileOf. now rewrite !issueFile_length.
Qed.

(** An issue whose file parts from the file of every issue written keeps
    its state of being changed or not. *)
Lemma changed_frame w w' (is_ : Issue) :
  nodeAt w' (issueFileOf root is_) = nodeAt w (issueFileOf root is_) ->
  changed root (disk w') is_ = changed root (disk w) is_.
Proof.
  intros H. unfold changed. destruct (issueUpdatedAt is_); [|reflexivity].
  now rewrite (upToDate_nodeAt w w' _ _ H).
Qed.

(** Well-formed issues of different numbers go to different files. *)
Lemma distinct_issue_files (l : list Issue) :
  Forall wellFormed l ->
  NoDup (map issueNumber l) -> NoDup (map (issueFileOf root) l).
Proof.
  intros Hwf. apply NoDup_map_through. intros x y Hx Hy Hf.
  rewrite Forall_forall in Hwf.
  destruct (Hwf x Hx) as [[n [Hn Hin]] _].
  destruct (Hwf y Hy) as [[m [Hm Him]] _].
  unfold issueFileOf in Hf. rewrite Hn, Hm in *.
  f_equal. eapply IssueJSONFile_inj; eauto.
Qed.

(** The loop over a page of well-formed issues, no two of them going to
    the same file: [keepGoing] is raised when and only when the disk
    lacked the version of one of them, and what is at a path that parts
    from the files of these issues is left alone. *)
Lemma syncPage_static (issues : list Issue) : forall keepGoing w r w',
  syncPage json root issues keepGoing w = (r, w') ->
  Forall wellFormed issues ->
  NoDup (map (issueFileOf root) issues) ->
  (forall kg, r = Ok kg ->
              kg = keepGoing || existsb (changed root (disk w)) issues) /\
  (forall p, (forall is_, In is_ issues -> diverge p (issueFileOf root is_)) ->
             nodeAt w' p = nodeAt w p).
Proof.
  induction issues as [|is0 issues IH]; intros keepGoing w r w' H Hwf Hnd.
  - inversion H; subst. split; [|reflexivity].
    intros kg Hk. inversion Hk. simpl. now rewrite orb_false_r.
  - apply Forall_cons_iff in Hwf as [[[num [Hnum _]] [u [Hu Hz]]] Hwf].
    simpl in Hnd. apply NoDup_cons_iff in Hnd as [Hfresh Hnd].
    simpl in H.
    destruct (cleanIssue_keeps is0) as [Hkn _].
    pose proof (cleanIssue_keeps_version is0) as Hkv.
    destruct (cleanIssue is0) as [is' c]. simpl in Hkn, Hkv.
    unfold bind at 1 2 in H. unfold deref, ret in H.
    rewrite Hkn, Hnum, Hkv, Hu in H. unfold bind at 1 in H.
    assert (Hfile : issueFileOf root is0 = Root.IssueJSONFile root num).
    { unfold issueFileOf. now rewrite Hnum. }
    destruct (writeDiskJSON json (Root.IssueJSONFile root num) u
                (VIssue is') w) as [[wrote|e] w1] eqn:Ew.
    + assert (Hframe1 : forall is_, In is_ issues ->
                nodeAt w1 (issueFileOf root is_)
                = nodeAt w (issueFileOf root is_)).
      { intros is_ Hin. eapply writeDiskJSON_frame; [|exact Ew].
        rewrite <- Hfile. apply issueFileOf_diverge.
        intros Heq. apply Hfresh. rewrite <- Heq. now apply in_map. }
      destruct (IH _ _ _ _ H Hwf Hnd) as [Hkg Hfr]. split.
      * intros kg Hk. rewrite (Hkg kg Hk).
        rewrite (existsb_agree (changed root (disk w1))
                               (changed root (disk w))).
        2:{ intros is_ Hin. apply changed_frame. now apply Hframe1. }
        simpl. unfold changed at 2. rewrite Hu, Hfile.
        rewrite <- (writeDiskJSON_wrote_iff _ _ _ _ _ _ Hz Ew).
        destruct wrote, keepGoing; reflexivity.
      * intros p Hp. rewrite (Hfr p (fun i Hi => Hp i (or_intror Hi))).
        eapply writeDiskJSON_frame; [|exact Ew].
        rewrite <- Hfile. apply Hp. now left.
    + inversion H; subst. split; [discriminate|].
      intros p Hp. eapply writeDiskJSON_frame; [|exact Ew].
      rewrite <- Hfile. apply Hp. now left.
Qed.

Lemma fetchPage_static page w r w' :
  (exists a, ListByRepo client "golang" "go" (issueListOptions page) = Ok a) ->
  Forall wellFormed (pageIssues client page) ->
  NoDup (map (issueFileOf root) (pageIssues client page)) ->
  fetchPage json client root page w = (r, w') ->
  (forall kg, r = Ok kg ->
              kg = existsb (changed root (disk w)) (pageIssues client page)) /\
  (forall p, (forall is_, In is_ (pageIssues client page) ->
                          diverge p (issueFileOf root is_)) ->
             nodeAt w' p = nodeAt w p).
Proof.
  unfold pageIssues, fetchPage, bind, emit, modify, lift. simpl.
  intros [[issues resp] Ha]. rewrite Ha. simpl. intros Hwf Hnd H.
  destruct (syncPage_static _ _ _ _ _ H Hwf Hnd) as [Hkg Hfr].
  split; [exact Hkg | exact Hfr].
Qed.

(** All the issues of [n] pages, the first of them [page]. *)
Lemma feed_cons (n : nat) (page : Z) :
  List.concat (map (pageIssues client) (pagesFrom (S n) page))
  = pageIssues client page
    ++ List.concat (map (pageIssues client) (pagesFrom n (page + 1))).
Proof. reflexivity. Qed.

Lemma in_feed (i : nat) : forall n q is_,
  (i < n)%nat ->
  In is_ (pageIssues client (q + Z.of_nat i)) ->
  In is_ (List.concat (map (pageIssues client) (pagesFrom n q))).
Proof.
  induction i as [|i IHi]; intros n q is_ Hn Hin;
    (destruct n as [|n]; [lia|]); rewrite feed_cons; apply in_or_app.
  - left. simpl in Hin. now rewrite Z.add_0_r in Hin.
  - right. apply IHi; [lia|].
    replace (q + 1 + Z.of_nat i) with (q + Z.of_nat (S i)) by lia.
    exact Hin.
Qed.

(** The loop over the pages of a feed of well-formed issues, no two of
    them going to the same file: when the disk lacks the version of an
    issue on each of the next [k] pages and of none on the page after
    them, the loop requests these [k + 1] pages and stops by itself, or
    stops earlier on an error; it never requests a page beyond. *)
Lemma syncIssues_static (k : nat) : forall page w,
  (forall i, (i <= k)%nat ->
     exists a, ListByRepo client "golang" "go"
                 (issueListOptions (page + Z.of_nat i)) = Ok a) ->
  Forall wellFormed
         (List.concat (map (pageIssues client) (pagesFrom (S k) page))) ->
  NoDup (map (issueFileOf root)
             (List.concat (map (pageIssues client) (pagesFrom (S k) page)))) ->
  (forall i, (i < k)%nat ->
     existsb (changed root (disk w))
             (pageIssues client (page + Z.of_nat i)) = true) ->
  existsb (changed root (disk w))
          (pageIssues client (page + Z.of_nat k)) = false ->
  forall fuel r w', (k < fuel)%nat ->
    syncIssues json client root fuel page w = (r, w') ->
    exists n,
      (n <= S k)%nat /\
      issuePagesRequested (trace w')
      = issuePagesRequested (trace w) ++ pagesFrom n page /\
      (r = Ok tt -> n = S k) /\
      syncIssues json client root (S k) page w = (r, w').
Proof.
  induction k as [|k IH]; intros page w Hans Hwf Hnd Hpre Hlast fuel r w'
    Hfuel H; (destruct fuel as [|fuel]; [lia|]);
    rewrite feed_cons in Hwf, Hnd; rewrite map_app in Hnd;
    apply Forall_app in Hwf as [Hwf0 Hwf];
    pose proof (NoDup_app_remove_r _ _ Hnd) as Hnd0;
    pose proof (Hans 0%nat ltac:(lia)) as Hans0;
    simpl in Hans0; rewrite Z.add_0_r in Hans0;
    simpl syncIssues in H |- *; unfold bind in H |- *;
    destruct (fetchPage json client root page w) as [r1 w1] eqn:E;
    pose proof (fetchPage_pages _ _ _ _ E) as Hpg;
    destruct (fetchPage_static _ _ _ _ Hans0 Hwf0 Hnd0 E) as [Hkg Hfr].
  - simpl in Hlast. rewrite Z.add_0_r in Hlast.
    exists 1%nat. destruct r1 as [kg|e].
    + rewrite (Hkg kg eq_refl), Hlast in H |- *. inversion H; subst.
      repeat split; auto.
    + inversion H; subst. repeat split; auto.
  - destruct r1 as [kg|e].
    2:{ inversion H; subst. exists 1%nat.
        repeat split; auto; try lia; try discriminate. }
    pose proof (Hpre 0%nat ltac:(lia)) as H0. simpl in H0.
    rewrite Z.add_0_r in H0. rewrite (Hkg kg eq_refl), H0 in H |- *.
    assert (Hsame : forall is_,
              In is_ (List.concat (map (pageIssues client)
                                  (pagesFrom (S k) (page + 1)))) ->
              changed root (disk w1) is_ = changed root (disk w) is_).
    { intros is_ Hin. apply changed_frame. apply Hfr.
      intros is0 Hin0. apply issueFileOf_diverge. intros Heq.
      eapply (NoDup_app_disjoint _ _ (issueFileOf root is0) Hnd).
      - now apply in_map.
      - rewrite <- Heq. now apply in_map. }
    destruct (IH (page + 1) w1) with (fuel := fuel) (r := r) (w' := w')
      as (n & Hn & Hpages & Hok & Hind); auto; try lia.
    + intros i Hi. specialize (Hans (S i) ltac:(lia)).
      replace (page + 1 + Z.of_nat i) with (page + Z.of_nat (S i)) by lia.
      exact Hans.
    + eapply NoDup_app_remove_l; eauto.
    + intros i Hi. specialize (Hpre (S i) ltac:(lia)).
      replace (page + Z.of_nat (S i)) with (page + 1 + Z.of_nat i)
        in Hpre by lia.
      rewrite <- Hpre. apply existsb_agree.
      intros is_ Hin. apply Hsame. apply (in_feed i (S k)); [lia | exact Hin].
    + replace (page + Z.of_nat (S k)) with (page + 1 + Z.of_nat k)
        in Hlast by lia.
      rewrite <- Hlast. apply existsb_agree.
      intros is_ Hin. apply Hsame. apply (in_feed k (S k)); [lia | exact Hin].
    + exists (S n). split; [lia|]. split; [|split].
      * rewrite Hpages, Hpg, <- app_assoc. reflexivity.
      * intros Hr. rewrite (Hok Hr). reflexivity.
      * exact Hind.
Qed.

(** C2.  One turn of the loop over the pages requests the page with sort
    by update time, descending, and reports [keepGoing] when and only when
    the turn wrote a file; the loop goes on to the next page when and only
    when the turn reports so.  Hence, when pages 1 to [k] each lead to a
    write and page [k + 1] to none, the loop ends normally having
    requested the pages 1, ..., [k + 1] and no other.  In terms of the
    feed and the disk the run starts with: for a feed of well-formed
    issues, no two of them of the same number, of which pages 1 to
    [k] each hold an issue whose version the disk lacks and page [k + 1]
    holds none, the loop stops by itself (whatever its bound, beyond
    [k]), a run that ends normally has requested exactly the pages 1,
    ..., [k + 1], and a run ended by an error has requested some first
    of them. *)
Theorem C2_syncIssues_stops_after_quiet_page :
  (forall page w kg w',
     fetchPage json client root page w = (Ok kg, w') ->
     exists files,
       trace w' = trace w
                  ++ CallListByRepo "golang" "go"
                       (mkIssueListByRepoOptions "all" "updated" "desc"
                          (mkListOptions page 100))
                  :: map LogWrote files /\
       (kg = true <-> files <> []))
  /\
  (forall fuel page w,
     syncIssues json client root (S fuel) page w
     = match fetchPage json client root page w with
       | (Ok true, w') => syncIssues json client root fuel (page + 1) w'
       | (Ok false, w') => (Ok tt, w')
       | (Err e, w') => (Err e, w')
       end)
  /\
  (forall k w,
     (forall i, (i < k)%nat ->
        fst (fetchPage json client root (1 + Z.of_nat i)
               (afterPages json client root i 1 w)) = Ok true) ->
     fst (fetchPage json client root (1 + Z.of_nat k)
            (afterPages json client root k 1 w)) = Ok false ->
     forall fuel, (k < fuel)%nat ->
       exists w',
         syncIssues json client root fuel 1 w = (Ok tt, w') /\
         issuePagesRequested (trace w')
         = issuePagesRequested (trace w) ++ pagesFrom (S k) 1)
  /\
  (forall k w,
     (forall i, (i <= k)%nat ->
        exists a, ListByRepo client "golang" "go"
                    (issueListOptions (1 + Z.of_nat i)) = Ok a) ->
     Forall wellFormed
            (List.concat (map (pageIssues client) (pagesFrom (S k) 1))) ->
     NoDup (map issueNumber
                (List.concat (map (pageIssues client) (pagesFrom (S k) 1)))) ->
     (forall i, (i < k)%nat ->
        existsb (changed root (disk w))
                (pageIssues client (1 + Z.of_nat i)) = true) ->
     existsb (changed root (disk w))
             (pageIssues client (1 + Z.of_nat k)) = false ->
     forall fuel r w', (k < fuel)%nat ->
       syncIssues json client root fuel 1 w = (r, w') ->
       exists n,
         (n <= S k)%nat /\
         issuePagesRequested (trace w')
         = issuePagesRequested (trace w) ++ pagesFrom n 1 /\
         (r = Ok tt -> n = S k) /\
         syncIssues json client root (S k) 1 w = (r, w')).
Proof.
  split; [|split; [|split]].
  - intros page w kg w' H.
    destruct (fetchPage_trace _ _ _ _ H) as [files [Hf Hk]].
    exists files. split; [exact Hf|].
    rewrite (Hk kg eq_refl). destruct files; simpl; split; congruence.
  - intros fuel page w. simpl. unfold bind.
    destruct (fetchPage json client root page w) as [[[|]|e] w'];
      reflexivity.
  - intros k w Hpre Hlast fuel Hfuel.
    exists (afterPages json client root (S k) 1 w). split.
    + now apply syncIssues_stops.
    + apply afterPages_pages.
  - intros k w Hans Hwf Hnd Hpre Hlast fuel r w' Hfuel H.
    eapply syncIssues_static; eauto. now apply distinct_issue_files.
Qed.

End FirstPass.

(** *** C2 at work *)

Lemma C2_witness :
  exists w',
    syncIssues Example.codec Example.client Example.root 10 1
               (Example.start Example.synced40) = (Ok tt, w') /\
    issuePagesRequested (trace w') = [1; 2; 3] /\
    syncIssues Example.codec Example.client Example.root 3 1
               (Example.start Example.synced40) = (Ok tt, w').
Proof.
  destruct (proj2 (proj2 (C2_syncIssues_stops_after_quiet_page
                            Example.codec Example.client Example.root)))
    as [Hdyn Hstat].
  destruct (Hdyn 2%nat (Example.start Example.synced40))
    with (fuel := 10%nat) as [w' [Hrun Hpages]].
  - intros i Hi. destruct i as [|[|i]]; [vm_compute; reflexivity ..|lia].
  - vm_compute. reflexivity.
  - lia.
  - exists w'. split; [exact Hrun|]. split; [exact Hpages|].
    destruct (Hstat 2%nat (Example.start Example.synced40))
      with (fuel := 10%nat) (r := Ok tt) (w' := w')
      as (n & _ & _ & _ & Hind).
    + intros i Hi. destruct i as [|[|[|i]]]; [eexists; reflexivity ..|lia].
    + match goal with
      | |- Forall _ ?l =>
          let l' := eval vm_compute in l in change l with l'
      end.
      repeat (apply Forall_cons;
              [split; eexists; (split; [reflexivity|]);
               [unfold isInt, minInt, maxInt; lia | reflexivity]|]).
      apply Forall_nil.
    + vm_compute. repeat constructor; simpl; intuition discriminate.
    + intros i Hi. destruct i as [|[|i]]; [vm_compute; reflexivity ..|lia].
    + vm_compute. reflexivity.
    + lia.
    + exact Hrun.
    + exact Hind.
Defined.

(** ** The second pass: reconciling the comments *)

Arguments cleanComment : simpl never.
Arguments cleanIssue : simpl never.
Arguments writeDiskJSON : simpl never.

(** A loop whose every turn keeps a transitive relation between the world
    before and the world after keeps it as a whole. *)
Lemma forM_preserves {A} (P : world -> world -> Prop)
  (body : A -> M world unit) :
  (forall w, P w w) ->
  (forall w1 w2 w3, P w1 w2 -> P w2 w3 -> P w1 w3) ->
  (forall x w r w', body x w = (r, w') -> P w w') ->
  forall xs w r w', forM xs body w = (r, w') -> P w w'.
Proof.
  intros Hrefl Htrans Hbody.
  induction xs as [|x xs IH]; intros w r w' H.
  - inversion H; subst. apply Hrefl.
  - simpl in H. unfold bind in H.
    destruct (body x w) as [[[]|e] w1] eqn:E.
    + eapply Htrans; [eapply Hbody; exact E | eapply IH; exact H].
    + inversion H; subst. eapply Hbody; exact E.
Qed.

Lemma sameCommentPages_refl w : sameCommentPages w w.
Proof. reflexivity. Qed.

Lemma sameCommentPages_trans w1 w2 w3 :
  sameCommentPages w1 w2 -> sameCommentPages w2 w3 -> sameCommentPages w1 w3.
Proof. unfold sameCommentPages. congruence. Qed.

Lemma cleanComment_Some (c : IssueComment) :
  exists c', fst (cleanComment (Some c)) = Some c' /\
             commentID c' = commentID c /\
             commentUpdatedAt c' = commentUpdatedAt c.
Proof.
  unfold cleanComment.
  repeat match goal with
         | |- context [let '(_, _) := ?x in _] => destruct x
         end.
  eexists. repeat split.
Qed.

Section SecondPass.

Variable json : JSON.
Variable client : Client.
Variable root : Root.t.
Variable reclean : bool.

Lemma writeDiskJSON_sameCommentPages file v val w r w' :
  writeDiskJSON json file v val w = (r, w') -> sameCommentPages w w'.
Proof.
  intros H. apply writeDiskJSON_trace in H. unfold sameCommentPages.
  rewrite H, commentPagesRequested_app.
  destruct r as [[|]|]; simpl; now rewrite app_nil_r.
Qed.

(** After a call with a non-zero version that returns no error, the file
    is on disk with that version. *)
Lemma writeDiskJSON_upToDate file v val w wrote w' :
  IsZero v = false ->
  writeDiskJSON json file v val w = (Ok wrote, w') ->
  upToDate (disk w') file v = true.
Proof.
  intros Hv H. destruct wrote.
  - destruct (writeDiskJSON_wrote _ _ _ _ _ _ H)
      as (ts & j & m & Hd & _ & Hn & Hm & _).
    rewrite writeDecision_nonzero in Hd by exact Hv.
    assert (Hts : ts = v).
    { destruct (Stat (disk w) file) as [fi|];
        [destruct (Equal (ModTime fi) v)|]; congruence. }
    rewrite Hts in Hm. unfold upToDate, Stat. unfold nodeAt in Hn.
    rewrite Hn. simpl. rewrite Hm. apply Z.eqb_refl.
  - apply writeDiskJSON_not_wrote in H as [-> Hd].
    rewrite writeDecision_nonzero in Hd by exact Hv.
    unfold upToDate. destruct (Stat (disk w) file) as [fi|]; [|discriminate].
    destruct (Equal (ModTime fi) v); [reflexivity | discriminate].
Qed.

Lemma recleanComment_sameCommentPages num c w r w' :
  recleanComment json root num c w = (r, w') -> sameCommentPages w w'.
Proof.
  unfold recleanComment. destruct (cleanComment (Some c)) as [c' [|]].
  - unfold bind, deref, ret, fail.
    destruct c' as [c'|]; [|intros H; inversion H; subst; reflexivity].
    destruct (commentID c') as [id|];
      [|intros H; inversion H; subst; reflexivity].
    destruct (writeDiskJSON json _ zeroTime (VComment c') w)
      as [[b|e] w1] eqn:E; intros H; inversion H; subst;
      eapply writeDiskJSON_sameCommentPages; exact E.
  - intros H. inversion H; subst. reflexivity.
Qed.

Lemma ForeachIssueComment_preserves (P : world -> world -> Prop) num fn :
  (forall w, P w w) ->
  (forall w1 w2 w3, P w1 w2 -> P w2 w3 -> P w1 w3) ->
  (forall c w r w', fn c w = (r, w') -> P w w') ->
  forall w r w',
    Root.ForeachIssueComment json root num fn w = (r, w') -> P w w'.
Proof.
  intros Hrefl Htrans Hfn w r w'. unfold Root.ForeachIssueComment.
  destruct (Walk (disk w) _ _ []) as [[[]|e] ids].
  - apply (forM_preserves P); auto.
    intros id w0 r0 w0'. unfold bind, Root.IssueComment.
    destruct (ReadFile (disk w0) _) as [slurp|e].
    + destruct (UnmarshalComment json slurp) as [c|e].
      * apply Hfn.
      * intros H; inversion H; subst; apply Hrefl.
    + intros H; inversion H; subst; apply Hrefl.
  - destruct (IsNotExist e); intros H; inversion H; subst; apply Hrefl.
Qed.

(** Re-normalizing a stored issue and its comments requests no page of
    comments. *)
Lemma recleanIssue_sameCommentPages is_ w r w' :
  recleanIssue json root is_ w = (r, w') -> sameCommentPages w w'.
Proof.
  unfold recleanIssue. destruct (cleanIssue is_) as [is' cleaned].
  unfold bind at 1.
  set (first := if cleaned then _ else ret tt).
  destruct (first w) as [[[]|e] w1] eqn:E1.
  - assert (H1 : sameCommentPages w w1).
    { subst first. destruct cleaned.
      - unfold bind, deref, ret, fail in E1.
        destruct (issueNumber is') as [num|];
          [|inversion E1; subst; reflexivity].
        destruct (writeDiskJSON json _ zeroTime (VIssue is') w)
          as [[b|e] w2] eqn:E; inversion E1; subst;
          eapply writeDiskJSON_sameCommentPages; exact E.
      - inversion E1; subst. reflexivity. }
    unfold bind, deref, ret, fail.
    destruct (issueNumber is') as [num|].
    + destruct (Root.ForeachIssueComment json root num _ w1)
        as [[[]|e] w2] eqn:E2; intros H; inversion H; subst;
        (eapply sameCommentPages_trans; [exact H1|]);
        (eapply (ForeachIssueComment_preserves sameCommentPages);
         [exact sameCommentPages_refl | exact sameCommentPages_trans
         | | exact E2]);
        intros c0 w0 r0 w0'; apply recleanComment_sameCommentPages.
    + intros H; inversion H; subst. exact H1.
  - intros H. inversion H; subst.
    subst first. destruct cleaned.
    + unfold bind, deref, ret, fail in E1.
      destruct (issueNumber is') as [num|];
        [|inversion E1; subst; reflexivity].
      destruct (writeDiskJSON json _ zeroTime (VIssue is') w)
        as [[b|e'] w2] eqn:E; inversion E1; subst;
        eapply writeDiskJSON_sameCommentPages; exact E.
    + inversion E1.
Qed.

Lemma recleanIssue_result is_ w is1 w1 :
  recleanIssue json root is_ w = (Ok is1, w1) -> is1 = fst (cleanIssue is_).
Proof.
  unfold recleanIssue. destruct (cleanIssue is_) as [is' cleaned].
  unfold bind, ret. simpl fst. intros H.
  repeat match type of H with
         | context [match ?x with _ => _ end] =>
             destruct x eqn:?; try discriminate
         end.
  now inversion H.
Qed.

(** The loop over the comments of a page logs nothing but files. *)
Lemma writeComments_sameCommentPages num (cs : list IssueComment) :
  forall w r w',
    writeComments json root num cs w = (r, w') -> sameCommentPages w w'.
Proof.
  induction cs as [|c cs IH]; intros w r w' H.
  - inversion H; subst. reflexivity.
  - simpl in H. destruct (cleanComment (Some c)) as [c' cl].
    unfold bind, deref, ret, fail in H.
    destruct c' as [c'|]; [|inversion H; subst; reflexivity].
    destruct (commentID c') as [id|]; [|inversion H; subst; reflexivity].
    destruct (commentUpdatedAt c') as [u|];
      [|inversion H; subst; reflexivity].
    destruct (writeDiskJSON json _ u (VComment c') w) as [[b|e] w1] eqn:E.
    + eapply sameCommentPages_trans;
        [eapply writeDiskJSON_sameCommentPages; exact E | eapply IH; exact H].
    + inversion H; subst. eapply writeDiskJSON_sameCommentPages; exact E.
Qed.

(** A run of [updateComments] that ends normally has requested the pages
    the remote's cursor leads through, and no other. *)
Lemma updateCommentsFrom_pages num (fuel : nat) : forall page w w',
  updateCommentsFrom json client root fuel num page w = (Ok tt, w') ->
  commentPagesRequested (trace w')
  = commentPagesRequested (trace w)
    ++ map (pair num) (cursorPages client fuel num page).
Proof.
  induction fuel as [|fuel IH]; intros page w w' H; [discriminate|].
  simpl in H. unfold bind, emit, modify, lift in H. simpl in H.
  simpl cursorPages.
  destruct (ListComments client "golang" "go" num (mkListOptions page 100))
    as [[cs resp]|e]; [|discriminate].
  simpl in H.
  destruct (writeComments json root num cs _) as [[[]|e] w1] eqn:Ew;
    [|discriminate].
  apply writeComments_sameCommentPages in Ew. unfold sameCommentPages in Ew.
  simpl in Ew. rewrite commentPagesRequested_app in Ew. simpl in Ew.
  simpl snd. destruct (NextPage resp =? 0).
  - inversion H; subst. exact Ew.
  - apply IH in H. rewrite H, Ew, <- app_assoc. reflexivity.
Qed.

Lemma commentFile_length num id :
  List.length (Root.IssueCommentFile root num id)
  = (List.length root + 4)%nat.
Proof. unfold Root.IssueCommentFile, Join. now rewrite length_app. Qed.

Lemma commentFileOf_diverge num c1 c2 :
  commentFileOf root num c1 <> commentFileOf root num c2 ->
  diverge (commentFileOf root num c1) (commentFileOf root num c2).
Proof.
  intros H. apply diverge_same_length; [|exact H].
  unfold commentFileOf. now rewrite !commentFile_length.
Qed.

(** The loop over the comments of a page leaves alone what is at any
    path that parts from the files of these comments. *)
Lemma writeComments_frame num (cs : list IssueComment) : forall w r w' p,
  (forall c, In c cs -> diverge p (commentFileOf root num c)) ->
  writeComments json root num cs w = (r, w') ->
  nodeAt w' p = nodeAt w p.
Proof.
  induction cs as [|c0 cs IH]; intros w r w' p Hd H.
  - inversion H; subst. reflexivity.
  - simpl in H.
    destruct (cleanComment_Some c0) as (c0' & Hc & Hid & _).
    destruct (cleanComment (Some c0)) as [x cl]. simpl in Hc. subst x.
    unfold bind, deref, ret, fail in H.
    destruct (commentID c0') as [id|] eqn:Eid;
      [|inversion H; subst; reflexivity].
    destruct (commentUpdatedAt c0') as [u|];
      [|inversion H; subst; reflexivity].
    assert (Hf : commentFileOf root num c0 = Root.IssueCommentFile root num id).
    { unfold commentFileOf. now rewrite <- Hid. }
    pose proof (Hd c0 (or_introl eq_refl)) as Hd0. rewrite Hf in Hd0.
    destruct (writeDiskJSON json _ u (VComment c0') w) as [[b|e] w1] eqn:E.
    + rewrite (IH _ _ _ p (fun c Hc => Hd c (or_intror Hc)) H).
      eapply writeDiskJSON_frame; eauto.
    + inversion H; subst. eapply writeDiskJSON_frame; eauto.
Qed.

(** After the loop, every comment of the page is on disk with its own
    version, when no two comments of the page go to the same file. *)
Lemma writeComments_final num (cs : list IssueComment) : forall w w',
  writeComments json root num cs w = (Ok tt, w') ->
  NoDup (map (commentFileOf root num) cs) ->
  forall c u, In c cs -> commentUpdatedAt c = Some u -> IsZero u = false ->
  upToDate (disk w') (commentFileOf root num c) u = true.
Proof.
  induction cs as [|c0 cs IH]; intros w w' H Hnd c u Hin Hu Hz;
    [contradiction|].
  simpl in Hnd. apply NoDup_cons_iff in Hnd as [Hfresh Hnd].
  simpl in H.
  destruct (cleanComment_Some c0) as (c0' & Hc & Hid & Hu0).
  destruct (cleanComment (Some c0)) as [x cl]. simpl in Hc. subst x.
  unfold bind, deref, ret, fail in H.
  destruct (commentID c0') as [id|] eqn:Eid; [|discriminate].
  destruct (commentUpdatedAt c0') as [u0|] eqn:Eu; [|discriminate].
  destruct (writeDiskJSON json _ u0 (VComment c0') w) as [[b|e] w1] eqn:E;
    [|discriminate].
  destruct Hin as [->|Hin]; [|eapply IH; eauto].
  assert (Hf : commentFileOf root num c = Root.IssueCommentFile root num id).
  { unfold commentFileOf. now rewrite <- Hid. }
  assert (u0 = u) by congruence. subst u0.
  rewrite (upToDate_nodeAt w1 w').
  - rewrite Hf. eapply writeDiskJSON_upToDate; eauto.
  - eapply writeComments_frame; [|exact H].
    intros c1 Hc1. apply commentFileOf_diverge.
    intros Heq. apply Hfresh. rewrite Heq. now apply in_map.
Qed.

Lemma updateCommentsFrom_frame num (fuel : nat) : forall page w r w' p,
  (forall c, In c (fetchedComments client fuel num page) ->
             diverge p (commentFileOf root num c)) ->
  updateCommentsFrom json client root fuel num page w = (r, w') ->
  nodeAt w' p = nodeAt w p.
Proof.
  induction fuel as [|fuel IH]; intros page w r w' p Hd H.
  - inversion H; subst. reflexivity.
  - simpl in H. unfold bind, emit, modify, lift in H. simpl in H.
    simpl fetchedComments in Hd.
    destruct (ListComments client "golang" "go" num (mkListOptions page 100))
      as [[cs resp]|e]; [|inversion H; subst; reflexivity].
    simpl in H, Hd.
    destruct (writeComments json root num cs _) as [[[]|e] w1] eqn:Ew.
    + assert (H1 : nodeAt w1 p = nodeAt w p).
      { eapply writeComments_frame in Ew; [exact Ew|].
        intros c Hc. apply Hd. apply in_or_app. now left. }
      destruct (NextPage resp =? 0).
      * inversion H; subst. exact H1.
      * rewrite <- H1. eapply IH; [|exact H].
        intros c Hc. apply Hd. apply in_or_app. now right.
    + inversion H; subst.
      eapply writeComments_frame in Ew; [exact Ew|].
      intros c Hc. apply Hd. apply in_or_app. now left.
Qed.

(** After a run of [updateComments] that ends normally, every comment on
    the pages the cursor led through is on disk with its own version,
    when no two of these comments go to the same file. *)
Lemma updateCommentsFrom_final num (fuel : nat) : forall page w w',
  updateCommentsFrom json client root fuel num page w = (Ok tt, w') ->
  NoDup (map (commentFileOf root num) (fetchedComments client fuel num page)) ->
  forall c u,
    In c (fetchedComments client fuel num page) ->
    commentUpdatedAt c = Some u -> IsZero u = false ->
    upToDate (disk w') (commentFileOf root num c) u = true.
Proof.
  induction fuel as [|fuel IH]; intros page w w' H Hnd c u Hin Hu Hz;
    [discriminate|].
  simpl in H. unfold bind, emit, modify, lift in H. simpl in H.
  simpl fetchedComments in Hnd, Hin.
  destruct (ListComments client "golang" "go" num (mkListOptions page 100))
    as [[cs resp]|e]; [|discriminate].
  simpl in H, Hnd, Hin.
  destruct (writeComments json root num cs _) as [[[]|e] w1] eqn:Ew;
    [|discriminate].
  rewrite map_app in Hnd.
  apply in_app_or in Hin as [Hin|Hin].
  - assert (H1 : upToDate (disk w1) (commentFileOf root num c) u = true).
    { eapply writeComments_final; eauto.
      eapply NoDup_app_remove_r; eauto. }
    destruct (NextPage resp =? 0).
    + inversion H; subst. exact H1.
    + rewrite (upToDate_nodeAt w1 w'); [exact H1|].
      eapply updateCommentsFrom_frame; [|exact H].
      intros c1 Hc1. apply commentFileOf_diverge. intros Heq.
      eapply (NoDup_app_disjoint _ _ (commentFileOf root num c) Hnd).
      * now apply in_map.
      * rewrite Heq. now apply in_map.
  - destruct (NextPage resp =? 0); [contradiction|].
    eapply IH; eauto. eapply NoDup_app_remove_l; eauto.
Qed.

(** Comments of different identities go to different files. *)
Lemma distinct_comment_files num (l : list IssueComment) :
  Forall identified l ->
  NoDup (map commentID l) -> NoDup (map (commentFileOf root num) l).
Proof.
  intros Hid. apply NoDup_map_through. intros x y Hx Hy Hf.
  rewrite Forall_forall in Hid.
  destruct (Hid x Hx) as [a [Ha Hia]]. destruct (Hid y Hy) as [b [Hb Hib]].
  unfold commentFileOf in Hf. rewrite Ha, Hb in *.
  f_equal. eapply IssueCommentFile_inj; eauto.
Qed.

(** What a run of the loop over a page has done for each comment of the
    page: nothing when the file had the comment's version, and else the
    file holds what the encoder gives for the normalized comment, under
    the comment's version. *)
Lemma writeComments_content num (cs : list IssueComment) : forall w w',
  writeComments json root num cs w = (Ok tt, w') ->
  NoDup (map (commentFileOf root num) cs) ->
  forall c u c',
    In c cs -> commentUpdatedAt c = Some u -> IsZero u = false ->
    fst (cleanComment (Some c)) = Some c' ->
    (upToDate (disk w) (commentFileOf root num c) u = true /\
     nodeAt w' (commentFileOf root num c) = nodeAt w (commentFileOf root num c))
    \/
    (upToDate (disk w) (commentFileOf root num c) u = false /\
     exists j m,
       nodeAt w' (commentFileOf root num c) = Ok (File j m) /\
       encoded json (VComment c') j /\ modTime m = u /\ accTime m = u).
Proof.
  induction cs as [|c0 cs IH]; intros w w' H Hnd c u c' Hin Hu Hz Hc';
    [contradiction|].
  simpl in Hnd. apply NoDup_cons_iff in Hnd as [Hfresh Hnd].
  simpl in H.
  destruct (cleanComment_Some c0) as (c0' & Hc & Hid & Hu0).
  destruct (cleanComment (Some c0)) as [x cl] eqn:Ecl. simpl in Hc. subst x.
  unfold bind, deref, ret, fail in H.
  destruct (commentID c0') as [id|] eqn:Eid; [|discriminate].
  destruct (commentUpdatedAt c0') as [u0|] eqn:Eu; [|discriminate].
  destruct (writeDiskJSON json _ u0 (VComment c0') w) as [[b|e] w1] eqn:E;
    [|discriminate].
  assert (Hf0 : commentFileOf root num c0 = Root.IssueCommentFile root num id).
  { unfold commentFileOf. now rewrite <- Hid. }
  destruct Hin as [->|Hin].
  - assert (u0 = u) by congruence. subst u0.
    assert (c0' = c') by (rewrite Ecl in Hc'; simpl in Hc'; congruence).
    subst c0'.
    assert (Hrest : nodeAt w' (commentFileOf root num c)
                    = nodeAt w1 (commentFileOf root num c)).
    { eapply writeComments_frame; [|exact H].
      intros c1 Hc1. apply commentFileOf_diverge.
      intros Heq. apply Hfresh. rewrite Heq. now apply in_map. }
    pose proof (writeDiskJSON_wrote_iff json _ _ _ _ _ _ Hz E) as Hb.
    rewrite Hf0 in *. destruct b.
    + right. split; [now destruct (upToDate (disk w) _ u)|].
      destruct (writeDiskJSON_wrote _ _ _ _ _ _ E)
        as (ts & j & m & Hd & Henc & Hn & Hm & Ha & _).
      rewrite writeDecision_nonzero in Hd by exact Hz.
      assert (ts = u).
      { destruct (Stat (disk w) _) as [fi|];
          [destruct (Equal (ModTime fi) u)|]; congruence. }
      subst ts. exists j, m. rewrite Hrest. repeat split; congruence.
    + left. apply writeDiskJSON_not_wrote in E as [-> _].
      split; [|exact Hrest].
      now destruct (upToDate (disk w) _ u).
  - assert (Hstep : nodeAt w1 (commentFileOf root num c)
                    = nodeAt w (commentFileOf root num c)).
    { eapply writeDiskJSON_frame; [|exact E]. rewrite <- Hf0.
      apply commentFileOf_diverge. intros Heq. apply Hfresh.
      rewrite <- Heq. now apply in_map. }
    rewrite <- (upToDate_nodeAt w w1 _ u Hstep), <- Hstep.
    eapply IH; eauto.
Qed.

(** The same for a run of [updateComments] that ends normally and the
    comments of all its pages. *)
Lemma updateCommentsFrom_content num (fuel : nat) : forall page w w',
  updateCommentsFrom json client root fuel num page w = (Ok tt, w') ->
  NoDup (map (commentFileOf root num) (fetchedComments client fuel num page)) ->
  forall c u c',
    In c (fetchedComments client fuel num page) ->
    commentUpdatedAt c = Some u -> IsZero u = false ->
    fst (cleanComment (Some c)) = Some c' ->
    (upToDate (disk w) (commentFileOf root num c) u = true /\
     nodeAt w' (commentFileOf root num c) = nodeAt w (commentFileOf root num c))
    \/
    (upToDate (disk w) (commentFileOf root num c) u = false /\
     exists j m,
       nodeAt w' (commentFileOf root num c) = Ok (File j m) /\
       encoded json (VComment c') j /\ modTime m = u /\ accTime m = u).
Proof.
  induction fuel as [|fuel IH]; intros page w w' H Hnd c u c' Hin Hu Hz Hc';
    [discriminate|].
  simpl in H. unfold bind, emit, modify, lift in H. simpl in H.
  simpl fetchedComments in Hnd, Hin.
  destruct (ListComments client "golang" "go" num (mkListOptions page 100))
    as [[cs resp]|e]; [|discriminate].
  simpl in H, Hnd, Hin.
  destruct (writeComments json root num cs _) as [[[]|e] w1] eqn:Ew;
    [|discriminate].
  rewrite map_app in Hnd.
  apply in_app_or in Hin as [Hin|Hin].
  - assert (Hlater : nodeAt w' (commentFileOf root num c)
                     = nodeAt w1 (commentFileOf root num c)).
    { destruct (NextPage resp =? 0); [now inversion H|].
      eapply updateCommentsFrom_frame; [|exact H].
      intros c1 Hc1. apply commentFileOf_diverge. intros Heq.
      eapply (NoDup_app_disjoint _ _ (commentFileOf root num c) Hnd).
      - now apply in_map.
      - rewrite Heq. now apply in_map. }
    rewrite Hlater.
    exact (writeComments_content num cs _ _ Ew
             (NoDup_app_remove_r _ _ Hnd) c u c' Hin Hu Hz Hc').
  - destruct (NextPage resp =? 0); [contradiction|].
    assert (Hearlier : nodeAt w1 (commentFileOf root num c)
                       = nodeAt w (commentFileOf root num c)).
    { eapply (writeComments_frame num cs) in Ew; [exact Ew|].
      intros c1 Hc1. apply commentFileOf_diverge. intros Heq.
      eapply (NoDup_app_disjoint _ _ (commentFileOf root num c) Hnd).
      - rewrite Heq. now apply in_map.
      - now apply in_map. }
    rewrite <- (upToDate_nodeAt w w1 _ u Hearlier), <- Hearlier.
    eapply IH; eauto. eapply NoDup_app_remove_l; eauto.
Qed.

(** Once the chain of pages ends within the bound, the bound plays no
    part: a larger one gives the same run. *)
Lemma updateCommentsFrom_fuel num (fuel : nat) : forall page more w,
  chainEnds client fuel num page = true ->
  updateCommentsFrom json client root (fuel + more) num page w
  = updateCommentsFrom json client root fuel num page w.
Proof.
  induction fuel as [|fuel IH]; intros page more w H; [discriminate|].
  simpl in H. simpl. unfold bind, emit, modify, lift. simpl.
  destruct (ListComments client "golang" "go" num (mkListOptions page 100))
    as [[cs resp]|e]; [|reflexivity].
  simpl in *.
  destruct (writeComments json root num cs _) as [[[]|e] w1]; [|reflexivity].
  destruct (NextPage resp =? 0); [reflexivity|]. now apply IH.
Qed.

(** A loop over two lists one after the other is the loop over the
    first and then, unless it failed, the loop over the second. *)
Lemma forM_app {S A} (body : A -> M S unit) (l1 l2 : list A) : forall w,
  forM (l1 ++ l2) body w
  = match forM l1 body w with
    | (Ok _, w1) => forM l2 body w1
    | (Err e, w1) => (Err e, w1)
    end.
Proof.
  induction l1 as [|x l1 IH]; intros w; simpl; [reflexivity|].
  unfold bind. destruct (body x w) as [[[]|e] w1]; [apply IH | reflexivity].
Qed.

(** A loop that fails has failed in one of its turns, after the turns
    before it went well. *)
Lemma forM_error {S A} (body : A -> M S unit) (l : list A) : forall w e wb,
  forM l body w = (Err e, wb) ->
  exists pre x post wa,
    l = pre ++ x :: post /\
    forM pre body w = (Ok tt, wa) /\ body x wa = (Err e, wb).
Proof.
  induction l as [|y l IH]; intros w e wb H; [discriminate|].
  simpl in H. unfold bind in H.
  destruct (body y w) as [[[]|e'] w1] eqn:E.
  - destruct (IH _ _ _ H) as (pre & x & post & wa & -> & Hpre & Hx).
    exists (y :: pre), x, post, wa. split; [reflexivity|].
    split; [|exact Hx]. simpl. unfold bind. now rewrite E.
  - inversion H; subst. exists [], y, l, w. auto.
Qed.

(** The loop over the comments of a page is the sequence of its turns. *)
Lemma writeComments_steps num (cs : list IssueComment) : forall w,
  writeComments json root num cs w
  = forM (map PutComment cs) (runCommentStep json client root num) w.
Proof.
  induction cs as [|c cs IH]; intros w; [reflexivity|].
  simpl. destruct (cleanComment (Some c)) as [x cl].
  unfold bind, deref, ret, fail.
  destruct x as [c'|]; [|reflexivity].
  destruct (commentID c') as [id|]; [|reflexivity].
  destruct (commentUpdatedAt c') as [u|]; [|reflexivity].
  destruct (writeDiskJSON json _ u (VComment c') w) as [[b|e] w1];
    [apply IH | reflexivity].
Qed.

(** When the chain of pages ends within the bound, [updateComments] is
    the sequence of its steps. *)
Lemma updateCommentsFrom_steps num (fuel : nat) : forall page w,
  chainEnds client fuel num page = true ->
  updateCommentsFrom json client root fuel num page w
  = forM (commentSteps client fuel num page)
         (runCommentStep json client root num) w.
Proof.
  induction fuel as [|fuel IH]; intros page w Hend; [discriminate|].
  simpl in Hend. simpl. unfold bind, emit, modify, lift, ret. simpl.
  destruct (ListComments client "golang" "go" num (mkListOptions page 100))
    as [[cs resp]|e]; [|reflexivity].
  simpl in *. rewrite forM_app, <- writeComments_steps.
  destruct (writeComments json root num cs _) as [[[]|e] w1]; [|reflexivity].
  destruct (NextPage resp =? 0); [reflexivity | now apply IH].
Qed.

(** The requests among the steps are those for the pages of the chain,
    and the comments among them are the comments of these pages. *)
Lemma commentSteps_pages num (fuel : nat) : forall page p,
  In (RequestPage p) (commentSteps client fuel num page)
  <-> In p (cursorPages client fuel num page).
Proof.
  induction fuel as [|fuel IH]; intros page p; simpl; [tauto|].
  destruct (ListComments client "golang" "go" num (mkListOptions page 100))
    as [[cs resp]|e]; simpl.
  - rewrite in_app_iff.
    assert (Hno : ~ In (RequestPage p) (map PutComment cs)).
    { rewrite in_map_iff. intros (c & Hc & _). discriminate. }
    destruct (NextPage resp =? 0); simpl.
    + split; [intros [H|[H|[]]] | intros [H|[]]];
        try contradiction; left; congruence.
    + rewrite <- IH.
      split; (intros [H|H]; [left; congruence|]);
        [destruct H as [H|H]; [contradiction | now right] | right; now right].
  - split; (intros [H|[]]; left; congruence).
Qed.

Lemma commentSteps_comments num (fuel : nat) : forall page c,
  In (PutComment c) (commentSteps client fuel num page)
  <-> In c (fetchedComments client fuel num page).
Proof.
  induction fuel as [|fuel IH]; intros page c; simpl; [tauto|].
  destruct (ListComments client "golang" "go" num (mkListOptions page 100))
    as [[cs resp]|e]; simpl.
  - rewrite !in_app_iff.
    assert (Hmap : In (PutComment c) (map PutComment cs) <-> In c cs).
    { rewrite in_map_iff. split; [intros (c0 & Hc & Hin); congruence|].
      intros Hin. now exists c. }
    destruct (NextPage resp =? 0); simpl.
    + split; [intros [H|[H|[]]]; [discriminate | left; tauto]
             | intros [H|[]]; right; left; tauto].
    + rewrite <- IH.
      split; [intros [H|[H|H]]; [discriminate | left; tauto | now right]
             | intros [H|H]; right; [left; tauto | now right]].
  - split; [intros [H|[]]; discriminate | intros []].
Qed.

(** What a failing step is. *)
Lemma runCommentStep_fails num (s : commentStep) w e w' :
  runCommentStep json client root num s w = (Err e, w') ->
  commentStepFails json client root num s w e w'.
Proof.
  destruct s as [p|c]; simpl.
  - unfold bind, emit, modify, lift, ret. simpl.
    destruct (ListComments client "golang" "go" num (mkListOptions p 100))
      as [r|e0]; intros H; inversion H; subst. auto.
  - destruct (cleanComment_Some c) as (c' & Hc & Hid & Hu).
    destruct (cleanComment (Some c)) as [x cl]. simpl in Hc. subst x.
    unfold bind, deref, ret, fail.
    destruct (commentID c') as [id|] eqn:Eid.
    2:{ intros H; inversion H; subst. left.
        split; [reflexivity|]. split; [left; congruence | reflexivity]. }
    destruct (commentUpdatedAt c') as [u|] eqn:Eu.
    2:{ intros H; inversion H; subst. left.
        split; [reflexivity|]. split; [right; congruence | reflexivity]. }
    destruct (writeDiskJSON json _ u (VComment c') w) as [[b|e0] w1] eqn:E;
      intros H; inversion H; subst.
    right. exists c', id, u. repeat split; auto; congruence.
Qed.

(** C5.  For a stored issue whose [Comments] field is present, once the
    optional re-normalization is done (it requests no page of comments):
    when the number of comments on disk equals the declared number, the
    function returns at once and no page of comments is requested for
    the issue; when the numbers differ, the function is [updateComments].
    A run of [updateComments] that ends normally has requested the pages
    the remote's own cursor leads through, starting with page 1, and no
    other, and for every comment of these pages (comments with an
    identity and a non-zero version, no two of them of the same
    identity) the file of the comment is at the comment's own version at
    the end: it is untouched when it was at that version before the run,
    and else it holds what the encoder gives for the normalized comment,
    which ends in one newline, with both its times set to the version.
    And [updateComments] returns when the cursor's chain ends: when the
    chain ends within the bound on the pages, with a page whose cursor
    is 0 or with a request that fails, the run does not depend on the
    bound; it is the sequence of its steps, the request for each page
    of the chain followed by the turn of each comment of the page; and
    when it returns an error, the steps before one of them went well
    and that one failed with this error, in the world they left: the
    request for a page failed, or the comment lacks its identity or its
    time of update, or the call of [writeDiskJSON] for it failed. *)
Theorem C5_reconcileIssue fuel is_ n num w is1 w1
  (Hcomments : issueComments is_ = Some n)
  (Hnum : issueNumber is_ = Some num)
  (Hpre : (if reclean then recleanIssue json root is_ else ret is_) w
          = (Ok is1, w1)) :
  commentPagesRequested (trace w1) = commentPagesRequested (trace w)
  /\
  (forall onDisk,
     Root.NumComments root num w1 = (Ok onDisk, w1) ->
     (onDisk = n ->
      reconcileIssue json client root reclean fuel is_ w = (Ok tt, w1))
     /\
     (onDisk <> n ->
      reconcileIssue json client root reclean fuel is_ w
      = updateComments json client root fuel num w1))
  /\
  (forall wa wb,
     updateComments json client root fuel num wa = (Ok tt, wb) ->
     commentPagesRequested (trace wb)
     = commentPagesRequested (trace wa)
       ++ map (pair num) (cursorPages client fuel num 1)
     /\
     (Forall identified (fetchedComments client fuel num 1) ->
      NoDup (map commentID (fetchedComments client fuel num 1)) ->
      forall c id u,
        In c (fetchedComments client fuel num 1) ->
        commentID c = Some id ->
        commentUpdatedAt c = Some u -> IsZero u = false ->
        upToDate (disk wb) (Root.IssueCommentFile root num id) u = true /\
        exists c', fst (cleanComment (Some c)) = Some c' /\
          ((upToDate (disk wa) (Root.IssueCommentFile root num id) u = true /\
            nodeAt wb (Root.IssueCommentFile root num id)
            = nodeAt wa (Root.IssueCommentFile root num id))
           \/
           (upToDate (disk wa) (Root.IssueCommentFile root num id) u = false /\
            exists j m,
              nodeAt wb (Root.IssueCommentFile root num id) = Ok (File j m) /\
              encoded json (VComment c') j /\ last j x00 = x0a /\
              modTime m = u /\ accTime m = u))))
  /\
  (chainEnds client fuel num 1 = true ->
   let steps := commentSteps client fuel num 1 in
   let step := runCommentStep json client root num in
   (forall more wa,
      updateComments json client root (fuel + more) num wa
      = updateComments json client root fuel num wa) /\
   (forall wa, updateComments json client root fuel num wa
               = forM steps step wa) /\
   (forall p, In (RequestPage p) steps
              <-> In p (cursorPages client fuel num 1)) /\
   (forall c, In (PutComment c) steps
              <-> In c (fetchedComments client fuel num 1)) /\
   (forall wa e wb,
      updateComments json client root fuel num wa = (Err e, wb) ->
      exists pre s post w2,
        steps = pre ++ s :: post /\
        forM pre step wa = (Ok tt, w2) /\
        commentStepFails json client root num s w2 e wb)).
Proof.
  assert (Hkeep : issueComments is1 = Some n /\ issueNumber is1 = Some num).
  { destruct reclean.
    - apply recleanIssue_result in Hpre. subst is1.
      destruct (cleanIssue_keeps is_) as [H1 H2]. now rewrite H1, H2.
    - inversion Hpre; subst. auto. }
  destruct Hkeep as [Hc1 Hn1].
  split; [|split; [|split]].
  - destruct reclean.
    + now apply recleanIssue_sameCommentPages in Hpre.
    + inversion Hpre; subst. reflexivity.
  - intros onDisk Hdisk.
    assert (Hrun : reconcileIssue json client root reclean fuel is_ w
                   = if onDisk =? n then (Ok tt, w1)
                     else updateComments json client root fuel num w1).
    { unfold reconcileIssue. rewrite Hcomments.
      unfold bind at 1. rewrite Hpre.
      unfold bind, deref, ret. rewrite Hc1, Hn1, Hdisk.
      destruct (onDisk =? n); reflexivity. }
    split; intros Hcmp; rewrite Hrun.
    + subst onDisk. now rewrite Z.eqb_refl.
    + apply Z.eqb_neq in Hcmp. now rewrite Hcmp.
  - intros wa wb Hrun. unfold updateComments in Hrun. split.
    + now apply updateCommentsFrom_pages.
    + intros Hid Hnd c id u Hin Hc Hu Hz.
      replace (Root.IssueCommentFile root num id)
        with (commentFileOf root num c)
        by (unfold commentFileOf; now rewrite Hc).
      pose proof (distinct_comment_files num _ Hid Hnd) as Hfiles.
      split; [eapply updateCommentsFrom_final; eauto|].
      destruct (cleanComment_Some c) as (c' & Hc' & _).
      exists c'. split; [exact Hc'|].
      destruct (updateCommentsFrom_content num fuel 1 wa wb Hrun Hfiles
                  c u c' Hin Hu Hz Hc')
        as [Hsame | (Hold & j & m & Hn & Henc & Hm & Ha)];
        [left; exact Hsame | right].
      split; [exact Hold|]. exists j, m.
      repeat split; try assumption. eapply encoded_newline; eauto.
  - intros Hend steps step. unfold updateComments.
    split; [|split; [|split; [|split]]].
    + intros more wa. now apply updateCommentsFrom_fuel.
    + intros wa. now apply updateCommentsFrom_steps.
    + apply commentSteps_pages.
    + apply commentSteps_comments.
    + intros wa e wb Hrun.
      rewrite updateCommentsFrom_steps in Hrun by exact Hend.
      apply forM_error in Hrun as (pre & s & post & w2 & Hs & Hbefore & Hx).
      exists pre, s, post, w2. split; [exact Hs|]. split; [exact Hbefore|].
      now apply runCommentStep_fails.
Qed.

(** *** Re-normalization under -reclean *)

Lemma forM_split {A} (body : A -> M world unit) (pre : list A) :
  forall x post w w',
    forM (pre ++ x :: post) body w = (Ok tt, w') ->
    exists wa wb,
      forM pre body w = (Ok tt, wa) /\
      body x wa = (Ok tt, wb) /\
      forM post body wb = (Ok tt, w').
Proof.
  induction pre as [|y pre IH]; intros x post w w' H.
  - simpl in H. unfold bind in H.
    destruct (body x w) as [[[]|e] w1] eqn:E; [|discriminate].
    exists w, w1. auto.
  - simpl in H. unfold bind in H.
    destruct (body y w) as [[[]|e] w1] eqn:E; [|discriminate].
    destruct (IH _ _ _ _ H) as (wa & wb & H1 & H2 & H3).
    exists wa, wb. simpl. unfold bind. rewrite E. auto.
Qed.

Lemma diverge_app (pre p q : path) :
  diverge p q -> diverge (pre ++ p) (pre ++ q).
Proof.
  intros H. induction pre as [|a pre IH]; [exact H|].
  simpl. now apply diverge_next.
Qed.

(** The file of an issue parts from the files of its comments. *)
Lemma issueFile_diverge num id :
  diverge (Root.IssueJSONFile root num) (Root.IssueCommentFile root num id).
Proof.
  unfold Root.IssueJSONFile, Root.IssueCommentFile, Join.
  apply diverge_app. do 2 apply diverge_next. apply diverge_here.
  intros H. apply append_inj_l in H. discriminate.
Qed.

(** What a turn of the re-normalization of comments does: nothing when
    [cleanComment] reports no change, and else a write of the normalized
    comment with the zero version. *)
Lemma recleanComment_run num c w w' :
  recleanComment json root num c w = (Ok tt, w') ->
  exists c',
    fst (cleanComment (Some c)) = Some c' /\
    if snd (cleanComment (Some c))
    then exists id,
        commentID c = Some id /\
        writeDiskJSON json (Root.IssueCommentFile root num id) zeroTime
                      (VComment c') w = (Ok true, w')
    else w' = w.
Proof.
  unfold recleanComment.
  destruct (cleanComment_Some c) as (c' & Hc & Hid & _).
  destruct (cleanComment (Some c)) as [x cleaned]. simpl in Hc. subst x.
  simpl fst. simpl snd. intros H. exists c'. split; [reflexivity|].
  destruct cleaned.
  - unfold bind, deref, ret, fail in H.
    destruct (commentID c') as [id|]; [|discriminate].
    destruct (writeDiskJSON json _ zeroTime (VComment c') w)
      as [[b|e] w1] eqn:E; [|discriminate].
    inversion H; subst. exists id. split; [congruence|].
    now rewrite (writeDiskJSON_zero_wrote _ _ _ _ _ _ E) in E.
  - now inversion H.
Qed.

Lemma recleanComment_frame num c w r w' (p : path) :
  (forall id, diverge p (Root.IssueCommentFile root num id)) ->
  recleanComment json root num c w = (r, w') ->
  nodeAt w' p = nodeAt w p.
Proof.
  intros Hd. unfold recleanComment.
  destruct (cleanComment (Some c)) as [c' [|]].
  - unfold bind, deref, ret, fail.
    destruct c' as [c'|]; [|intros H; inversion H; subst; reflexivity].
    destruct (commentID c') as [id|];
      [|intros H; inversion H; subst; reflexivity].
    destruct (writeDiskJSON json _ zeroTime (VComment c') w)
      as [[b|e] w1] eqn:E; intros H; inversion H; subst;
      eapply writeDiskJSON_frame; eauto.
  - intros H. inversion H; subst. reflexivity.
Qed.

(** What the re-normalization of a stored issue does: the issue is
    normalized and, when [cleanIssue] reports a change, written with the
    zero version; then its stored comments are enumerated with
    [recleanComment]. *)
Lemma recleanIssue_run is_ w is1 w1 :
  recleanIssue json root is_ w = (Ok is1, w1) ->
  exists num wa,
    issueNumber is_ = Some num /\
    is1 = fst (cleanIssue is_) /\
    (if snd (cleanIssue is_)
     then writeDiskJSON json (Root.IssueJSONFile root num) zeroTime
                        (VIssue is1) w = (Ok true, wa)
     else wa = w) /\
    Root.ForeachIssueComment json root num (recleanComment json root num) wa
    = (Ok tt, w1).
Proof.
  unfold recleanIssue.
  destruct (cleanIssue_keeps is_) as [Hn _].
  destruct (cleanIssue is_) as [is' cleaned]. simpl in Hn.
  simpl fst. simpl snd. intros H.
  unfold bind at 1 in H.
  destruct cleaned.
  - unfold bind, deref, ret, fail in H.
    destruct (issueNumber is') as [num|]; [|discriminate].
    destruct (writeDiskJSON json _ zeroTime (VIssue is') w)
      as [[b|e] wa] eqn:E; [|discriminate].
    rewrite (writeDiskJSON_zero_wrote _ _ _ _ _ _ E) in E.
    destruct (Root.ForeachIssueComment json root num _ wa)
      as [[[]|e] w2] eqn:E2; [|discriminate].
    inversion H; subst. exists num, wa. auto.
  - unfold bind, deref, ret, fail in H.
    destruct (issueNumber is') as [num|]; [|discriminate].
    destruct (Root.ForeachIssueComment json root num _ w)
      as [[[]|e] w2] eqn:E2; [|discriminate].
    inversion H; subst. exists num, w. auto.
Qed.

Lemma ForeachIssueComment_frame num w r w' (p : path) :
  (forall id, diverge p (Root.IssueCommentFile root num id)) ->
  Root.ForeachIssueComment json root num (recleanComment json root num) w
  = (r, w') ->
  nodeAt w' p = nodeAt w p.
Proof.
  intros Hd H.
  apply (ForeachIssueComment_preserves
           (fun w w' => nodeAt w' p = nodeAt w p) num
           (recleanComment json root num)) in H; auto.
  - intros w1 w2 w3 H1 H2. congruence.
  - intros c w0 r0 w0'. now apply recleanComment_frame.
Qed.

(** Loading a record leaves the world as it is. *)
Lemma load_world num id w w' :
  (exists r, Root.Issue json root num w = (r, w')) \/
  (exists r, Root.IssueComment json root num id w = (r, w')) ->
  w' = w.
Proof.
  unfold Root.Issue, Root.IssueComment.
  intros [[r H]|[r H]]; destruct (ReadFile (disk w) _); now inversion H.
Qed.

(** C7, as the program has it.  Under -reclean: (1) a stored issue whose
    [Comments] field is absent is passed over, neither normalized nor
    written; (2) for a stored issue whose [Comments] field is present, a
    turn that ends normally has first normalized the issue and, when
    [cleanIssue] reports a change, written it with the zero version (its
    file then holds the normalized record under the modification time it
    had), has then enumerated the stored comments of the issue with
    [recleanComment], and only then has reconciled the comments; (3) in
    that enumeration every stored comment is loaded, normalized and, when
    [cleanComment] reports a change, written with the zero version; (4) a
    second pass that ends normally has taken this turn for every stored
    issue, each loaded from the disk as the turns before it left it. *)
Theorem C7_reclean_pass :
  (forall fuel is_ w,
     issueComments is_ = None ->
     reconcileIssue json client root true fuel is_ w = (Ok tt, w))
  /\
  (forall fuel is_ n w w',
     issueComments is_ = Some n ->
     reconcileIssue json client root true fuel is_ w = (Ok tt, w') ->
     exists num w0 w1,
       issueNumber is_ = Some num /\
       (if snd (cleanIssue is_)
        then writeDiskJSON json (Root.IssueJSONFile root num) zeroTime
                           (VIssue (fst (cleanIssue is_))) w = (Ok true, w0)
        else w0 = w) /\
       Root.ForeachIssueComment json root num (recleanComment json root num)
                                w0 = (Ok tt, w1) /\
       (snd (cleanIssue is_) = true ->
        exists d0 m0 j m,
          nodeAt w (Root.IssueJSONFile root num) = Ok (File d0 m0) /\
          encoded json (VIssue (fst (cleanIssue is_))) j /\
          nodeAt w1 (Root.IssueJSONFile root num) = Ok (File j m) /\
          modTime m = modTime m0) /\
       reconcileIssue json client root false fuel (fst (cleanIssue is_)) w1
       = (Ok tt, w'))
  /\
  (forall num w0 w1 ids,
     Walk (disk w0) (Root.IssueCommentsDir root num)
          (Root.commentWalkFn (Root.IssueCommentsDir root num)) []
     = (Ok tt, ids) ->
     Root.ForeachIssueComment json root num (recleanComment json root num)
                              w0 = (Ok tt, w1) ->
     forall pre id post, sortInts ids = pre ++ id :: post ->
     exists wa wb c c',
       forM pre (fun id => c <- Root.IssueComment json root num id ;;
                           recleanComment json root num c) w0
       = (Ok tt, wa) /\
       Root.IssueComment json root num id wa = (Ok c, wa) /\
       fst (cleanComment (Some c)) = Some c' /\
       if snd (cleanComment (Some c))
       then exists cid,
           commentID c = Some cid /\
           writeDiskJSON json (Root.IssueCommentFile root num cid) zeroTime
                         (VComment c') wa = (Ok true, wb)
       else wb = wa)
  /\
  (forall fuel w w' nums,
     Walk (disk w) (Join root ["issues"])
          (Root.issueWalkFn (Join root ["issues"])) []
     = (Ok tt, nums) ->
     reconcileAll json client root true fuel w = (Ok tt, w') ->
     forall pre num post, sortInts nums = pre ++ num :: post ->
     exists wa wb is_,
       forM pre (fun num => is_ <- Root.Issue json root num ;;
                            reconcileIssue json client root true fuel is_) w
       = (Ok tt, wa) /\
       Root.Issue json root num wa = (Ok is_, wa) /\
       reconcileIssue json client root true fuel is_ wa = (Ok tt, wb)).
Proof.
  split; [|split; [|split]].
  - intros fuel is_ w Hc. unfold reconcileIssue. now rewrite Hc.
  - intros fuel is_ n w w' Hc H.
    unfold reconcileIssue in H. rewrite Hc in H. unfold bind at 1 in H.
    destruct (recleanIssue json root is_ w) as [[is1|e] w1] eqn:Er;
      [|discriminate].
    destruct (recleanIssue_run _ _ _ _ Er)
      as (num & w0 & Hn & His & Hw & Hf).
    exists num, w0, w1. split; [exact Hn|]. subst is1.
    split; [exact Hw|]. split; [exact Hf|]. split.
    + intros Hcl. rewrite Hcl in Hw.
      destruct (proj2 (writeDiskJSON_zero json _ _ _) _ _ Hw)
        as [_ (d0 & m0 & j & m & H0 & Henc & H1 & Hm)].
      exists d0, m0, j, m. repeat split; auto.
      rewrite <- H1. eapply ForeachIssueComment_frame; [|exact Hf].
      intros id. apply issueFile_diverge.
    + unfold reconcileIssue.
      rewrite (proj2 (cleanIssue_keeps is_)), Hc.
      unfold bind at 1. unfold ret at 1. exact H.
  - intros num w0 w1 ids Hwalk H pre id post Hsplit.
    unfold Root.ForeachIssueComment in H. rewrite Hwalk, Hsplit in H.
    destruct (forM_split _ _ _ _ _ _ H) as (wa & wb & H1 & H2 & _).
    unfold bind in H2.
    destruct (Root.IssueComment json root num id wa) as [[c|e] wx] eqn:El;
      [|discriminate].
    assert (wx = wa) by (eapply (load_world num id); right; eexists; exact El). subst wx.
    destruct (recleanComment_run _ _ _ _ H2) as (c' & Hc' & Hrun).
    exists wa, wb, c, c'. auto.
  - intros fuel w w' nums Hwalk H pre num post Hsplit.
    unfold reconcileAll, Root.ForeachIssue in H. rewrite Hwalk, Hsplit in H.
    destruct (forM_split _ _ _ _ _ _ H) as (wa & wb & H1 & H2 & _).
    unfold bind in H2.
    destruct (Root.Issue json root num wa) as [[is_|e] wx] eqn:El;
      [|discriminate].
    assert (wx = wa) by (eapply (load_world num 0); left; eexists; exact El). subst wx.
    exists wa, wb, is_. auto.
Qed.

End SecondPass.

(** *** C5 and C7 at work *)

Lemma C5_witness :
  reconcileIssue Example.codec Example.client Example.root false 10
                 (Example.stored 42 2) (Example.start Example.twoComments)
  = (Ok tt, Example.start Example.twoComments)
  /\
  exists wb,
    reconcileIssue Example.codec Example.client Example.root false 10
                   (Example.stored 42 3) (Example.start Example.stored42)
    = (Ok tt, wb) /\
    commentPagesRequested (trace wb) = [(42, 1); (42, 7)] /\
    upToDate (disk wb) (Root.IssueCommentFile Example.root 42 3) 70 = true /\
    (exists j m,
       nodeAt wb (Root.IssueCommentFile Example.root 42 3) = Ok (File j m) /\
       j = Example.commentBytes 3 /\
       modTime m = 70 /\ accTime m = 70) /\
    (forall more,
       updateComments Example.codec Example.client Example.root (10 + more) 42
                      (Example.start Example.stored42) = (Ok tt, wb)) /\
    (exists wf pre s post w2,
       updateComments Example.codec Example.client Example.root 10 42
                      (Example.start Example.failing42) = (Err ENOSPC, wf) /\
       commentSteps Example.client 10 42 1 = pre ++ s :: post /\
       forM pre (runCommentStep Example.codec Example.client Example.root 42)
            (Example.start Example.failing42) = (Ok tt, w2) /\
       commentStepFails Example.codec Example.client Example.root 42
                        s w2 ENOSPC wf).
Proof.
  split.
  - destruct (C5_reconcileIssue Example.codec Example.client Example.root
                false 10 (Example.stored 42 2) 2 42
                (Example.start Example.twoComments) _ _
                eq_refl eq_refl eq_refl) as (_ & Hcmp & _).
    apply (proj1 (Hcmp 2 eq_refl)). reflexivity.
  - destruct (C5_reconcileIssue Example.codec Example.client Example.root
                false 10 (Example.stored 42 3) 3 42
                (Example.start Example.stored42) _ _
                eq_refl eq_refl eq_refl) as (_ & Hcmp & Hupd & Hend).
    set (run := updateComments Example.codec Example.client Example.root 10 42
                  (Example.start Example.stored42)).
    assert (Hrun : run = (Ok tt, snd run)) by (vm_compute; reflexivity).
    assert (Hall : Forall identified
                     (fetchedComments Example.client 10 42 1)).
    { match goal with
      | |- Forall _ ?l =>
          let l' := eval vm_compute in l in change l with l'
      end.
      repeat (apply Forall_cons;
              [eexists; split;
               [reflexivity | unfold isInt, minInt, maxInt; lia]|]).
      apply Forall_nil. }
    assert (Hnd : NoDup (map commentID
                           (fetchedComments Example.client 10 42 1))).
    { vm_compute. repeat constructor; simpl; intuition discriminate. }
    assert (Hin : In (Example.comment 3 70)
                     (fetchedComments Example.client 10 42 1)).
    { vm_compute. auto. }
    destruct (proj2 (Hupd _ _ Hrun) Hall Hnd (Example.comment 3 70) 3 70
                Hin eq_refl eq_refl eq_refl)
      as (Hup & c' & Hc' & Hfile).
    exists (snd run). split; [|split; [|split; [|split; [|split]]]].
    + rewrite (proj2 (Hcmp 0 eq_refl)); [exact Hrun | discriminate].
    + rewrite (proj1 (Hupd _ _ Hrun)). reflexivity.
    + exact Hup.
    + vm_compute in Hc'. inversion Hc'; subst c'; clear Hc'.
      destruct Hfile as [[Hold _] | (_ & j & m & Hn & Henc & _ & Hm & Ha)];
        [vm_compute in Hold; discriminate Hold|].
      exists j, m. repeat split; try assumption.
      encoded_inv Henc. vm_compute. reflexivity.
    + intros more.
      rewrite (proj1 (Hend ltac:(vm_compute; reflexivity)) more
                 (Example.start Example.stored42)).
      exact Hrun.
    + set (bad := updateComments Example.codec Example.client Example.root
                    10 42 (Example.start Example.failing42)).
      assert (Hbad : bad = (Err ENOSPC, snd bad)) by (vm_compute; reflexivity).
      destruct (Hend ltac:(vm_compute; reflexivity))
        as (_ & _ & _ & _ & Herr).
      destruct (Herr _ _ _ Hbad) as (pre & s & post & w2 & Hs & Hpre & Hf).
      exists (snd bad), pre, s, post, w2. auto.
Defined.

Lemma C7_witness :
  exists w1 j m,
    encoded Example.codec (VIssue (fst (cleanIssue Example.dirtyIssue))) j /\
    j = Example.issueBytes 42 1 /\
    nodeAt w1 Example.file42 = Ok (File j m) /\
    modTime m = 500.
Proof.
  set (w := Example.start Example.dirty).
  set (run := reconcileIssue Example.codec Example.client Example.root true
                10 Example.dirtyIssue w).
  assert (Hrun : run = (Ok tt, snd run)) by (vm_compute; reflexivity).
  destruct (proj1 (proj2 (C7_reclean_pass Example.codec Example.client
                            Example.root))
                  10%nat Example.dirtyIssue 1 w (snd run) eq_refl Hrun)
    as (num & w0 & w1 & Hn & _ & _ & Hfin & _).
  vm_compute in Hn. inversion Hn; subst num.
  destruct (Hfin eq_refl) as (d0 & m0 & j & m & H0 & Henc & H1 & Hm).
  vm_compute in H0. inversion H0; subst d0 m0.
  exists w1, j, m. split; [exact Henc|]. split; [|split; assumption].
  encoded_inv Henc. vm_compute. reflexivity.
Defined.

(** C7 as stated fails: issue 7 is stored without the [Comments] field
    and with a URL, which [cleanIssue] would drop; the pass under
    -reclean ends normally and has changed nothing, on disk or elsewhere. *)
Lemma C7_counterexample :
  let w := Example.start Example.orphan in
  Root.Issue Example.codec Example.root 7 w = (Ok Example.orphanIssue, w) /\
  snd (cleanIssue Example.orphanIssue) = true /\
  reconcileAll Example.codec Example.client Example.root true 10 w
  = (Ok tt, w).
Proof. vm_compute. repeat split. Qed.

(** ** The normalizer's verdict *)

Lemma cleanStr_eq (s : option string) (c : bool) :
  cleanStr s c = (None, present s || c).
Proof. destruct s; reflexivity. Qed.

(** For a user the verdict is accurate. *)
Lemma cleanUser_verdict (u : option User) :
  (snd (cleanUser u) = true -> fst (cleanUser u) <> u) /\
  (snd (cleanUser u) = false -> fst (cleanUser u) = u).
Proof.
  destruct u as [u|]; simpl; [|split; [discriminate | reflexivity]].
  rewrite !cleanStr_eq. destruct u. simpl.
  repeat match goal with
         | |- context [present ?a] =>
             destruct a; simpl;
             [split; [intros _ H; discriminate H | discriminate]|]
         end.
  split; [discriminate | reflexivity].
Qed.

(** For the reactions a reported change is a change; an unreported one
    is possible, and is the clearing of zero counters. *)
Lemma cleanReactionsPtr_verdict (rp : option Reactions) :
  (snd (cleanReactionsPtr rp) = true -> fst (cleanReactionsPtr rp) <> rp) /\
  (snd (cleanReactionsPtr rp) = false ->
   fst (cleanReactionsPtr rp)
   = option_map (fun r => fst (cleanReactions r)) rp).
Proof.
  destruct rp as [r|]; simpl; [|split; [discriminate | reflexivity]].
  destruct (TotalCount r) as [n|] eqn:En; simpl;
    [|split; [discriminate | discriminate]].
  destruct (n =? 0); simpl; [split; discriminate|].
  unfold cleanReactions. rewrite cleanStr_eq. simpl.
  destruct r. simpl in *. destruct reactionsURL0; simpl.
  - split; [intros _ H; discriminate H | discriminate].
  - split; [discriminate | reflexivity].
Qed.

(** For a comment: a reported change is a change, and when none is
    reported the comment is as it was but for its reactions.  What C3
    asks for beyond this is what the counters break. *)
Lemma cleanComment_verdict (c : IssueComment) :
  (snd (cleanComment (Some c)) = true ->
   fst (cleanComment (Some c)) <> Some c) /\
  (snd (cleanComment (Some c)) = false ->
   fst (cleanComment (Some c))
   = Some (withReactions c (fst (cleanReactionsPtr (commentReactions c))))).
Proof.
  pose proof (cleanUser_verdict (commentUser c)) as [Hu Hu'].
  pose proof (cleanReactionsPtr_verdict (commentReactions c)) as [Hr _].
  unfold cleanComment, withReactions.
  destruct (cleanUser (commentUser c)) as [u' cu].
  destruct (cleanReactionsPtr (commentReactions c)) as [r' cr].
  rewrite !cleanStr_eq. simpl in *. destruct c. simpl in *.
  destruct commentIssueURL0; simpl;
    [split; [intros _ H; discriminate H | discriminate]|].
  destruct commentHTMLURL0; simpl;
    [split; [intros _ H; discriminate H | discriminate]|].
  destruct commentURL0; simpl;
    [split; [intros _ H; discriminate H | discriminate]|].
  destruct cr; simpl.
  - split; [|discriminate]. intros _ H. inversion H.
    now apply (Hr eq_refl).
  - destruct cu; simpl.
    + split; [|discriminate]. intros _ H. inversion H.
      now apply (Hu eq_refl).
    + split; [discriminate|]. intros _. now rewrite (Hu' eq_refl).
Qed.


(** C3 fails on the program.  [cleanReactions] clears a reaction counter
    that is zero without raising [cleaned]: for a comment, and for an
    issue, whose reactions have a non-zero total and a zero counter, and
    nothing else to drop, the normalizer changes the record and reports
    no change. *)
Theorem C3_verdict_misses_cleared_counter :
  (exists c',
     cleanComment (Some Example.reacted) = (Some c', false) /\
     c' <> Example.reacted /\
     commentReactions c'
     = Some (mkReactions (Some 1) (Some 1) None None None None None None))
  /\
  (exists i',
     cleanIssue Example.reactedIssue = (i', false) /\
     i' <> Example.reactedIssue /\
     issueReactions i'
     = Some (mkReactions (Some 1) (Some 1) None None None None None None)).
Proof.
  split; eexists; (split; [vm_compute; reflexivity|]);
    (split; [discriminate | reflexivity]).
Qed.

(* ================================================================== *)
(** * Further properties of the code *)
(* ================================================================== *)

(** ** writeDiskJSON: repeated writes, other files, reading back *)

(** With a non-zero version that the file already carries, a call leaves
    at once. *)
Lemma writeDiskJSON_current json file v val w :
  IsZero v = false ->
  upToDate (disk w) file v = true ->
  writeDiskJSON json file v val w = (Ok false, w).
Proof.
  intros Hv Hup. unfold writeDiskJSON, bind, gets, lift, ret.
  rewrite writeDecision_nonzero by exact Hv.
  unfold upToDate in Hup.
  destruct (Stat (disk w) file) as [fi|e]; [|discriminate].
  now rewrite Hup.
Qed.

Lemma append_snoc_inj (a : string) : forall (b : string) (x y : ascii),
  (a ++ String x EmptyString)%string = (b ++ String y EmptyString)%string ->
  a = b /\ x = y.
Proof.
  induction a as [|c a IH]; intros [|d b] x y H; simpl in H.
  - inversion H. auto.
  - inversion H as [[Hc Hrest]]. destruct b; discriminate.
  - inversion H as [[Hc Hrest]]. destruct a; discriminate.
  - inversion H as [[Hc Hrest]]. apply IH in Hrest as [-> ->]. auto.
Qed.

(** No name of an issue file is the name of a comments directory. *)
Lemma json_name_not_comments (a b : string) :
  (a ++ ".json")%string <> (b ++ ".comments")%string.
Proof.
  change ".json"%string with (".jso" ++ "n")%string.
  change ".comments"%string with (".comment" ++ "s")%string.
  rewrite <- !append_assoc. intros H.
  apply append_snoc_inj in H as [_ H]. discriminate.
Qed.

(** The file of an issue parts from the file of any comment of any
    issue. *)
Lemma issueFile_commentFile_diverge (r : Root.t) (n m id : Z) :
  diverge (Root.IssueJSONFile r n) (Root.IssueCommentFile r m id).
Proof.
  unfold Root.IssueJSONFile, Root.IssueCommentFile, Join.
  apply diverge_app. apply diverge_next.
  destruct (string_dec (Sprintf03d (Z.rem n 1000)) (Sprintf03d (Z.rem m 1000)))
    as [->|Hne].
  - apply diverge_next, diverge_here, json_name_not_comments.
  - now apply diverge_here.
Qed.

Lemma diverge_sym (p q : path) : diverge p q -> diverge q p.
Proof.
  induction 1 as [a b p q Hab | a p q Hd IH].
  - apply diverge_here. congruence.
  - now apply diverge_next.
Qed.

(** The file of a comment tells its issue and its identity. *)
Lemma IssueCommentFile_inj2 (r : Root.t) (n m a b : Z) :
  isInt n -> isInt m -> isInt a -> isInt b ->
  Root.IssueCommentFile r n a = Root.IssueCommentFile r m b ->
  n = m /\ a = b.
Proof.
  unfold Root.IssueCommentFile, Join. intros Hn Hm Ha Hb H.
  apply app_inv_head in H. injection H as _ Hdir Hname.
  apply append_inj_r in Hdir, Hname.
  split; now apply Itoa_inj.
Qed.

(** X1.  A second call of [writeDiskJSON] for the same file with the same
    non-zero version writes nothing and reports no write, whatever value
    it is given: once a call with that version has returned without
    error, the version alone decides, and the content is not compared. *)
Theorem X1_writeDiskJSON_same_version_never_rewrites
  json file v val val' w wrote w' :
  IsZero v = false ->
  writeDiskJSON json file v val w = (Ok wrote, w') ->
  writeDiskJSON json file v val' w' = (Ok false, w').
Proof.
  intros Hv H. apply writeDiskJSON_current; [exact Hv|].
  eapply writeDiskJSON_upToDate; eauto.
Qed.

Lemma X1_witness :
  exists w',
    writeDiskJSON Example.codec Example.file42 500
                  (VIssue (Example.issue 42 3 500))
                  (Example.start Example.emptyDisk) = (Ok true, w') /\
    writeDiskJSON Example.codec Example.file42 500
                  (VIssue (Example.issue 42 4 500)) w' = (Ok false, w').
Proof.
  set (run := writeDiskJSON Example.codec Example.file42 500
                (VIssue (Example.issue 42 3 500))
                (Example.start Example.emptyDisk)).
  assert (Hrun : run = (Ok true, snd run)) by (vm_compute; reflexivity).
  exists (snd run). split; [exact Hrun|].
  exact (X1_writeDiskJSON_same_version_never_rewrites
           Example.codec Example.file42 500 _
           (VIssue (Example.issue 42 4 500)) _ true (snd run) eq_refl Hrun).
Defined.

(** X2.  A call of [writeDiskJSON] for the file of one record leaves the
    files of all other records as they were, bytes and timestamps,
    whether it succeeds or fails: a write of the file of issue [num]
    touches no file of another issue and no comment file, and a write of
    the file of comment [id] of issue [num] touches no issue file and no
    file of another comment. *)
Theorem X2_writeDiskJSON_leaves_other_records
  json (root : Root.t) v val w r w' (num id m id' : Z) :
  isInt num -> isInt id -> isInt m -> isInt id' ->
  (writeDiskJSON json (Root.IssueJSONFile root num) v val w = (r, w') ->
   (m <> num ->
    nodeAt w' (Root.IssueJSONFile root m)
    = nodeAt w (Root.IssueJSONFile root m)) /\
   nodeAt w' (Root.IssueCommentFile root m id')
   = nodeAt w (Root.IssueCommentFile root m id'))
  /\
  (writeDiskJSON json (Root.IssueCommentFile root num id) v val w = (r, w') ->
   nodeAt w' (Root.IssueJSONFile root m)
   = nodeAt w (Root.IssueJSONFile root m) /\
   (m <> num \/ id' <> id ->
    nodeAt w' (Root.IssueCommentFile root m id')
    = nodeAt w (Root.IssueCommentFile root m id'))).
Proof.
  intros Hnum Hid Hm Hid'. split; intros H; split.
  - intros Hne. eapply writeDiskJSON_frame; [|exact H].
    apply diverge_same_length.
    + unfold Root.IssueJSONFile, Join. now rewrite !length_app.
    + intros Heq. apply IssueJSONFile_inj in Heq; auto.
  - eapply writeDiskJSON_frame; [|exact H].
    apply diverge_sym, issueFile_commentFile_diverge.
  - eapply writeDiskJSON_frame; [|exact H].
    apply issueFile_commentFile_diverge.
  - intros Hne. eapply writeDiskJSON_frame; [|exact H].
    apply diverge_same_length.
    + unfold Root.IssueCommentFile, Join. now rewrite !length_app.
    + intros Heq. apply IssueCommentFile_inj2 in Heq as [-> ->]; auto.
      destruct Hne; congruence.
Qed.

Lemma X2_witness :
  let w := Example.start Example.dirty in
  let run := writeDiskJSON Example.codec (Root.IssueJSONFile Example.root 42)
               600 (VIssue (Example.stored 42 1)) w in
  fst run = Ok true /\
  nodeAt (snd run) (Root.IssueCommentFile Example.root 42 1)
  = nodeAt w (Root.IssueCommentFile Example.root 42 1).
Proof.
  intros w run. split; [vm_compute; reflexivity|].
  assert (Hint : forall n, -1000 <= n <= 1000 -> isInt n)
    by (unfold isInt, minInt, maxInt; lia).
  destruct (X2_writeDiskJSON_leaves_other_records
              Example.codec Example.root 600 (VIssue (Example.stored 42 1))
              w (fst run) (snd run) 42 1 42 1
              (Hint 42 ltac:(lia)) (Hint 1 ltac:(lia))
              (Hint 42 ltac:(lia)) (Hint 1 ltac:(lia))) as [Hissue _].
  apply Hissue. apply surjective_pairing.
Defined.

(** X3.  What [writeDiskJSON] has written is what [Issue] and
    [IssueComment] load: when the decoder reads back what the encoder
    produces for a record, then after a call that reports a write of the
    record to the file of issue [num] (of comment [id] of issue [num]),
    [Issue num] ([IssueComment num id]) returns that record, and leaves
    the disk alone. *)
Theorem X3_written_record_loads_back
  json (root : Root.t) (num id : Z) v (is_ : Issue) (c : IssueComment) w w' :
  (forall j, encoded json (VIssue is_) j -> UnmarshalIssue json j = Ok is_) ->
  (forall j, encoded json (VComment c) j -> UnmarshalComment json j = Ok c) ->
  (writeDiskJSON json (Root.IssueJSONFile root num) v (VIssue is_) w
   = (Ok true, w') ->
   Root.Issue json root num w' = (Ok is_, w'))
  /\
  (writeDiskJSON json (Root.IssueCommentFile root num id) v (VComment c) w
   = (Ok true, w') ->
   Root.IssueComment json root num id w' = (Ok c, w')).
Proof.
  intros Hi Hc. split; intros H;
    destruct (writeDiskJSON_wrote _ _ _ _ _ _ H)
      as (ts & j & m & _ & Henc & Hn & _).
  - unfold Root.Issue, ReadFile. unfold nodeAt in Hn. rewrite Hn.
    now rewrite (Hi j Henc).
  - unfold Root.IssueComment, ReadFile. unfold nodeAt in Hn. rewrite Hn.
    now rewrite (Hc j Henc).
Qed.

Lemma X3_witness :
  let run := writeDiskJSON Example.codec (Root.IssueJSONFile Example.root 42)
               600 (VIssue (Example.stored 42 1))
               (Example.start Example.dirty) in
  Root.Issue Example.codec Example.root 42 (snd run)
  = (Ok (Example.stored 42 1), snd run).
Proof.
  intros run.
  assert (Hrun : run = (Ok true, snd run)) by (vm_compute; reflexivity).
  refine (proj1 (X3_written_record_loads_back
                   Example.codec Example.root 42 1 600
                   (Example.stored 42 1)
                   (mkIssueComment (Some 1) None None None None None None None)
                   (Example.start Example.dirty) (snd run) _ _) Hrun).
  - intros j Henc. encoded_inv Henc. vm_compute. reflexivity.
  - intros j Henc. encoded_inv Henc. vm_compute. reflexivity.
Defined.

(** ** The normalizer: what it computes *)

Lemma dropField_eq {A} (p : option A) (c : bool) :
  dropField p c = (None, present p || c).
Proof. destruct p; reflexivity. Qed.

Lemma cleanLabels_eq (ls : list Label) : forall c,
  cleanLabels ls c
  = (map (fun l => fst (cleanLabel l)) ls,
     c || existsb (fun l => snd (cleanLabel l)) ls).
Proof.
  induction ls as [|l ls IH]; intros c; simpl.
  - now rewrite orb_false_r.
  - destruct (cleanLabel l) as [l' cl]. rewrite IH. simpl.
    f_equal. destruct cl, c; reflexivity.
Qed.

Lemma cleanUsers_eq (us : list (option User)) : forall c,
  cleanUsers us c
  = (map (fun u => fst (cleanUser u)) us,
     c || existsb (fun u => snd (cleanUser u)) us).
Proof.
  induction us as [|u us IH]; intros c; simpl.
  - now rewrite orb_false_r.
  - destruct (cleanUser u) as [u' cu]. rewrite IH. simpl.
    f_equal. destruct cu, c; reflexivity.
Qed.

(** The issue [cleanIssue] returns, and its verdict, field by field. *)
Lemma cleanIssue_eq (i : Issue) :
  cleanIssue i
  = (mkIssue (issueNumber i) (issueTitle i) (fst (cleanUser (issueUser i)))
             (map (fun l => fst (cleanLabel l)) (issueLabels i))
             (fst (cleanUser (issueAssignee i)))
             (issueComments i) (issueUpdatedAt i) None None
             (fst (cleanIssueMilestone (issueMilestone i)))
             (fst (cleanReactionsPtr (issueReactions i)))
             (map (fun u => fst (cleanUser u)) (keptAssignees i)),
     snd (cleanUser (issueUser i))
     || present (issueURL i) || present (issueHTMLURL i)
     || existsb (fun l => snd (cleanLabel l)) (issueLabels i)
     || snd (cleanReactionsPtr (issueReactions i))
     || snd (cleanUser (issueAssignee i))
     || (Z.of_nat (List.length (issueAssignees i)) =? 1)
     || existsb (fun u => snd (cleanUser u)) (keptAssignees i)
     || snd (cleanIssueMilestone (issueMilestone i))).
Proof.
  unfold cleanIssue, keptAssignees.
  destruct (cleanUser (issueUser i)) as [u cu].
  rewrite !cleanStr_eq, cleanLabels_eq.
  destruct (cleanReactionsPtr (issueReactions i)) as [r cr].
  destruct (cleanUser (issueAssignee i)) as [a ca].
  destruct (Z.of_nat (List.length (issueAssignees i)) =? 1);
    rewrite cleanUsers_eq;
    destruct (cleanIssueMilestone (issueMilestone i)) as [m cm]; simpl;
    f_equal;
    destruct cu, (present (issueURL i)), (present (issueHTMLURL i)),
      (existsb (fun l => snd (cleanLabel l)) (issueLabels i)), cr, ca, cm;
    simpl; rewrite ?orb_true_r, ?orb_false_r; reflexivity.
Qed.

(** The comment [cleanComment] returns, and its verdict. *)
Lemma cleanComment_eq (c : IssueComment) :
  cleanComment (Some c)
  = (Some (mkIssueComment (commentID c) (commentBody c)
                          (fst (cleanUser (commentUser c)))
                          (fst (cleanReactionsPtr (commentReactions c)))
                          (commentUpdatedAt c) None None None),
     snd (cleanUser (commentUser c))
     || snd (cleanReactionsPtr (commentReactions c))
     || present (commentURL c) || present (commentHTMLURL c)
     || present (commentIssueURL c)).
Proof.
  unfold cleanComment.
  destruct (cleanUser (commentUser c)) as [u cu].
  destruct (cleanReactionsPtr (commentReactions c)) as [r cr].
  rewrite !cleanStr_eq. simpl. f_equal.
  destruct cu, cr, (present (commentURL c)), (present (commentHTMLURL c)),
    (present (commentIssueURL c)); reflexivity.
Qed.

(** ** The normalizer: a second pass finds nothing *)

Lemma cleanUser_idem (u : option User) :
  cleanUser (fst (cleanUser u)) = (fst (cleanUser u), false).
Proof.
  destruct u as [u|]; [|reflexivity].
  unfold cleanUser. rewrite !cleanStr_eq. simpl. reflexivity.
Qed.

Lemma cleanLabel_idem (l : Label) :
  cleanLabel (fst (cleanLabel l)) = (fst (cleanLabel l), false).
Proof.
  unfold cleanLabel. rewrite !cleanStr_eq. simpl. reflexivity.
Qed.

Lemma cleanIssueMilestone_idem (m : option Milestone) :
  cleanIssueMilestone (fst (cleanIssueMilestone m))
  = (fst (cleanIssueMilestone m), false).
Proof.
  destruct m as [m|]; [|reflexivity].
  unfold cleanIssueMilestone. rewrite !cleanStr_eq, !dropField_eq. simpl.
  reflexivity.
Qed.

Lemma dropZero_idem (v : option Z) : dropZero (dropZero v) = dropZero v.
Proof.
  destruct v as [n|]; [|reflexivity].
  simpl. destruct (n =? 0) eqn:E; [reflexivity|]. simpl. now rewrite E.
Qed.

Lemma cleanReactionsPtr_idem (rp : option Reactions) :
  cleanReactionsPtr (fst (cleanReactionsPtr rp))
  = (fst (cleanReactionsPtr rp), false).
Proof.
  destruct rp as [r|]; [|reflexivity].
  unfold cleanReactionsPtr, cleanReactions. rewrite cleanStr_eq.
  destruct (TotalCount r) as [n|] eqn:En; [|reflexivity].
  destruct (n =? 0) eqn:E0; [reflexivity|].
  simpl. rewrite E0, !dropZero_idem. reflexivity.
Qed.

Lemma existsb_map_false {A} (f : A -> A) (g : A -> bool) (l : list A) :
  (forall x, g (f x) = false) -> existsb g (map f l) = false.
Proof.
  intros H. induction l as [|x l IH]; [reflexivity|].
  simpl. now rewrite H, IH.
Qed.

Lemma map_map_idem {A} (f : A -> A) (l : list A) :
  (forall x, f (f x) = f x) -> map f (map f l) = map f l.
Proof.
  intros H. induction l as [|x l IH]; [reflexivity|].
  simpl. now rewrite H, IH.
Qed.

(** After [cleanIssue] the list of assignees never has one element. *)
Lemma keptAssignees_length (i : Issue) (f : option User -> option User) :
  (Z.of_nat (List.length (map f (keptAssignees i))) =? 1) = false.
Proof.
  unfold keptAssignees.
  destruct (Z.of_nat (List.length (issueAssignees i)) =? 1) eqn:E;
    [reflexivity|].
  now rewrite length_map.
Qed.

Lemma cleanIssue_idem (i : Issue) :
  cleanIssue (fst (cleanIssue i)) = (fst (cleanIssue i), false).
Proof.
  rewrite (cleanIssue_eq i). simpl fst.
  match goal with |- cleanIssue ?x = _ => set (i' := x) end.
  rewrite (cleanIssue_eq i').
  assert (Hk : keptAssignees i' = issueAssignees i').
  { unfold keptAssignees at 1. subst i'. simpl.
    now rewrite keptAssignees_length. }
  rewrite Hk. subst i'. simpl.
  rewrite !cleanUser_idem, cleanIssueMilestone_idem,
    cleanReactionsPtr_idem, keptAssignees_length. simpl.
  rewrite !map_map_idem
    by (intros x; first [now rewrite cleanLabel_idem
                        | now rewrite cleanUser_idem]).
  rewrite !existsb_map_false
    by (intros x; first [now rewrite cleanLabel_idem
                        | now rewrite cleanUser_idem]).
  reflexivity.
Qed.

Lemma cleanComment_idem (c : option IssueComment) :
  cleanComment (fst (cleanComment c)) = (fst (cleanComment c), false).
Proof.
  destruct c as [c|]; [|reflexivity].
  rewrite (cleanComment_eq c). simpl fst. rewrite cleanComment_eq. simpl.
  now rewrite cleanUser_idem, cleanReactionsPtr_idem.
Qed.

(** X4.  The normalizer is idempotent: applied to an issue or a comment
    it has already normalized, [cleanIssue] ([cleanComment]) returns the
    record as it is and reports no change.  So a re-normalization pass
    over a store that a pass has gone through finds nothing to write. *)
Theorem X4_normalizer_idempotent :
  (forall i : Issue,
     cleanIssue (fst (cleanIssue i)) = (fst (cleanIssue i), false)) /\
  (forall c : option IssueComment,
     cleanComment (fst (cleanComment c)) = (fst (cleanComment c), false)).
Proof.
  split; [exact cleanIssue_idem | exact cleanComment_idem].
Qed.

(** ** The normalizer: what its verdict tells *)

Lemma cleanLabel_verdict (l : Label) :
  (snd (cleanLabel l) = true -> fst (cleanLabel l) <> l) /\
  (snd (cleanLabel l) = false -> fst (cleanLabel l) = l).
Proof.
  unfold cleanLabel. rewrite !cleanStr_eq. destruct l. simpl.
  repeat match goal with
         | |- context [present ?a] =>
             destruct a; simpl;
             [split; [intros _ H; discriminate H | discriminate]|]
         end.
  split; [discriminate | reflexivity].
Qed.

Lemma cleanIssueMilestone_verdict (m : option Milestone) :
  (snd (cleanIssueMilestone m) = true -> fst (cleanIssueMilestone m) <> m) /\
  (snd (cleanIssueMilestone m) = false -> fst (cleanIssueMilestone m) = m).
Proof.
  destruct m as [m|]; simpl; [|split; [discriminate | reflexivity]].
  rewrite !cleanStr_eq, !dropField_eq. destruct m. simpl.
  repeat match goal with
         | |- context [present ?a] =>
             destruct a; simpl; rewrite ?orb_true_r;
             [split; [intros _ H; discriminate H | discriminate]|]
         end.
  split; [discriminate | reflexivity].
Qed.

(** A loop over a slice whose body has an accurate verdict has one. *)
Lemma map_verdict {A} (f : A -> A * bool) (l : list A) :
  (forall x, (snd (f x) = true -> fst (f x) <> x) /\
             (snd (f x) = false -> fst (f x) = x)) ->
  (existsb (fun x => snd (f x)) l = true -> map (fun x => fst (f x)) l <> l) /\
  (existsb (fun x => snd (f x)) l = false -> map (fun x => fst (f x)) l = l).
Proof.
  intros Hf. induction l as [|x l [IH1 IH2]]; simpl.
  - split; [discriminate | reflexivity].
  - destruct (Hf x) as [H1 H2]. destruct (snd (f x)); simpl.
    + split; [|discriminate]. intros _ H. inversion H.
      now apply (H1 eq_refl).
    + split.
      * intros He H. inversion H. now apply (IH1 He).
      * intros He. now rewrite (H2 eq_refl), (IH2 He).
Qed.

(** Dropping the one assignee is a change. *)
Lemma keptAssignees_verdict (i : Issue) :
  (Z.of_nat (List.length (issueAssignees i)) =? 1) = true ->
  map (fun u => fst (cleanUser u)) (keptAssignees i) <> issueAssignees i.
Proof.
  intros H. unfold keptAssignees. rewrite H. simpl.
  destruct (issueAssignees i); [discriminate H | discriminate].
Qed.

Lemma cleanIssue_verdict (i : Issue) :
  (snd (cleanIssue i) = true -> fst (cleanIssue i) <> i) /\
  (snd (cleanIssue i) = false ->
   fst (cleanIssue i)
   = issueWithReactions i (fst (cleanReactionsPtr (issueReactions i)))).
Proof.
  pose proof (cleanUser_verdict (issueUser i)) as [Hu Hu'].
  pose proof (cleanUser_verdict (issueAssignee i)) as [Ha Ha'].
  pose proof (cleanReactionsPtr_verdict (issueReactions i)) as [Hr _].
  pose proof (cleanIssueMilestone_verdict (issueMilestone i)) as [Hm Hm'].
  pose proof (map_verdict cleanLabel (issueLabels i) cleanLabel_verdict)
    as [Hl Hl'].
  pose proof (map_verdict cleanUser (keptAssignees i) cleanUser_verdict)
    as [Hs Hs'].
  pose proof (keptAssignees_verdict i) as Hone.
  rewrite cleanIssue_eq. unfold issueWithReactions. simpl.
  assert (Hkept : (Z.of_nat (List.length (issueAssignees i)) =? 1) = false ->
                  keptAssignees i = issueAssignees i)
    by (intros E; unfold keptAssignees; now rewrite E).
  destruct (snd (cleanUser (issueUser i)));
    [split; [|discriminate]; intros _ H; destruct i; inversion H;
     now apply (Hu eq_refl)|].
  destruct (issueURL i) eqn:Eurl;
    [split; [|discriminate]; intros _ H; destruct i; simpl in *;
     inversion H; congruence|].
  destruct (issueHTMLURL i) eqn:Ehtml;
    [split; [|discriminate]; intros _ H; destruct i; simpl in *;
     inversion H; congruence|].
  destruct (existsb (fun l => snd (cleanLabel l)) (issueLabels i));
    [split; [|discriminate]; intros _ H; destruct i; inversion H;
     now apply (Hl eq_refl)|].
  destruct (snd (cleanReactionsPtr (issueReactions i)));
    [split; [|discriminate]; intros _ H; destruct i; inversion H;
     now apply (Hr eq_refl)|].
  destruct (snd (cleanUser (issueAssignee i)));
    [split; [|discriminate]; intros _ H; destruct i; inversion H;
     now apply (Ha eq_refl)|].
  destruct (Z.of_nat (List.length (issueAssignees i)) =? 1);
    [split; [|discriminate]; intros _ H; destruct i; inversion H;
     now apply (Hone eq_refl)|].
  rewrite (Hkept eq_refl) in *.
  destruct (existsb (fun u => snd (cleanUser u)) (issueAssignees i));
    [split; [|discriminate]; intros _ H; destruct i; inversion H;
     now apply (Hs eq_refl)|].
  destruct (snd (cleanIssueMilestone (issueMilestone i)));
    [split; [|discriminate]; intros _ H; destruct i; inversion H;
     now apply (Hm eq_refl)|].
  simpl. split; [discriminate|]. intros _.
  now rewrite (Hu' eq_refl), (Ha' eq_refl), (Hm' eq_refl), (Hl' eq_refl),
    (Hs' eq_refl).
Qed.

(** X5.  The verdict of the normalizer never reports a change that did
    not happen, for an issue and for a comment: when [cleanIssue]
    ([cleanComment]) returns true the record it returns differs from the
    one it was given.  And when it returns false the record is as it was
    in every field but the reactions, which are what [cleanReactionsPtr]
    makes of them. *)
Theorem X5_normalizer_verdict (i : Issue) (c : IssueComment) :
  ((snd (cleanIssue i) = true -> fst (cleanIssue i) <> i) /\
   (snd (cleanIssue i) = false ->
    fst (cleanIssue i)
    = issueWithReactions i (fst (cleanReactionsPtr (issueReactions i)))))
  /\
  ((snd (cleanComment (Some c)) = true ->
    fst (cleanComment (Some c)) <> Some c) /\
   (snd (cleanComment (Some c)) = false ->
    fst (cleanComment (Some c))
    = Some (withReactions c (fst (cleanReactionsPtr (commentReactions c)))))).
Proof.
  split; [apply cleanIssue_verdict | apply cleanComment_verdict].
Qed.

Lemma X5_witness :
  fst (cleanIssue Example.dirtyIssue) <> Example.dirtyIssue /\
  fst (cleanComment (Some Example.reacted))
  = Some (withReactions Example.reacted
            (fst (cleanReactionsPtr (commentReactions Example.reacted)))).
Proof.
  destruct (X5_normalizer_verdict Example.dirtyIssue Example.reacted)
    as [[Hi _] [_ Hc]].
  split; [apply Hi | apply Hc]; vm_compute; reflexivity.
Defined.

(** X6.  What the normalizer keeps.  [cleanIssue] keeps the number, the
    title, the count of comments and the time of update of the issue,
    the names of its labels in their order, and the login and identity
    of its author; of the assignees it keeps the logins in their order,
    unless there is exactly one, who is dropped from the list.
    [cleanComment] keeps the identity, the body and the time of update
    of the comment, and the login and identity of its author. *)
Theorem X6_normalizer_keeps (i : Issue) (c : IssueComment) :
  let i' := fst (cleanIssue i) in
  (issueNumber i' = issueNumber i /\ issueTitle i' = issueTitle i /\
   issueComments i' = issueComments i /\
   issueUpdatedAt i' = issueUpdatedAt i /\
   map labelName (issueLabels i') = map labelName (issueLabels i) /\
   option_map userLogin (issueUser i') = option_map userLogin (issueUser i) /\
   option_map userID (issueUser i') = option_map userID (issueUser i) /\
   map (option_map userLogin) (issueAssignees i')
   = match issueAssignees i with
     | [_] => []
     | us => map (option_map userLogin) us
     end)
  /\
  exists c',
    fst (cleanComment (Some c)) = Some c' /\
    commentID c' = commentID c /\ commentBody c' = commentBody c /\
    commentUpdatedAt c' = commentUpdatedAt c /\
    option_map userLogin (commentUser c')
    = option_map userLogin (commentUser c) /\
    option_map userID (commentUser c') = option_map userID (commentUser c).
Proof.
  assert (Hlogin : forall u,
             option_map userLogin (fst (cleanUser u)) = option_map userLogin u
             /\ option_map userID (fst (cleanUser u)) = option_map userID u).
  { intros [u|]; [|split; reflexivity].
    unfold cleanUser. rewrite !cleanStr_eq. split; reflexivity. }
  split.
  - rewrite cleanIssue_eq. simpl. repeat split; try apply Hlogin.
    + rewrite map_map. apply map_ext. intros l.
      unfold cleanLabel. now rewrite !cleanStr_eq.
    + rewrite map_map. unfold keptAssignees.
      destruct (issueAssignees i) as [|u [|u' us]]; try reflexivity.
      change (Z.of_nat (List.length (u :: u' :: us)) =? 1)
        with (Z.of_nat (S (S (List.length us))) =? 1).
      replace (Z.of_nat (S (S (List.length us))) =? 1) with false
        by (symmetry; apply Z.eqb_neq; lia).
      cbn [map]. rewrite !(proj1 (Hlogin _)). do 2 f_equal.
      apply map_ext. intros x. apply Hlogin.
  - rewrite cleanComment_eq. eexists. split; [reflexivity|]. simpl.
    repeat split; apply Hlogin.
Qed.

(** ** The layout of the store: paths and names *)

Lemma substring_all (s : string) : substring 0 (String.length s) s = s.
Proof. induction s as [|c s IH]; simpl; congruence. Qed.

Lemma substring_prefix (a t : string) :
  substring 0 (String.length a) (a ++ t) = a.
Proof.
  induction a as [|c a IH]; simpl; [now destruct t | congruence].
Qed.

Lemma substring_skip (a t : string) (m : nat) :
  substring (String.length a) m (a ++ t) = substring 0 m t.
Proof. induction a as [|c a IH]; simpl; auto. Qed.

Lemma HasSuffix_append (a t : string) : HasSuffix (a ++ t) t = true.
Proof.
  unfold HasSuffix. rewrite append_length.
  replace (String.length a + String.length t - String.length t)%nat
    with (String.length a) by lia.
  rewrite substring_skip, substring_all, String.eqb_refl.
  rewrite andb_true_r. apply Nat.leb_le. lia.
Qed.

Lemma TrimSuffix_append (a t : string) : TrimSuffix (a ++ t) t = a.
Proof.
  unfold TrimSuffix. rewrite HasSuffix_append, append_length.
  replace (String.length a + String.length t - String.length t)%nat
    with (String.length a) by lia.
  apply substring_prefix.
Qed.

Lemma HasPrefix_append (p s : string) : HasPrefix (p ++ s) p = true.
Proof.
  unfold HasPrefix. induction p as [|c p IH]; simpl.
  - now destruct s.
  - destruct (ascii_dec c c); [exact IH | congruence].
Qed.

Lemma TrimPrefix_append (p s : string) : TrimPrefix (p ++ s) p = s.
Proof.
  unfold TrimPrefix. rewrite HasPrefix_append, append_length.
  replace (String.length p + String.length s - String.length p)%nat
    with (String.length s) by lia.
  now rewrite substring_skip, substring_all.
Qed.

(** The three digits of a shard: for a number from 0 to 999
    [Sprintf03d] gives three characters, which read back as the number. *)
Lemma Sprintf03d_three (k : Z) :
  0 <= k < 1000 ->
  String.length (Sprintf03d k) = 3%nat /\ Atoi (Sprintf03d k) = Some k.
Proof.
  intros Hk.
  assert (Hall : forallb (fun i => let k := Z.of_nat i in
                            (String.length (Sprintf03d k) =? 3)%nat &&
                            match Atoi (Sprintf03d k) with
                            | Some v => v =? k
                            | None => false
                            end) (seq 0 1000) = true)
    by (vm_compute; reflexivity).
  rewrite forallb_forall in Hall.
  specialize (Hall (Z.to_nat k)).
  rewrite Z2Nat.id in Hall by lia.
  assert (Hin : In (Z.to_nat k) (seq 0 1000)) by (apply in_seq; lia).
  apply Hall in Hin. apply andb_true_iff in Hin as [Hlen Hnum].
  split; [now apply Nat.eqb_eq|].
  destruct (Atoi (Sprintf03d k)) as [v|]; [|discriminate].
  apply Z.eqb_eq in Hnum. now subst.
Qed.

Lemma IssueCommentsDir_inj (r : Root.t) (n m : Z) :
  isInt n -> isInt m ->
  Root.IssueCommentsDir r n = Root.IssueCommentsDir r m -> n = m.
Proof.
  unfold Root.IssueCommentsDir, Join. intros Hn Hm H.
  apply app_inv_head in H. injection H as _ Hname.
  apply append_inj_r in Hname. now apply Itoa_inj.
Qed.

(** X7.  The paths of the store tell the records apart.  For numbers in
    the range of [int]: two issues have the same file, or the same
    comments directory, only when they have the same number; two
    comments have the same file only when they have the same issue and
    the same identity; the file of an issue is never the file of a
    comment nor a comments directory; the file of a comment lies
    directly in the comments directory of its issue, and this directory
    lies beside the file of the issue. *)
Theorem X7_paths_tell_records_apart (r : Root.t) (n m a b : Z) :
  isInt n -> isInt m -> isInt a -> isInt b ->
  (Root.IssueJSONFile r n = Root.IssueJSONFile r m -> n = m) /\
  (Root.IssueCommentsDir r n = Root.IssueCommentsDir r m -> n = m) /\
  (Root.IssueCommentFile r n a = Root.IssueCommentFile r m b ->
   n = m /\ a = b) /\
  Root.IssueJSONFile r n <> Root.IssueCommentFile r m b /\
  Root.IssueJSONFile r n <> Root.IssueCommentsDir r m /\
  Dir (Root.IssueCommentFile r n a) = Root.IssueCommentsDir r n /\
  Dir (Root.IssueCommentsDir r n) = Dir (Root.IssueJSONFile r n).
Proof.
  intros Hn Hm Ha Hb. repeat split.
  - now apply IssueJSONFile_inj.
  - now apply IssueCommentsDir_inj.
  - now apply (IssueCommentFile_inj2 r n m a b).
  - now apply (IssueCommentFile_inj2 r n m a b).
  - intros H. apply (f_equal (@List.length string)) in H.
    unfold Root.IssueJSONFile, Root.IssueCommentFile, Join in H.
    rewrite !length_app in H. simpl in H. lia.
  - unfold Root.IssueJSONFile, Root.IssueCommentsDir, Join. intros H.
    apply app_inv_head in H. injection H as _ Hname.
    now apply json_name_not_comments in Hname.
  - unfold Root.IssueCommentFile, Root.IssueCommentsDir, Join, Dir.
    change ["issues"; Sprintf03d (Z.rem n 1000);
            (Itoa n ++ ".comments")%string;
            ("comment-" ++ Itoa a ++ ".json")%string]
      with (["issues"; Sprintf03d (Z.rem n 1000);
             (Itoa n ++ ".comments")%string]
            ++ [("comment-" ++ Itoa a ++ ".json")%string]).
    now rewrite app_assoc, removelast_last.
  - unfold Root.IssueJSONFile, Root.IssueCommentsDir, Join, Dir.
    change ["issues"; Sprintf03d (Z.rem n 1000);
            (Itoa n ++ ".comments")%string]
      with (["issues"; Sprintf03d (Z.rem n 1000)]
            ++ [(Itoa n ++ ".comments")%string]).
    change ["issues"; Sprintf03d (Z.rem n 1000); (Itoa n ++ ".json")%string]
      with (["issues"; Sprintf03d (Z.rem n 1000)]
            ++ [(Itoa n ++ ".json")%string]).
    now rewrite !app_assoc, !removelast_last.
Qed.

Lemma X7_witness :
  Root.IssueJSONFile Example.root 42
  <> Root.IssueCommentFile Example.root 42 1 /\
  Dir (Root.IssueCommentFile Example.root 42 1)
  = Root.IssueCommentsDir Example.root 42.
Proof.
  assert (Hint : forall n, -1000 <= n <= 1000 -> isInt n)
    by (unfold isInt, minInt, maxInt; lia).
  destruct (X7_paths_tell_records_apart Example.root 42 42 1 1
              (Hint 42 ltac:(lia)) (Hint 42 ltac:(lia))
              (Hint 1 ltac:(lia)) (Hint 1 ltac:(lia)))
    as (_ & _ & _ & Hne & _ & Hdir & _).
  split; [exact Hne | exact Hdir].
Defined.

Lemma Base_IssueJSONFile (r : Root.t) (n : Z) :
  Base (Root.IssueJSONFile r n) = (Itoa n ++ ".json")%string.
Proof.
  unfold Root.IssueJSONFile, Join.
  change ["issues"; Sprintf03d (Z.rem n 1000); (Itoa n ++ ".json")%string]
    with (["issues"; Sprintf03d (Z.rem n 1000)]
          ++ [(Itoa n ++ ".json")%string]).
  now rewrite app_assoc, Base_snoc.
Qed.

Lemma Base_IssueCommentFile (r : Root.t) (n id : Z) :
  Base (Root.IssueCommentFile r n id)
  = ("comment-" ++ Itoa id ++ ".json")%string.
Proof.
  unfold Root.IssueCommentFile, Join.
  change ["issues"; Sprintf03d (Z.rem n 1000);
          (Itoa n ++ ".comments")%string;
          ("comment-" ++ Itoa id ++ ".json")%string]
    with (["issues"; Sprintf03d (Z.rem n 1000);
           (Itoa n ++ ".comments")%string]
          ++ [("comment-" ++ Itoa id ++ ".json")%string]).
  now rewrite app_assoc, Base_snoc.
Qed.

(** The name of a comment file, read as the enumeration reads it. *)
Lemma comment_name_read_back (id : Z) :
  let base := ("comment-" ++ Itoa id ++ ".json")%string in
  HasPrefix base "comment-" = true /\ HasSuffix base ".json" = true /\
  TrimPrefix (TrimSuffix base ".json") "comment-" = Itoa id.
Proof.
  intros base. subst base. split; [apply HasPrefix_append|].
  rewrite <- append_assoc. split; [apply HasSuffix_append|].
  now rewrite TrimSuffix_append, TrimPrefix_append.
Qed.

(** X8.  The names of the files read back as the identities.  For
    numbers in the range of [int], the base name of the file of issue
    [n] ends in .json and, the suffix cut off, [Atoi] reads [n] from it,
    which is how [ForeachIssue] finds the number; and the base name of
    the file of comment [id] starts with comment-, ends in .json and,
    both cut off, [Atoi] reads [id] from it, which is how
    [ForeachIssueComment] finds the identity. *)
Theorem X8_names_read_back (r : Root.t) (n id : Z) :
  isInt n -> isInt id ->
  (HasSuffix (Base (Root.IssueJSONFile r n)) ".json" = true /\
   Atoi (TrimSuffix (Base (Root.IssueJSONFile r n)) ".json") = Some n)
  /\
  (HasPrefix (Base (Root.IssueCommentFile r n id)) "comment-" = true /\
   HasSuffix (Base (Root.IssueCommentFile r n id)) ".json" = true /\
   Atoi (TrimPrefix (TrimSuffix (Base (Root.IssueCommentFile r n id)) ".json")
                    "comment-") = Some id /\
   commentFileName (Base (Root.IssueCommentFile r n id)) = true).
Proof.
  intros Hn Hid. rewrite Base_IssueJSONFile, Base_IssueCommentFile.
  destruct (comment_name_read_back id) as (Hp & Hs & Ht).
  unfold commentFileName.
  rewrite HasSuffix_append, TrimSuffix_append, Hp, Hs, Ht.
  rewrite !Atoi_Itoa by assumption. repeat split.
Qed.

Lemma X8_witness :
  Atoi (TrimSuffix (Base (Root.IssueJSONFile Example.root (-42))) ".json")
  = Some (-42) /\
  commentFileName (Base (Root.IssueCommentFile Example.root 42 7)) = true.
Proof.
  assert (Hint : forall n, -1000 <= n <= 1000 -> isInt n)
    by (unfold isInt, minInt, maxInt; lia).
  split.
  - apply (X8_names_read_back Example.root (-42) 7
             (Hint (-42) ltac:(lia)) (Hint 7 ltac:(lia))).
  - apply (X8_names_read_back Example.root 42 7
             (Hint 42 ltac:(lia)) (Hint 7 ltac:(lia))).
Defined.

(** X9.  The shard of an issue.  For a number that is not negative the
    file of the issue and its comments directory lie in the directory
    issues/<shard> under the root, where the shard is the remainder of
    the number by 1000 written with three digits; so there are at most a
    thousand shards, and two such issues share a shard exactly when
    their numbers are congruent modulo 1000. *)
Theorem X9_shard_of_issue (r : Root.t) (n m : Z) :
  0 <= n -> 0 <= m ->
  let shard := Sprintf03d (Z.rem n 1000) in
  Dir (Root.IssueJSONFile r n) = r ++ ["issues"; shard] /\
  Dir (Root.IssueCommentsDir r n) = r ++ ["issues"; shard] /\
  String.length shard = 3%nat /\
  Atoi shard = Some (n mod 1000) /\
  (Dir (Root.IssueJSONFile r n) = Dir (Root.IssueJSONFile r m)
   <-> n mod 1000 = m mod 1000).
Proof.
  intros Hn Hm shard.
  assert (Hdir : forall k,
             Dir (Root.IssueJSONFile r k)
             = r ++ ["issues"; Sprintf03d (Z.rem k 1000)]).
  { intros k. unfold Root.IssueJSONFile, Join, Dir.
    change ["issues"; Sprintf03d (Z.rem k 1000); (Itoa k ++ ".json")%string]
      with (["issues"; Sprintf03d (Z.rem k 1000)]
            ++ [(Itoa k ++ ".json")%string]).
    now rewrite app_assoc, removelast_last. }
  assert (Hrem : forall k, 0 <= k ->
             Z.rem k 1000 = k mod 1000 /\ 0 <= k mod 1000 < 1000).
  { intros k Hk. rewrite Z.rem_mod_nonneg by lia.
    split; [reflexivity | apply Z.mod_pos_bound; lia]. }
  destruct (Hrem n Hn) as [Hrn Hbn]. destruct (Hrem m Hm) as [Hrm Hbm].
  destruct (Sprintf03d_three (n mod 1000) Hbn) as [Hlen Hnum].
  destruct (Sprintf03d_three (m mod 1000) Hbm) as [_ Hnum'].
  subst shard. rewrite !Hdir, Hrn, Hrm. repeat split; auto.
  - unfold Root.IssueCommentsDir, Join, Dir.
    change ["issues"; Sprintf03d (Z.rem n 1000);
            (Itoa n ++ ".comments")%string]
      with (["issues"; Sprintf03d (Z.rem n 1000)]
            ++ [(Itoa n ++ ".comments")%string]).
    now rewrite app_assoc, removelast_last, Hrn.
  - intros H. apply app_inv_head in H. injection H as H.
    rewrite H in Hnum. congruence.
  - intros H. now rewrite H.
Qed.

Lemma X9_witness :
  Dir (Root.IssueJSONFile Example.root 12042) = ["mirror"; "issues"; "042"] /\
  Dir (Root.IssueJSONFile Example.root 12042)
  = Dir (Root.IssueJSONFile Example.root 42).
Proof.
  destruct (X9_shard_of_issue Example.root 12042 42 ltac:(lia) ltac:(lia))
    as (Hdir & _ & _ & _ & Hsame).
  split; [exact Hdir | apply Hsame; reflexivity].
Defined.

(** ** The enumerations: what they find *)

Lemma relComponents_app (d q : path) : relComponents d (d ++ q) = q.
Proof.
  induction d as [|x d IH]; simpl; [reflexivity|].
  now rewrite String.eqb_refl.
Qed.

Lemma Rel_self (d : path) : Rel d d = "."%string.
Proof.
  unfold Rel. rewrite <- (app_nil_r d) at 2. now rewrite relComponents_app.
Qed.

Lemma Rel_child (d : path) (name : string) :
  name <> EmptyString -> Rel d (d ++ [name]) = name.
Proof. intros _. unfold Rel. now rewrite relComponents_app. Qed.

(** The function [ForeachIssue] walks with only appends to [nums], and
    the walk with it never comes back with [SkipDir]. *)
Lemma issueWalkFn_extends (d p : path) (fi : FileInfo) nums r nums' :
  Root.issueWalkFn d p (Some fi) None nums = (r, nums') ->
  (exists l, nums' = nums ++ l) /\ (r = Err SkipDir -> IsDir fi = true).
Proof.
  unfold Root.issueWalkFn, bind, deref, ret, fail, modify. intros H.
  destruct (IsDir fi) eqn:Ed; simpl in H.
  - destruct (3 <? String.length (Rel d p))%nat.
    + inversion H; subst. split; [exists []; now rewrite app_nil_r | auto].
    + destruct (IsRegular fi);
        [destruct (HasSuffix (Base p) ".json");
         [destruct (Atoi (TrimSuffix (Base p) ".json"))|]|];
        inversion H; subst;
        (split; [first [exists []; now rewrite app_nil_r | eexists; reflexivity]
                | discriminate]).
  - destruct (IsRegular fi);
      [destruct (HasSuffix (Base p) ".json");
       [destruct (Atoi (TrimSuffix (Base p) ".json"))|]|];
      inversion H; subst;
      (split; [first [exists []; now rewrite app_nil_r | eexists; reflexivity]
              | discriminate]).
Qed.

Lemma issueWalkEntries_extends (d p : path) (es : list (string * node)) :
  Forall (fun e => forall p nums r nums',
              walk (Root.issueWalkFn d) p (snd e) nums = (r, nums') ->
              (exists l, nums' = nums ++ l) /\ r <> Err SkipDir) es ->
  forall nums r nums',
    walkEntries (Root.issueWalkFn d) p es nums = (r, nums') ->
    (exists l, nums' = nums ++ l) /\ r <> Err SkipDir.
Proof.
  induction 1 as [|[name c] es Hc _ IH]; intros nums r nums' H; simpl in H.
  - inversion H; subst. split; [exists []; now rewrite app_nil_r | discriminate].
  - destruct (walk (Root.issueWalkFn d) (p ++ [name]) c nums)
      as [[[]|e] s1] eqn:E; apply Hc in E as [[l1 ->] Hne].
    + apply IH in H as [[l2 ->] Hr].
      split; [exists (l1 ++ l2); now rewrite app_assoc | exact Hr].
    + destruct (isSkipDir e) eqn:Es;
        [destruct e; try discriminate Es; now contradiction Hne|].
      rewrite orb_true_r in H. inversion H; subst.
      split; [now exists l1 | exact Hne].
Qed.

Lemma issueWalk_extends (d : path) (n : node) : forall p nums r nums',
  walk (Root.issueWalkFn d) p n nums = (r, nums') ->
  (exists l, nums' = nums ++ l) /\ r <> Err SkipDir.
Proof.
  induction n as [dat m|es m IH|m] using node_induction;
    intros p nums r nums' H.
  - rewrite walk_leaf in H by reflexivity.
    destruct (Root.issueWalkFn d p _ None nums) as [[[]|e] s1] eqn:E;
      apply issueWalkFn_extends in E as [Hl Hs]; inversion H; subst;
      (split; [exact Hl|]); [discriminate|].
    intros He. now apply Hs in He.
  - rewrite walk_Directory in H.
    destruct (Root.issueWalkFn d p _ None nums) as [[[]|e] s1] eqn:E;
      apply issueWalkFn_extends in E as [[l1 ->] Hs].
    + apply (issueWalkEntries_extends d p es IH) in H as [[l2 ->] Hr].
      split; [exists (l1 ++ l2); now rewrite app_assoc | exact Hr].
    + destruct (isSkipDir e) eqn:Es; inversion H; subst.
      * split; [now exists l1 | discriminate].
      * split; [now exists l1|]. intros He. inversion He; subst.
        discriminate Es.
  - rewrite walk_leaf in H by reflexivity.
    destruct (Root.issueWalkFn d p _ None nums) as [[[]|e] s1] eqn:E;
      apply issueWalkFn_extends in E as [Hl Hs]; inversion H; subst;
      (split; [exact Hl|]); [discriminate|].
    intros He. now apply Hs in He.
Qed.

(** A walk of the entries of a directory that ends well has walked
    each entry, and ended well on it. *)
Lemma issueWalkEntries_find (d p : path) (name : string) (c : node) :
  forall es nums nums',
    find es name = Some c ->
    walkEntries (Root.issueWalkFn d) p es nums = (Ok tt, nums') ->
    exists s1 s2 l,
      walk (Root.issueWalkFn d) (p ++ [name]) c s1 = (Ok tt, s2) /\
      nums' = s2 ++ l.
Proof.
  induction es as [|[k v] es IH]; intros nums nums' Hf H; [discriminate|].
  simpl in Hf, H.
  destruct (walk (Root.issueWalkFn d) (p ++ [k]) v nums)
    as [[[]|e] s1] eqn:E.
  - destruct (String.eqb name k) eqn:Ek.
    + apply String.eqb_eq in Ek. inversion Hf; subst k v.
      assert (Hall : Forall (fun e => forall p nums r nums',
                        walk (Root.issueWalkFn d) p (snd e) nums = (r, nums') ->
                        (exists l, nums' = nums ++ l) /\ r <> Err SkipDir) es)
        by (apply Forall_forall; intros e _; apply issueWalk_extends).
      destruct (issueWalkEntries_extends d p es Hall _ _ _ H) as [[l ->] _].
      exists nums, s1, l. auto.
    + eapply IH; eauto.
  - apply issueWalk_extends in E as [_ Hne].
    destruct (isSkipDir e) eqn:Es;
      [destruct e; try discriminate Es; now contradiction Hne|].
    rewrite orb_true_r in H. discriminate.
Qed.

(** The walk of [ForeachIssue] finds the number of a file that lies in a
    directory with a name of three characters under the issues
    directory, and has a name of the form <integer>.json. *)
Lemma issueWalk_finds (fs : FS) (d : path) (shard name : string) dat m n nums :
  String.length shard = 3%nat ->
  HasSuffix name ".json" = true ->
  Atoi (TrimSuffix name ".json") = Some n ->
  lookup (tree fs) (d ++ [shard; name]) = Ok (File dat m) ->
  Walk fs d (Root.issueWalkFn d) [] = (Ok tt, nums) ->
  In n nums.
Proof.
  intros Hlen Hsuf Hnum Hl H. unfold Walk in H. rewrite lookup_app in Hl.
  destruct (lookup (tree fs) d) as [c0|] eqn:E0; [|discriminate].
  simpl in Hl. destruct c0 as [|es0 m0|]; try discriminate.
  destruct (find es0 shard) as [c1|] eqn:F0; [|discriminate].
  destruct c1 as [|es1 m1|]; try discriminate.
  destruct (find es1 name) as [c2|] eqn:F1; [|discriminate].
  inversion Hl; subst c2. clear Hl.
  rewrite walk_Directory in H.
  unfold Root.issueWalkFn at 1 in H. simpl in H.
  rewrite Rel_self in H. simpl in H.
  destruct (issueWalkEntries_find _ _ _ _ _ _ _ F0 H) as (s1 & s2 & l & Hw & ->).
  rewrite walk_Directory in Hw.
  unfold Root.issueWalkFn at 1 in Hw. simpl in Hw.
  rewrite Rel_child in Hw by (intros ->; discriminate).
  rewrite Hlen in Hw. simpl in Hw.
  destruct (issueWalkEntries_find _ _ _ _ _ _ _ F1 Hw)
    as (s3 & s4 & l' & Hw' & ->).
  rewrite walk_leaf in Hw' by reflexivity.
  unfold Root.issueWalkFn, bind, deref, ret, modify in Hw'. simpl in Hw'.
  rewrite Base_snoc, Hsuf, Hnum in Hw'.
  inversion Hw'; subst.
  rewrite !in_app_iff. left. left. right. now left.
Qed.

(** The scan of a comments directory finds the identity of a file with a
    name of the form comment-<integer>.json. *)
Lemma scanComments_finds (dir : path) (name : string) dat m id :
  commentFileName name = true ->
  Atoi (TrimPrefix (TrimSuffix name ".json") "comment-") = Some id ->
  forall es ids,
    find es name = Some (File dat m) ->
    scanComments dir es = Ok ids -> In id ids.
Proof.
  intros Hname Hid. unfold commentFileName in Hname.
  apply andb_true_iff in Hname as [Hname _].
  induction es as [|[k v] es IH]; intros ids Hf H; [discriminate|].
  simpl in Hf, H.
  destruct (scanCommentEntry dir k v) as [o|] eqn:Es; [|discriminate].
  destruct (scanComments dir es) as [l|] eqn:El; [|discriminate].
  inversion H; subst ids. clear H.
  destruct (String.eqb name k) eqn:Ek.
  - apply String.eqb_eq in Ek. inversion Hf; subst k v.
    simpl in Es. rewrite Hname, Hid in Es. inversion Es; subst o. now left.
  - specialize (IH l Hf eq_refl). destruct o; [now right | exact IH].
Qed.

Lemma In_sortInts (x : Z) (l : list Z) : In x l -> In x (sortInts l).
Proof. apply Permutation_in, ZSort.Permuted_sort. Qed.

(** The identities found in a comments directory that is there are the
    ones the scan of its entries gives. *)
Lemma storedComments_scan (r : Root.t) (num : Z) w es m ids :
  nodeAt w (Root.IssueCommentsDir r num) = Ok (Directory es m) ->
  scanComments (Root.IssueCommentsDir r num) es = Ok ids ->
  storedComments (disk w) r num = ids.
Proof.
  unfold nodeAt, storedComments, Walk. intros Hn Hs. rewrite Hn.
  rewrite walk_Directory.
  set (dir := Root.IssueCommentsDir r num) in *.
  assert (Hroot : Root.commentWalkFn dir dir
                    (Some (infoOf (Directory es m))) None []
                  = (Ok tt, [])).
  { unfold Root.commentWalkFn, bind, deref, ret. simpl.
    destruct (list_eq_dec string_dec dir dir); [reflexivity|congruence]. }
  rewrite Hroot.
  pose proof (commentWalk_entries dir es []) as H.
  rewrite Hs in H. now rewrite H.
Qed.

(** X10.  The enumerations hand over what is stored.  When the file of
    issue [n] (a number of the range of [int] that is not negative) is
    on disk as a regular file, [n] is among the numbers the walk of
    [ForeachIssue] finds, and an enumeration that ends without error
    has come to it in its turn: after the turns of the numbers before
    it, in the world they left, it has loaded issue [n] with [Issue]
    and run [fn] on it, and the turns of the numbers after it have
    started from the world [fn] left and have led to the world the
    enumeration ends in.  And when the file of comment [id] of issue
    [n] is on disk as a regular file, the same holds of
    [ForeachIssueComment] for [n], the identities its walk finds,
    [IssueComment] and [id]. *)
Theorem X10_enumerations_find_what_is_stored
  json (r : Root.t) (n id : Z) dat m w w' :
  isInt n -> isInt id ->
  (forall fn,
     0 <= n ->
     nodeAt w (Root.IssueJSONFile r n) = Ok (File dat m) ->
     Root.ForeachIssue json r fn w = (Ok tt, w') ->
     let body := fun num => is_ <- Root.Issue json r num ;; fn is_ in
     exists pre post wa wb is_,
       sortInts (storedNumbers (disk w) r) = pre ++ n :: post /\
       forM pre body w = (Ok tt, wa) /\
       Root.Issue json r n wa = (Ok is_, wa) /\
       fn is_ wa = (Ok tt, wb) /\
       forM post body wb = (Ok tt, w'))
  /\
  (forall fn,
     nodeAt w (Root.IssueCommentFile r n id) = Ok (File dat m) ->
     Root.ForeachIssueComment json r n fn w = (Ok tt, w') ->
     let body := fun i => c <- Root.IssueComment json r n i ;; fn c in
     exists pre post wa wb c,
       sortInts (storedComments (disk w) r n) = pre ++ id :: post /\
       forM pre body w = (Ok tt, wa) /\
       Root.IssueComment json r n id wa = (Ok c, wa) /\
       fn c wa = (Ok tt, wb) /\
       forM post body wb = (Ok tt, w')).
Proof.
  intros Hn Hid. split; intros fn.
  - intros Hpos Hfile H body. unfold Root.ForeachIssue in H.
    unfold storedNumbers.
    destruct (Walk (disk w) (Join r ["issues"]) _ [])
      as [[[]|e] nums] eqn:Ew; [|discriminate].
    assert (Hin : In n (sortInts nums)).
    { apply In_sortInts.
      pose proof (HasSuffix_append (Itoa n) ".json") as Hs.
      pose proof (Atoi_Itoa n Hn) as Ha.
      rewrite <- (TrimSuffix_append (Itoa n) ".json") in Ha.
      refine (issueWalk_finds (disk w) (Join r ["issues"])
                (Sprintf03d (Z.rem n 1000)) _ dat m n nums _ Hs Ha _ Ew).
      - rewrite Z.rem_mod_nonneg by lia.
        apply Sprintf03d_three, Z.mod_pos_bound. lia.
      - unfold nodeAt, Root.IssueJSONFile, Join in Hfile.
        unfold Join. now rewrite <- app_assoc. }
    apply in_split in Hin as (pre & post & Hsplit). simpl snd.
    rewrite Hsplit in H |- *.
    apply forM_split in H as (wa & wb & Hpre & Hbody & Hpost).
    unfold bind in Hbody.
    destruct (Root.Issue json r n wa) as [[is_|e] wa'] eqn:El;
      [|discriminate].
    assert (wa' = wa) by (eapply (load_world json r n 0); left; eauto).
    subst wa'. exists pre, post, wa, wb, is_. auto.
  - intros Hfile H body.
    pose proof Hfile as Hfile0.
    unfold nodeAt in Hfile.
    assert (Hdir : Root.IssueCommentFile r n id
                   = Root.IssueCommentsDir r n
                     ++ [("comment-" ++ Itoa id ++ ".json")%string]).
    { unfold Root.IssueCommentFile, Root.IssueCommentsDir, Join.
      now rewrite <- app_assoc. }
    rewrite Hdir, lookup_app in Hfile.
    destruct (lookup (tree (disk w)) (Root.IssueCommentsDir r n))
      as [c0|] eqn:E0; [|discriminate].
    simpl in Hfile. destruct c0 as [|es m0|]; try discriminate.
    destruct (find es _) as [c1|] eqn:F; [|discriminate].
    inversion Hfile; subst c1. clear Hfile.
    rewrite (ForeachIssueComment_scan json r n fn w es m0 E0) in H.
    destruct (scanComments (Root.IssueCommentsDir r n) es) as [ids|] eqn:Es;
      [|discriminate].
    rewrite (storedComments_scan r n w es m0 ids E0 Es).
    destruct (comment_name_read_back id) as (Hp & Hs & Ht).
    pose proof (Atoi_Itoa id Hid) as Ha. rewrite <- Ht in Ha.
    assert (Hc : commentFileName ("comment-" ++ Itoa id ++ ".json")%string
                 = true)
      by (unfold commentFileName; now rewrite Hp, Hs, Ha).
    pose proof (scanComments_finds _ _ dat m id Hc Ha es ids F Es) as Hin.
    apply In_sortInts, in_split in Hin as (pre & post & Hsplit).
    rewrite Hsplit in H |- *.
    apply forM_split in H as (wa & wb & Hpre & Hbody & Hpost).
    unfold bind in Hbody.
    destruct (Root.IssueComment json r n id wa) as [[c|e] wa'] eqn:El;
      [|discriminate].
    assert (wa' = wa) by (eapply (load_world json r n id); right; eauto).
    subst wa'. exists pre, post, wa, wb, c. auto.
Qed.

Lemma X10_witness :
  let w := Example.start Example.dirty in
  (exists w' wa wb is_,
     Root.ForeachIssue Example.codec Example.root noteIssue w = (Ok tt, w') /\
     sortInts (storedNumbers (disk w) Example.root) = [42] /\
     wa = w /\
     Root.Issue Example.codec Example.root 42 wa = (Ok is_, wa) /\
     noteIssue is_ wa = (Ok tt, wb) /\ wb = w')
  /\
  (exists w' wa wb c,
     Root.ForeachIssueComment Example.codec Example.root 42 noteComment w
     = (Ok tt, w') /\
     sortInts (storedComments (disk w) Example.root 42) = [1] /\
     wa = w /\
     Root.IssueComment Example.codec Example.root 42 1 wa = (Ok c, wa) /\
     noteComment c wa = (Ok tt, wb) /\ wb = w').
Proof.
  intros w.
  assert (Hint : forall n, -1000 <= n <= 1000 -> isInt n)
    by (unfold isInt, minInt, maxInt; lia).
  set (run1 := Root.ForeachIssue Example.codec Example.root noteIssue w).
  set (run2 := Root.ForeachIssueComment Example.codec Example.root 42
                 noteComment w).
  assert (H1 : run1 = (Ok tt, snd run1)) by (vm_compute; reflexivity).
  assert (H2 : run2 = (Ok tt, snd run2)) by (vm_compute; reflexivity).
  assert (S1 : sortInts (storedNumbers (disk w) Example.root) = [42])
    by (vm_compute; reflexivity).
  assert (S2 : sortInts (storedComments (disk w) Example.root 42) = [1])
    by (vm_compute; reflexivity).
  split.
  - destruct (proj1 (X10_enumerations_find_what_is_stored
                       Example.codec Example.root 42 1
                       (Example.bytesOf (VIssue Example.dirtyIssue))
                       (newMeta 500) w (snd run1)
                       (Hint 42 ltac:(lia)) (Hint 1 ltac:(lia)))
                    noteIssue ltac:(lia) ltac:(vm_compute; reflexivity) H1)
      as (pre & post & wa & wb & is_ & Hs & Hpre & Hl & Hfn & Hpost).
    rewrite S1 in Hs.
    destruct pre as [|x pre]; [|destruct pre; discriminate Hs].
    inversion Hs; subst post.
    assert (Hwa : wa = w) by now inversion Hpre.
    assert (Hwb : wb = snd run1) by now inversion Hpost.
    exists (snd run1), wa, wb, is_. repeat split; auto.
  - destruct (proj2 (X10_enumerations_find_what_is_stored
                       Example.codec Example.root 42 1
                       (Example.bytesOf (VComment (Example.comment 1 0)))
                       (newMeta 50) w (snd run2)
                       (Hint 42 ltac:(lia)) (Hint 1 ltac:(lia)))
                    noteComment ltac:(vm_compute; reflexivity) H2)
      as (pre & post & wa & wb & c & Hs & Hpre & Hl & Hfn & Hpost).
    rewrite S2 in Hs.
    destruct pre as [|x pre]; [|destruct pre; discriminate Hs].
    inversion Hs; subst post.
    assert (Hwa : wa = w) by now inversion Hpre.
    assert (Hwb : wb = snd run2) by now inversion Hpost.
    exists (snd run2), wa, wb, c. repeat split; auto.
Defined.

(** ** The enumerations: order, and the first error *)

Lemma sortInts_sorted (l : list Z) : StronglySorted Z.le (sortInts l).
Proof.
  unfold sortInts.
  assert (Htrans : Relations_1.Transitive (fun x y => is_true (ZOrder.leb x y))).
  { intros x y z Hxy Hyz. unfold is_true, ZOrder.leb in *.
    rewrite Z.leb_le in *. lia. }
  pose proof (Sorted_StronglySorted Htrans (ZSort.Sorted_sort l)) as H.
  induction H as [|x xs Hs IH Hall]; constructor; [exact IH|].
  eapply Forall_impl; [|exact Hall].
  intros y Hy. now apply Z.leb_le.
Qed.

(** A loop that stops at the first error: the turns after it are not
    taken. *)
Lemma forM_stops {S A} (body : A -> M S unit) (pre : list A) :
  forall x post w wa e wb,
    forM pre body w = (Ok tt, wa) ->
    body x wa = (Err e, wb) ->
    forM (pre ++ x :: post) body w = (Err e, wb).
Proof.
  induction pre as [|y pre IH]; intros x post w wa e wb Hpre Hx.
  - inversion Hpre; subst. simpl. unfold bind. now rewrite Hx.
  - simpl in *. unfold bind in *.
    destruct (body y w) as [[[]|e'] w1]; [|discriminate].
    eapply IH; eauto.
Qed.

(** A turn of an enumeration that ends well has loaded the record in
    the world it started in, and has run [fn] on it there. *)
Lemma turn_split {A} (load : M world A) (fn : A -> M world unit) wa wb :
  (forall r w', load wa = (r, w') -> w' = wa) ->
  (x <- load ;; fn x) wa = (Ok tt, wb) ->
  exists x, load wa = (Ok x, wa) /\ fn x wa = (Ok tt, wb).
Proof.
  intros Hload H. unfold bind in H.
  destruct (load wa) as [[x|e] wa'] eqn:El; [|discriminate].
  assert (wa' = wa) by (eapply Hload; eauto). subst wa'.
  exists x. auto.
Qed.

(** X11.  Both enumerations run in numeric order over what their walk
    has found, and stop at the first error.  The numbers [ForeachIssue]
    goes through are the numbers its walk of the issues directory has
    found, put in ascending order.  When the walk fails, its error is
    the result, [fn] is not run at all and nothing is changed.  When it
    does not, the enumeration is the loop over these numbers that loads
    each issue with [Issue] and runs [fn] on it: when loading an issue
    or [fn] on it fails, that error and the world as that call left it
    are the result, and no later issue is loaded or handed to [fn]; and
    when the enumeration ends without error, every number found has had
    its turn, the issue loaded and [fn] run on it in the world the turns
    before it left.  The same holds for [ForeachIssueComment], the
    identities its walk of the comments directory has found, and
    [IssueComment], except that a walk that fails because the comments
    directory does not exist is no error. *)
Theorem X11_enumerations_in_order_until_error
  json (r : Root.t) (num : Z) fnI fnC w :
  (let nums := sortInts (storedNumbers (disk w) r) in
   let body := fun n => is_ <- Root.Issue json r n ;; fnI is_ in
   StronglySorted Z.le nums /\
   Permutation (storedNumbers (disk w) r) nums /\
   match fst (Walk (disk w) (Join r ["issues"])
                   (Root.issueWalkFn (Join r ["issues"])) []) with
   | Err e => Root.ForeachIssue json r fnI w = (Err e, w)
   | Ok _ =>
       Root.ForeachIssue json r fnI w = forM nums body w /\
       (forall pre x post wa e wb,
          nums = pre ++ x :: post ->
          forM pre body w = (Ok tt, wa) ->
          body x wa = (Err e, wb) ->
          Root.ForeachIssue json r fnI w = (Err e, wb)) /\
       (forall pre x post w',
          nums = pre ++ x :: post ->
          Root.ForeachIssue json r fnI w = (Ok tt, w') ->
          exists wa wb is_,
            forM pre body w = (Ok tt, wa) /\
            Root.Issue json r x wa = (Ok is_, wa) /\
            fnI is_ wa = (Ok tt, wb) /\
            forM post body wb = (Ok tt, w'))
   end)
  /\
  (let ids := sortInts (storedComments (disk w) r num) in
   let body := fun id => c <- Root.IssueComment json r num id ;; fnC c in
   StronglySorted Z.le ids /\
   Permutation (storedComments (disk w) r num) ids /\
   match fst (Walk (disk w) (Root.IssueCommentsDir r num)
                   (Root.commentWalkFn (Root.IssueCommentsDir r num)) []) with
   | Err e =>
       Root.ForeachIssueComment json r num fnC w
       = (if IsNotExist e then Ok tt else Err e, w)
   | Ok _ =>
       Root.ForeachIssueComment json r num fnC w = forM ids body w /\
       (forall pre x post wa e wb,
          ids = pre ++ x :: post ->
          forM pre body w = (Ok tt, wa) ->
          body x wa = (Err e, wb) ->
          Root.ForeachIssueComment json r num fnC w = (Err e, wb)) /\
       (forall pre x post w',
          ids = pre ++ x :: post ->
          Root.ForeachIssueComment json r num fnC w = (Ok tt, w') ->
          exists wa wb c,
            forM pre body w = (Ok tt, wa) /\
            Root.IssueComment json r num x wa = (Ok c, wa) /\
            fnC c wa = (Ok tt, wb) /\
            forM post body wb = (Ok tt, w'))
   end).
Proof.
  split; intros nums body;
    (split; [apply sortInts_sorted|]);
    (split; [apply ZSort.Permuted_sort|]).
  - subst nums. unfold Root.ForeachIssue, storedNumbers.
    destruct (Walk (disk w) (Join r ["issues"]) _ []) as [[[]|e] found];
      cbn [fst snd]; [|reflexivity].
    split; [reflexivity|]. split.
    + intros pre x post wa e wb -> Hpre Hx. eapply forM_stops; eauto.
    + intros pre x post w' -> H.
      apply forM_split in H as (wa & wb & Hpre & Hbody & Hpost).
      apply turn_split in Hbody as (is_ & Hl & Hfn).
      * exists wa, wb, is_. auto.
      * intros r0 w0 H0. eapply (load_world json r x 0). left; eauto.
  - subst nums. unfold Root.ForeachIssueComment, storedComments.
    destruct (Walk (disk w) (Root.IssueCommentsDir r num) _ [])
      as [[[]|e] found]; cbn [fst snd];
      [|now destruct (IsNotExist e)].
    split; [reflexivity|]. split.
    + intros pre x post wa e wb -> Hpre Hx. eapply forM_stops; eauto.
    + intros pre x post w' -> H.
      apply forM_split in H as (wa & wb & Hpre & Hbody & Hpost).
      apply turn_split in Hbody as (c & Hl & Hfn).
      * exists wa, wb, c. auto.
      * intros r0 w0 H0. eapply (load_world json r num x). right; eauto.
Qed.

Lemma X11_witness :
  let w := Example.start Example.dirty in
  Root.ForeachIssue Example.codec Example.root noteIssue w
  = forM [42] (fun n => is_ <- Root.Issue Example.codec Example.root n ;;
                        noteIssue is_) w
  /\
  Root.ForeachIssueComment Example.codec Example.root 42 noteComment w
  = forM [1] (fun id => c <- Root.IssueComment Example.codec Example.root
                                               42 id ;;
                        noteComment c) w
  /\
  Root.ForeachIssueComment Example.codec Example.root 43 noteComment w
  = (Ok tt, w).
Proof.
  intros w.
  destruct (X11_enumerations_in_order_until_error
              Example.codec Example.root 42 noteIssue noteComment w)
    as [(_ & _ & HI) (_ & _ & HC)].
  destruct (X11_enumerations_in_order_until_error
              Example.codec Example.root 43 noteIssue noteComment w)
    as [_ (_ & _ & HN)].
  assert (S1 : sortInts (storedNumbers (disk w) Example.root) = [42])
    by (vm_compute; reflexivity).
  assert (S2 : sortInts (storedComments (disk w) Example.root 42) = [1])
    by (vm_compute; reflexivity).
  rewrite S1 in HI. rewrite S2 in HC.
  match type of HI with
  | match ?x with _ => _ end =>
      assert (W1 : x = Ok tt) by (vm_compute; reflexivity)
  end.
  match type of HC with
  | match ?x with _ => _ end =>
      assert (W2 : x = Ok tt) by (vm_compute; reflexivity)
  end.
  match type of HN with
  | match ?x with _ => _ end =>
      assert (W3 : x = Err ENOENT) by (vm_compute; reflexivity)
  end.
  rewrite W1 in HI. rewrite W2 in HC. rewrite W3 in HN.
  split; [exact (proj1 HI) | split; [exact (proj1 HC) | exact HN]].
Defined.

(** ** The enumerations and the count: what is not there, or in the way *)

(** X12.  Directories that are not there.  When the issues directory
    cannot be reached, [ForeachIssue] returns that error: a store that
    was never written to is an error, not an empty store.  When the
    comments directory of an issue cannot be reached,
    [ForeachIssueComment] returns nil without a call of [fn] if the error
    is that it does not exist, and the error otherwise; and
    [NumComments] returns 0 if it does not exist and the file of the
    issue is there, and else the error of opening the directory.  None
    of them changes anything. *)
Theorem X12_absent_directories json (r : Root.t) (num : Z) fnI fnC w e :
  (nodeAt w (Join r ["issues"]) = Err e ->
   Root.ForeachIssue json r fnI w = (Err e, w))
  /\
  (nodeAt w (Root.IssueCommentsDir r num) = Err e ->
   Root.ForeachIssueComment json r num fnC w
   = (if IsNotExist e then Ok tt else Err e, w) /\
   Root.NumComments r num w
   = (if IsNotExist e
      then match Stat (disk w) (Root.IssueJSONFile r num) with
           | Ok _ => Ok 0
           | Err _ => Err e
           end
      else Err e, w)).
Proof.
  unfold nodeAt. split; intros H.
  - unfold Root.ForeachIssue, Walk. rewrite H.
    unfold Root.issueWalkFn, fail. reflexivity.
  - split.
    + unfold Root.ForeachIssueComment, Walk. rewrite H.
      unfold Root.commentWalkFn, fail. now destruct (IsNotExist e).
    + unfold Root.NumComments, Open. rewrite H.
      destruct (IsNotExist e); [|reflexivity].
      now destruct (Stat (disk w) (Root.IssueJSONFile r num)).
Qed.

Lemma X12_witness :
  let w := Example.start Example.emptyDisk in
  Root.ForeachIssue Example.codec Example.root noteIssue w = (Err ENOENT, w) /\
  Root.ForeachIssueComment Example.codec Example.root 42 noteComment w
  = (Ok tt, w) /\
  Root.NumComments Example.root 42 w = (Err ENOENT, w).
Proof.
  intros w.
  destruct (X12_absent_directories Example.codec Example.root 42
              noteIssue noteComment w ENOENT) as [Hi Hc].
  split; [apply Hi; reflexivity|].
  destruct (Hc eq_refl) as [Hf Hn]. split; [exact Hf | exact Hn].
Defined.

Lemma scanComments_directory dir name es' m' : forall es,
  In (name, Directory es' m') es -> exists e, scanComments dir es = Err e.
Proof.
  induction es as [|[k v] es IH]; intros Hin; [contradiction|].
  simpl. destruct (scanCommentEntry dir k v) as [o|e] eqn:Ee;
    [|now exists e].
  destruct Hin as [Heq|Hin]; [inversion Heq; subst; discriminate|].
  destruct (IH Hin) as [e ->]. now exists e.
Qed.

(** X13.  A directory in a comments directory.  [ForeachIssueComment]
    fails on it, before it loads a comment or runs [fn], and changes
    nothing; the error is not that something does not exist.
    [NumComments] counts the directory like any other entry.  So the
    count and the enumeration part ways there: the second pass sees a
    number of comments that the enumeration cannot produce. *)
Theorem X13_directory_among_comments
  json (r : Root.t) (num : Z) fn w es m name es' m' :
  nodeAt w (Root.IssueCommentsDir r num) = Ok (Directory es m) ->
  In (name, Directory es' m') es ->
  (exists e, IsNotExist e = false /\
             Root.ForeachIssueComment json r num fn w = (Err e, w)) /\
  Root.NumComments r num w = (Ok (Z.of_nat (List.length es)), w) /\
  0 < Z.of_nat (List.length es).
Proof.
  intros Hdir Hin. split; [|split].
  - rewrite (ForeachIssueComment_scan json r num fn w es m Hdir).
    destruct (scanComments_directory (Root.IssueCommentsDir r num)
                name es' m' es Hin) as [e He].
    rewrite He. exists e. split; [|reflexivity].
    now apply scanComments_error in He.
  - unfold Root.NumComments, Open. unfold nodeAt in Hdir. rewrite Hdir.
    simpl. now rewrite length_map.
  - destruct es; [contradiction | simpl; lia].
Qed.

Lemma X13_witness :
  let w := Example.start Example.nested in
  (exists e, IsNotExist e = false /\
             Root.ForeachIssueComment Example.codec Example.root 42
               noteComment w = (Err e, w)) /\
  Root.NumComments Example.root 42 w = (Ok 2, w).
Proof.
  intros w.
  destruct (X13_directory_among_comments Example.codec Example.root 42
              noteComment w
              [("comment-1.json", Example.file 50 (Example.commentBytes 1));
               ("deeper", Example.dir 10 [])] (newMeta 10)
              "deeper" [] (newMeta 10) eq_refl
              (or_intror (or_introl eq_refl))) as (He & Hn & _).
  split; [exact He | exact Hn].
Defined.

(** ** The two loops: a second run *)

Section SecondRun.

Variable json : JSON.
Variable client : Client.
Variable root : Root.t.

(** The loop over a page of comments that are all on disk with their
    versions writes nothing. *)
Lemma writeComments_quiet num (cs : list IssueComment) w :
  (forall c, In c cs ->
     versioned c /\
     forall u, commentUpdatedAt c = Some u ->
               upToDate (disk w) (commentFileOf root num c) u = true) ->
  writeComments json root num cs w = (Ok tt, w).
Proof.
  induction cs as [|c0 cs IH]; intros Hall; [reflexivity|].
  simpl.
  destruct (cleanComment_Some c0) as (c0' & Hc & Hid & Hu0).
  destruct (cleanComment (Some c0)) as [x cl]. simpl in Hc. subst x.
  destruct (Hall c0 (or_introl eq_refl)) as [(id & u & Eid & Eu & Hz) Hup].
  unfold bind, deref, ret. rewrite Hid, Eid, Hu0, Eu.
  assert (Hf : commentFileOf root num c0 = Root.IssueCommentFile root num id).
  { unfold commentFileOf. now rewrite Eid. }
  rewrite writeDiskJSON_current; [|exact Hz|rewrite <- Hf; now apply Hup].
  apply IH. intros c Hin. apply Hall. now right.
Qed.

(** And a run of [updateComments] over pages of such comments makes its
    requests and writes nothing. *)
Lemma updateCommentsFrom_quiet num (fuel : nat) : forall page w0 w0' w,
  updateCommentsFrom json client root fuel num page w0 = (Ok tt, w0') ->
  (forall c, In c (fetchedComments client fuel num page) ->
     versioned c /\
     forall u, commentUpdatedAt c = Some u ->
               upToDate (disk w) (commentFileOf root num c) u = true) ->
  updateCommentsFrom json client root fuel num page w
  = (Ok tt, mkWorld (disk w)
              (trace w ++ commentRequests num
                            (cursorPages client fuel num page))).
Proof.
  induction fuel as [|fuel IH]; intros page w0 w0' w H0 Hall; [discriminate|].
  simpl in H0 |- *. unfold bind, emit, modify, lift in H0 |- *.
  simpl in H0 |- *. simpl fetchedComments in Hall.
  destruct (ListComments client "golang" "go" num (mkListOptions page 100))
    as [[cs resp]|e]; [|discriminate].
  simpl in H0, Hall |- *.
  destruct (writeComments json root num cs _) as [[[]|e] w1] eqn:Ew in H0;
    [|discriminate].
  rewrite writeComments_quiet
    by (intros c Hc; apply Hall; apply in_or_app; now left).
  destruct (NextPage resp =? 0); [reflexivity|].
  rewrite (IH _ _ _ _ H0)
    by (intros c Hc; apply Hall; apply in_or_app; now right).
  simpl. now rewrite <- app_assoc.
Qed.

(** X14.  A second run of [updateComments] writes nothing.  After a run
    for an issue that ended without error, when the comments the remote
    lists have their identities and non-zero times of update and no two
    of them go to the same file, a further run against the same remote
    makes the same requests, page by page, and leaves the disk as it is:
    no file is written and no write is logged. *)
Theorem X14_updateComments_second_run_writes_nothing
  (fuel : nat) (num : Z) w w' :
  updateComments json client root fuel num w = (Ok tt, w') ->
  Forall versioned (fetchedComments client fuel num 1) ->
  NoDup (map (commentFileOf root num) (fetchedComments client fuel num 1)) ->
  updateComments json client root fuel num w'
  = (Ok tt, mkWorld (disk w')
              (trace w' ++ commentRequests num
                             (cursorPages client fuel num 1))).
Proof.
  unfold updateComments. intros H Hv Hnd.
  eapply updateCommentsFrom_quiet; [exact H|].
  intros c Hin. rewrite Forall_forall in Hv.
  split; [now apply Hv|]. intros u Hu.
  destruct (Hv c Hin) as (id & u' & _ & Hu' & Hz).
  assert (u' = u) by congruence. subst u'.
  eapply updateCommentsFrom_final; eauto.
Qed.

(** After the loop over a page, every issue of the page is on disk with
    its own version, when no two of them go to the same file. *)
Lemma syncPage_final (issues : list Issue) : forall keepGoing w kg w',
  syncPage json root issues keepGoing w = (Ok kg, w') ->
  Forall wellFormed issues ->
  NoDup (map (issueFileOf root) issues) ->
  forall is_, In is_ issues -> changed root (disk w') is_ = false.
Proof.
  induction issues as [|is0 issues IH];
    intros keepGoing w kg w' H Hwf Hnd is_ Hin; [contradiction|].
  apply Forall_cons_iff in Hwf as [[[num [Hnum _]] [u [Hu Hz]]] Hwf].
  simpl in Hnd. apply NoDup_cons_iff in Hnd as [Hfresh Hnd].
  simpl in H.
  destruct (cleanIssue_keeps is0) as [Hkn _].
  pose proof (cleanIssue_keeps_version is0) as Hkv.
  destruct (cleanIssue is0) as [is' c]. simpl in Hkn, Hkv.
  unfold bind at 1 2 in H. unfold deref, ret in H.
  rewrite Hkn, Hnum, Hkv, Hu in H. unfold bind at 1 in H.
  assert (Hfile : issueFileOf root is0 = Root.IssueJSONFile root num).
  { unfold issueFileOf. now rewrite Hnum. }
  destruct (writeDiskJSON json (Root.IssueJSONFile root num) u
              (VIssue is') w) as [[wrote|e] w1] eqn:Ew; [|discriminate].
  destruct Hin as [<-|Hin]; [|eapply IH; eauto].
  unfold changed. rewrite Hu, Hfile.
  destruct (syncPage_static json root _ _ _ _ _ H Hwf Hnd) as [_ Hfr].
  rewrite (upToDate_nodeAt w1 w').
  - now rewrite (writeDiskJSON_upToDate json _ _ _ _ _ _ Hz Ew).
  - apply Hfr. intros i Hi. rewrite <- Hfile. apply issueFileOf_diverge.
    intros Heq. apply Hfresh. rewrite Heq. now apply in_map.
Qed.

(** The loop over a page of issues that are all on disk with their
    versions writes nothing, and leaves [keepGoing] as it is. *)
Lemma syncPage_quiet (issues : list Issue) : forall keepGoing w,
  Forall wellFormed issues ->
  (forall is_, In is_ issues -> changed root (disk w) is_ = false) ->
  syncPage json root issues keepGoing w = (Ok keepGoing, w).
Proof.
  induction issues as [|is0 issues IH]; intros keepGoing w Hwf Hall;
    [reflexivity|].
  apply Forall_cons_iff in Hwf as [[[num [Hnum _]] [u [Hu Hz]]] Hwf].
  simpl.
  destruct (cleanIssue_keeps is0) as [Hkn _].
  pose proof (cleanIssue_keeps_version is0) as Hkv.
  destruct (cleanIssue is0) as [is' c]. simpl in Hkn, Hkv.
  unfold bind at 1 2. unfold deref, ret.
  rewrite Hkn, Hnum, Hkv, Hu. unfold bind at 1.
  pose proof (Hall is0 (or_introl eq_refl)) as Hc.
  unfold changed, issueFileOf in Hc. rewrite Hu, Hnum in Hc.
  apply negb_false_iff in Hc.
  rewrite writeDiskJSON_current by assumption.
  apply IH; [exact Hwf|]. intros i Hi. apply Hall. now right.
Qed.

(** The loop over the pages leaves alone what parts from the files of
    all the issues of these pages. *)
Lemma syncIssues_keeps (fuel : nat) : forall page w w' (p : path),
  syncIssues json client root fuel page w = (Ok tt, w') ->
  Forall wellFormed
         (List.concat (map (pageIssues client) (pagesFrom fuel page))) ->
  NoDup (map (issueFileOf root)
             (List.concat (map (pageIssues client) (pagesFrom fuel page)))) ->
  (forall is_,
     In is_ (List.concat (map (pageIssues client) (pagesFrom fuel page))) ->
     diverge p (issueFileOf root is_)) ->
  nodeAt w' p = nodeAt w p.
Proof.
  induction fuel as [|fuel IH]; intros page w w' p H Hwf Hnd Hp;
    [discriminate|].
  rewrite feed_cons in Hwf, Hp. rewrite feed_cons, map_app in Hnd.
  apply Forall_app in Hwf as [Hwf1 Hwf2].
  simpl in H. unfold bind at 1 in H.
  destruct (fetchPage json client root page w) as [[kg|e] w1] eqn:Ef;
    [|discriminate].
  assert (Hok : exists a, ListByRepo client "golang" "go"
                            (issueListOptions page) = Ok a).
  { unfold fetchPage, bind, emit, modify, lift in Ef. simpl in Ef.
    destruct (ListByRepo client "golang" "go" (issueListOptions page));
      [eauto | discriminate]. }
  destruct (fetchPage_static json client root page w _ _ Hok Hwf1
              (NoDup_app_remove_r _ _ Hnd) Ef) as [_ Hfr].
  assert (H1 : nodeAt w1 p = nodeAt w p).
  { apply Hfr. intros i Hi. apply Hp. apply in_or_app. now left. }
  destruct kg.
  - rewrite <- H1. eapply IH; eauto.
    + eapply NoDup_app_remove_l; eauto.
    + intros i Hi. apply Hp. apply in_or_app. now right.
  - inversion H; subst. exact H1.
Qed.

(** After a run of the first pass, the issues of its first page are on
    disk with their versions. *)
Lemma syncIssues_final (fuel : nat) (page : Z) w w' :
  syncIssues json client root fuel page w = (Ok tt, w') ->
  Forall wellFormed
         (List.concat (map (pageIssues client) (pagesFrom fuel page))) ->
  NoDup (map (issueFileOf root)
             (List.concat (map (pageIssues client) (pagesFrom fuel page)))) ->
  (exists a, ListByRepo client "golang" "go" (issueListOptions page) = Ok a) /\
  forall is_, In is_ (pageIssues client page) ->
              changed root (disk w') is_ = false.
Proof.
  destruct fuel as [|fuel]; intros H Hwf Hnd; [discriminate|].
  rewrite feed_cons in Hwf. rewrite feed_cons, map_app in Hnd.
  apply Forall_app in Hwf as [Hwf1 Hwf2].
  simpl in H. unfold bind at 1 in H.
  destruct (fetchPage json client root page w) as [[kg|e] w1] eqn:Ef;
    [|discriminate].
  assert (Hok : exists a, ListByRepo client "golang" "go"
                            (issueListOptions page) = Ok a).
  { unfold fetchPage, bind, emit, modify, lift in Ef. simpl in Ef.
    destruct (ListByRepo client "golang" "go" (issueListOptions page));
      [eauto | discriminate]. }
  split; [exact Hok|]. intros is_ Hin.
  assert (H1 : changed root (disk w1) is_ = false).
  { unfold fetchPage, bind, emit, modify, lift in Ef. simpl in Ef.
    unfold pageIssues in Hin, Hwf1, Hnd. destruct Hok as [a Ha].
    rewrite Ha in *. simpl in Ef.
    eapply syncPage_final; eauto. eapply NoDup_app_remove_r; eauto. }
  destruct kg.
  - rewrite <- H1. apply changed_frame.
    eapply syncIssues_keeps; eauto.
    + eapply NoDup_app_remove_l; eauto.
    + intros i Hi. apply issueFileOf_diverge. intros Heq.
      eapply (NoDup_app_disjoint _ _ (issueFileOf root is_) Hnd).
      * now apply in_map.
      * rewrite Heq. now apply in_map.
  - inversion H; subst. exact H1.
Qed.

(** The first pass over a first page of issues that are all on disk
    with their versions: one request, and nothing written. *)
Lemma syncIssues_quiet (fuel : nat) (page : Z) w a :
  ListByRepo client "golang" "go" (issueListOptions page) = Ok a ->
  Forall wellFormed (fst a) ->
  (forall is_, In is_ (fst a) -> changed root (disk w) is_ = false) ->
  syncIssues json client root (S fuel) page w
  = (Ok tt, mkWorld (disk w)
              (trace w ++ [CallListByRepo "golang" "go"
                             (issueListOptions page)])).
Proof.
  intros Ha Hwf Hall.
  simpl. unfold bind at 1. unfold fetchPage, bind, emit, modify, lift.
  simpl. rewrite Ha. simpl.
  now rewrite syncPage_quiet.
Qed.

(** X15.  A second run of the first pass fetches one page and writes
    nothing.  After a run of the loop over the pages of issues that
    ended without error, when the issues on the pages within the bound
    have their numbers and non-zero times of update and no two of them
    go to the same file, a further run against the same remote requests
    page 1, finds every issue of it on disk with its version, and stops:
    the disk is as it was, and the one event is the request. *)
Theorem X15_syncIssues_second_run_is_quiet (fuel fuel' : nat) w w' :
  syncIssues json client root fuel 1 w = (Ok tt, w') ->
  Forall wellFormed
         (List.concat (map (pageIssues client) (pagesFrom fuel 1))) ->
  NoDup (map (issueFileOf root)
             (List.concat (map (pageIssues client) (pagesFrom fuel 1)))) ->
  syncIssues json client root (S fuel') 1 w'
  = (Ok tt, mkWorld (disk w')
              (trace w' ++ [CallListByRepo "golang" "go"
                              (issueListOptions 1)])).
Proof.
  intros H Hwf Hnd.
  destruct (syncIssues_final fuel 1 w w' H Hwf Hnd) as [[a Ha] Hall].
  assert (Hwf1 : Forall wellFormed (pageIssues client 1)).
  { destruct fuel; [discriminate|]. rewrite feed_cons in Hwf.
    now apply Forall_app in Hwf. }
  unfold pageIssues in Hall, Hwf1. rewrite Ha in Hall, Hwf1.
  now apply syncIssues_quiet with (a := a).
Qed.

End SecondRun.

Lemma X14_witness :
  exists w',
    updateComments Example.codec Example.client Example.root 5 42
                   (Example.start Example.stored42) = (Ok tt, w') /\
    updateComments Example.codec Example.client Example.root 5 42 w'
    = (Ok tt, mkWorld (disk w') (trace w' ++ commentRequests 42 [1; 7])).
Proof.
  set (run := updateComments Example.codec Example.client Example.root 5 42
                (Example.start Example.stored42)).
  assert (Hrun : run = (Ok tt, snd run)) by (vm_compute; reflexivity).
  exists (snd run). split; [exact Hrun|].
  apply (X14_updateComments_second_run_writes_nothing
           Example.codec Example.client Example.root 5 42
           (Example.start Example.stored42) (snd run) Hrun).
  - match goal with
    | |- Forall _ ?l => let l' := eval vm_compute in l in change l with l'
    end.
    repeat (apply Forall_cons;
            [eexists; eexists;
             (split; [reflexivity | split; reflexivity])|]).
    apply Forall_nil.
  - vm_compute. repeat constructor; simpl; intuition discriminate.
Defined.

Lemma X15_witness :
  exists w',
    syncIssues Example.codec Example.client Example.root 3 1
               (Example.start Example.synced40) = (Ok tt, w') /\
    syncIssues Example.codec Example.client Example.root 10 1 w'
    = (Ok tt, mkWorld (disk w')
                (trace w' ++ [CallListByRepo "golang" "go"
                                (issueListOptions 1)])).
Proof.
  set (run := syncIssues Example.codec Example.client Example.root 3 1
                (Example.start Example.synced40)).
  assert (Hrun : run = (Ok tt, snd run)) by (vm_compute; reflexivity).
  exists (snd run). split; [exact Hrun|].
  apply (X15_syncIssues_second_run_is_quiet
           Example.codec Example.client Example.root 3 9
           (Example.start Example.synced40) (snd run) Hrun).
  - match goal with
    | |- Forall _ ?l => let l' := eval vm_compute in l in change l with l'
    end.
    repeat (apply Forall_cons;
            [split; eexists; (split; [reflexivity|]);
             [unfold isInt, minInt, maxInt; lia | reflexivity]|]).
    apply Forall_nil.
  - vm_compute. repeat constructor; simpl; intuition discriminate.
Defined.

(** ** Re-normalization: a second pass *)

(** X16.  Re-normalization converges.  When the decoder reads back what
    the encoder produces for the normalized record: after
    [recleanComment] has found a change in a stored comment and has
    rewritten it, [IssueComment] loads the normalized comment and a
    further [recleanComment] on it writes nothing; and after the
    [-reclean] block has found a change in a stored issue and has run
    without error, [Issue] loads the normalized issue, on which
    [cleanIssue] reports no change. *)
Theorem X16_reclean_converges json (root : Root.t) (num : Z)
  (c c' : IssueComment) (is_ is1 : Issue) w w' :
  (fst (cleanComment (Some c)) = Some c' ->
   (forall j, encoded json (VComment c') j ->
              UnmarshalComment json j = Ok c') ->
   snd (cleanComment (Some c)) = true ->
   recleanComment json root num c w = (Ok tt, w') ->
   exists id,
     commentID c = Some id /\
     Root.IssueComment json root num id w' = (Ok c', w') /\
     recleanComment json root num c' w' = (Ok tt, w'))
  /\
  ((forall j, encoded json (VIssue (fst (cleanIssue is_))) j ->
              UnmarshalIssue json j = Ok (fst (cleanIssue is_))) ->
   snd (cleanIssue is_) = true ->
   recleanIssue json root is_ w = (Ok is1, w') ->
   exists n,
     issueNumber is_ = Some n /\
     Root.Issue json root n w' = (Ok is1, w') /\
     cleanIssue is1 = (is1, false)).
Proof.
  split.
  - intros Hfst Hrt Hv H.
    destruct (recleanComment_run json root num c w w' H) as (c2 & Hc2 & Hif).
    rewrite Hv in Hif. destruct Hif as (id & Hid & Hw).
    assert (c2 = c') by congruence. subst c2.
    destruct (writeDiskJSON_wrote _ _ _ _ _ _ Hw)
      as (ts & j & m & _ & Henc & Hn & _).
    exists id. split; [exact Hid|]. split.
    + unfold Root.IssueComment, ReadFile. unfold nodeAt in Hn.
      now rewrite Hn, (Hrt j Henc).
    + pose proof (cleanComment_idem (Some c)) as Hidem.
      rewrite Hfst in Hidem. unfold recleanComment. now rewrite Hidem.
  - intros Hrt Hv H.
    destruct (recleanIssue_run json root is_ w is1 w' H)
      as (n & wa & Hn & His1 & Hif & Hcs).
    rewrite Hv in Hif. subst is1.
    destruct (writeDiskJSON_wrote _ _ _ _ _ _ Hif)
      as (ts & j & m & _ & Henc & Hfile & _).
    exists n. split; [exact Hn|]. split; [|apply cleanIssue_idem].
    assert (Hkeep : nodeAt w' (Root.IssueJSONFile root n)
                    = nodeAt wa (Root.IssueJSONFile root n)).
    { eapply ForeachIssueComment_frame; [|exact Hcs].
      intros id. apply issueFile_diverge. }
    unfold Root.Issue, ReadFile. unfold nodeAt in Hkeep, Hfile.
    now rewrite Hkeep, Hfile, (Hrt j Henc).
Qed.

Lemma X16_witness :
  let c := mkIssueComment (Some 1) None None None None
                          (Some "https://api.example/comment") None None in
  let c' := mkIssueComment (Some 1) None None None None None None None in
  let w := Example.start Example.dirty in
  let w' := snd (recleanComment Example.codec Example.root 42 c w) in
  let w1 := snd (recleanIssue Example.codec Example.root Example.dirtyIssue w) in
  (Root.IssueComment Example.codec Example.root 42 1 w' = (Ok c', w') /\
   recleanComment Example.codec Example.root 42 c' w' = (Ok tt, w')) /\
  Root.Issue Example.codec Example.root 42 w1
  = (Ok (fst (cleanIssue Example.dirtyIssue)), w1).
Proof.
  intros c c' w w' w1. split.
  - destruct (proj1 (X16_reclean_converges Example.codec Example.root 42
                       c c' Example.dirtyIssue Example.dirtyIssue w w'))
      as (id & Hid & Hload & Hagain).
    + reflexivity.
    + intros j Henc. encoded_inv Henc. vm_compute. reflexivity.
    + reflexivity.
    + vm_compute. reflexivity.
    + simpl in Hid. inversion Hid; subst id. split; assumption.
  - destruct (proj2 (X16_reclean_converges Example.codec Example.root 42
                       c c' Example.dirtyIssue
                       (fst (cleanIssue Example.dirtyIssue)) w w1))
      as (n & Hn & Hload & _).
    + intros j Henc. encoded_inv Henc. vm_compute. reflexivity.
    + reflexivity.
    + vm_compute. reflexivity.
    + simpl in Hn. inversion Hn; subst n. exact Hload.
Defined.

(** ** The whole program on a mirror that is in sync *)

(** A loop each of whose turns keeps a transitive relation between the
    world before and the world after keeps it as a whole; the turns are
    those for the elements of the list. *)
Lemma forM_preserves_In {A} (P : world -> world -> Prop)
  (body : A -> M world unit) (xs : list A) :
  (forall w, P w w) ->
  (forall w1 w2 w3, P w1 w2 -> P w2 w3 -> P w1 w3) ->
  (forall x w r w', In x xs -> body x w = (r, w') -> P w w') ->
  forall w r w', forM xs body w = (r, w') -> P w w'.
Proof.
  intros Hrefl Htrans. induction xs as [|x xs IH]; intros Hbody w r w' H.
  - inversion H; subst. apply Hrefl.
  - simpl in H. unfold bind in H.
    destruct (body x w) as [[[]|e] w1] eqn:E.
    + eapply Htrans; [eapply Hbody; [now left | exact E]|].
      eapply IH; [|exact H]. intros y wa ra wb Hy. apply Hbody. now right.
    + inversion H; subst. eapply Hbody; [now left | exact E].
Qed.

(** X17.  The steady state.  Without [-reclean], when every issue on the
    first page of the remote is on disk with its version, and for every
    issue that the walk of the store finds the number of comments on
    disk is the number the stored issue declares, a run of the program
    makes one request, the one for page 1 of the issues, requests no
    comments and writes nothing; this holds whether the run ends
    normally or with an error (such as a stored file that cannot be
    decoded). *)
Theorem X17_main_steady_state json client (root : Root.t) (fuel : nat) w r w' :
  (exists a, ListByRepo client "golang" "go" (issueListOptions 1) = Ok a) ->
  Forall wellFormed (pageIssues client 1) ->
  (forall is_, In is_ (pageIssues client 1) ->
               changed root (disk w) is_ = false) ->
  (forall n is_ k m w0,
     In n (storedNumbers (disk w) root) ->
     disk w0 = disk w ->
     Root.Issue json root n w0 = (Ok is_, w0) ->
     issueComments is_ = Some k -> issueNumber is_ = Some m ->
     Root.NumComments root m w0 = (Ok k, w0)) ->
  main json client root false (S fuel) w = (r, w') ->
  disk w' = disk w /\
  trace w' = trace w ++ [CallListByRepo "golang" "go" (issueListOptions 1)].
Proof.
  intros [a Ha] Hwf Hall Hcount H.
  unfold pageIssues in Hwf, Hall. rewrite Ha in Hwf, Hall.
  unfold main in H. unfold bind at 1 in H.
  rewrite (syncIssues_quiet json client root fuel 1 w a Ha Hwf Hall) in H.
  set (w1 := mkWorld (disk w) _) in H.
  assert (Hsame : w' = w1); [|subst w'; split; reflexivity].
  unfold reconcileAll, Root.ForeachIssue in H.
  unfold storedNumbers in Hcount. change (disk w) with (disk w1) in Hcount.
  destruct (Walk (disk w1) _ _ []) as [[[]|e] nums];
    [|now inversion H].
  simpl snd in Hcount.
  refine (forM_preserves_In (fun wa wb => disk wa = disk w1 -> wb = wa)
            _ _ _ _ _ _ _ _ H eq_refl).
  - reflexivity.
  - intros wa wb wc Hab Hbc Hd. specialize (Hab Hd). subst wb. auto.
  - intros n wa rb wb Hin Hbody Hd. unfold bind at 1 in Hbody.
    apply (Permutation_in _ (Permutation_sym (ZSort.Permuted_sort nums)))
      in Hin.
    destruct (Root.Issue json root n wa) as [[is_|e] wa'] eqn:Eload.
    + assert (wa' = wa)
        by (eapply (load_world json root n 0); left; eauto).
      subst wa'. unfold reconcileIssue in Hbody.
      destruct (issueComments is_) as [k|] eqn:Ek;
        [|now inversion Hbody].
      unfold bind, deref, ret, fail in Hbody. cbv beta iota in Hbody.
      rewrite Ek in Hbody. cbv beta iota in Hbody.
      destruct (issueNumber is_) as [m|] eqn:Em; cbv beta iota in Hbody;
        [|now inversion Hbody].
      rewrite (Hcount n is_ k m wa Hin Hd Eload Ek Em) in Hbody.
      rewrite Z.eqb_refl in Hbody. now inversion Hbody.
    + assert (wa' = wa)
        by (eapply (load_world json root n 0); left; eauto).
      subst wa'. now inversion Hbody.
Qed.

Lemma X17_witness :
  let w := Example.start Example.inSync in
  let run := main Example.codec Example.client Example.root false 10 w in
  disk (snd run) = disk w /\
  trace (snd run) = [CallListByRepo "golang" "go" (issueListOptions 1)].
Proof.
  intros w run.
  apply (X17_main_steady_state Example.codec Example.client Example.root 9
           w (fst run) (snd run)).
  - eexists. reflexivity.
  - match goal with
    | |- Forall _ ?l => let l' := eval vm_compute in l in change l with l'
    end.
    repeat (apply Forall_cons;
            [split; eexists; (split; [reflexivity|]);
             [unfold isInt, minInt, maxInt; lia | reflexivity]|]).
    apply Forall_nil.
  - intros is_ Hin.
    match type of Hin with
    | In _ ?l => let l' := eval vm_compute in l in change l with l' in Hin
    end.
    destruct Hin as [<-|[<-|[]]]; vm_compute; reflexivity.
  - intros n is_ k m [d tr] Hin Hd Hload Hk Hm. simpl in Hd. subst d.
    match type of Hin with
    | In _ ?l => let l' := eval vm_compute in l in change l with l' in Hin
    end.
    destruct Hin as [<-|[<-|[]]];
      vm_compute in Hload; inversion Hload; subst is_;
      simpl in Hk, Hm; inversion Hk; inversion Hm; subst k m;
      vm_compute; reflexivity.
  - apply surjective_pairing.
Defined.

(** ** The second pass: one issue at a time *)

Section OneIssue.

Variable json : JSON.
Variable client : Client.
Variable root : Root.t.

(** The files of the comments of two issues part. *)
Lemma commentFiles_diverge (n m a b : Z) :
  isInt n -> isInt m -> m <> n ->
  diverge (Root.IssueCommentFile root m a) (Root.IssueCommentFile root n b).
Proof.
  intros Hn Hm Hne. apply diverge_same_length.
  - unfold Root.IssueCommentFile, Join. now rewrite !length_app.
  - unfold Root.IssueCommentFile, Join. intros H.
    apply app_inv_head in H. injection H as _ Hdir _.
    apply append_inj_r in Hdir. apply Itoa_inj in Hdir; auto.
Qed.

(** The [-reclean] block for issue [n] leaves alone what parts from the
    file of the issue and from the files of its comments. *)
Lemma recleanIssue_frame is_ (n : Z) w r w' (p : path) :
  issueNumber is_ = Some n ->
  diverge p (Root.IssueJSONFile root n) ->
  (forall id, diverge p (Root.IssueCommentFile root n id)) ->
  recleanIssue json root is_ w = (r, w') ->
  nodeAt w' p = nodeAt w p.
Proof.
  intros Hnum Hd Hdc. unfold recleanIssue.
  destruct (cleanIssue_keeps is_) as [Hn _].
  destruct (cleanIssue is_) as [is' cleaned]. simpl in Hn.
  rewrite Hnum in Hn.
  assert (Hcs : forall wa r2 w2,
             Root.ForeachIssueComment json root n
               (recleanComment json root n) wa = (r2, w2) ->
             nodeAt w2 p = nodeAt wa p)
    by (intros wa r2 w2; now apply ForeachIssueComment_frame).
  unfold bind at 1. destruct cleaned.
  - unfold bind, deref, ret, fail. rewrite Hn.
    destruct (writeDiskJSON json _ zeroTime (VIssue is') w)
      as [[b|e] wa] eqn:E.
    + pose proof (writeDiskJSON_frame _ _ _ _ _ _ _ p Hd E) as H1.
      destruct (Root.ForeachIssueComment json root n _ wa)
        as [[[]|e] w2] eqn:E2; intros H; inversion H; subst;
        rewrite <- H1; eapply Hcs; exact E2.
    + intros H. inversion H; subst.
      exact (writeDiskJSON_frame _ _ _ _ _ _ _ p Hd E).
  - unfold bind, deref, ret, fail. rewrite Hn.
    destruct (Root.ForeachIssueComment json root n _ w)
      as [[[]|e] w2] eqn:E2; intros H; inversion H; subst;
      eapply Hcs; exact E2.
Qed.

(** A turn of the second pass for issue [n] leaves alone what parts
    from the files of the comments of [n] and, under [-reclean], from
    the file of [n]. *)
Lemma reconcileIssue_frame reclean fuel is_ (n : Z) w r w' (p : path) :
  issueNumber is_ = Some n ->
  (reclean = true -> diverge p (Root.IssueJSONFile root n)) ->
  (forall id, diverge p (Root.IssueCommentFile root n id)) ->
  reconcileIssue json client root reclean fuel is_ w = (r, w') ->
  nodeAt w' p = nodeAt w p.
Proof.
  intros Hnum Hd Hdc. unfold reconcileIssue.
  destruct (issueComments is_) as [k|] eqn:Ek;
    [|intros H; inversion H; subst; reflexivity].
  unfold bind at 1.
  assert (Hup : forall is1 w1 r2 w2,
             issueNumber is1 = Some n ->
             (numComments <- deref (issueComments is1) ;;
              num <- deref (issueNumber is1) ;;
              onDisk_ <- Root.NumComments root num ;;
              if onDisk_ =? numComments then ret tt
              else
                num <- deref (issueNumber is1) ;;
                updateComments json client root fuel num) w1 = (r2, w2) ->
             nodeAt w2 p = nodeAt w1 p).
  { intros is1 w1 r2 w2 Hn1. unfold bind, deref, ret, fail. rewrite Hn1.
    destruct (issueComments is1) as [k1|];
      [|intros H; inversion H; subst; reflexivity].
    destruct (Root.NumComments root n w1) as [[onDisk_|e] w1'] eqn:En.
    - assert (w1' = w1).
      { unfold Root.NumComments in En.
        repeat match type of En with
               | context [match ?x with _ => _ end] => destruct x
               end; now inversion En. }
      subst w1'. destruct (onDisk_ =? k1).
      + intros H. inversion H; subst. reflexivity.
      + unfold updateComments. intros H.
        eapply updateCommentsFrom_frame; [|exact H].
        intros c _. apply Hdc.
    - assert (w1' = w1).
      { unfold Root.NumComments in En.
        repeat match type of En with
               | context [match ?x with _ => _ end] => destruct x
               end; now inversion En. }
      subst w1'. intros H. inversion H; subst. reflexivity. }
  destruct reclean.
  - destruct (recleanIssue json root is_ w) as [[is1|e] w1] eqn:Er.
    + pose proof (recleanIssue_frame _ _ _ _ _ p Hnum (Hd eq_refl) Hdc Er)
        as H1.
      pose proof (recleanIssue_result _ _ _ _ _ _ Er) as His1.
      intros H. rewrite <- H1. eapply (Hup is1); [|exact H].
      subst is1. destruct (cleanIssue_keeps is_) as [-> _]. exact Hnum.
    + intros H. inversion H; subst.
      exact (recleanIssue_frame _ _ _ _ _ p Hnum (Hd eq_refl) Hdc Er).
  - unfold ret at 1. intros H. eapply (Hup is_); [exact Hnum | exact H].
Qed.

(** X18.  A turn of the second pass stays with its issue.  Whatever it
    does for a stored issue with number [n] (nothing, a re-normalization
    under [-reclean], a download of the comments) and whether it ends
    normally or with an error, it leaves the file of every other issue
    and the files of the comments of every other issue as they were;
    and without [-reclean] it leaves the file of issue [n] itself as it
    was.  Numbers are in the range of [int]. *)
Theorem X18_reconcileIssue_stays_with_its_issue
  reclean (fuel : nat) is_ (n m id : Z) w r w' :
  issueNumber is_ = Some n -> isInt n -> isInt m ->
  reconcileIssue json client root reclean fuel is_ w = (r, w') ->
  (m <> n ->
   nodeAt w' (Root.IssueJSONFile root m) = nodeAt w (Root.IssueJSONFile root m)
   /\
   nodeAt w' (Root.IssueCommentFile root m id)
   = nodeAt w (Root.IssueCommentFile root m id))
  /\
  (reclean = false ->
   nodeAt w' (Root.IssueJSONFile root n)
   = nodeAt w (Root.IssueJSONFile root n)).
Proof.
  intros Hnum Hn Hm H. split; [intros Hne; split|intros Hr].
  - eapply reconcileIssue_frame; [exact Hnum | | | exact H].
    + intros _. apply diverge_same_length.
      * unfold Root.IssueJSONFile, Join. now rewrite !length_app.
      * intros Heq. apply IssueJSONFile_inj in Heq; auto.
    + intros id'. apply issueFile_commentFile_diverge.
  - eapply reconcileIssue_frame; [exact Hnum | | | exact H].
    + intros _. apply diverge_sym, issueFile_commentFile_diverge.
    + intros id'. now apply commentFiles_diverge.
  - eapply reconcileIssue_frame; [exact Hnum | | | exact H].
    + rewrite Hr. discriminate.
    + intros id'. apply issueFile_commentFile_diverge.
Qed.

End OneIssue.

Lemma X18_witness :
  let w := Example.start Example.synced40 in
  let run := reconcileIssue Example.codec Example.client Example.root true 5
               (Example.stored 42 3) w in
  nodeAt (snd run) (Root.IssueJSONFile Example.root 40)
  = nodeAt w (Root.IssueJSONFile Example.root 40).
Proof.
  intros w run.
  assert (Hint : forall n, -1000 <= n <= 1000 -> isInt n)
    by (unfold isInt, minInt, maxInt; lia).
  destruct (X18_reconcileIssue_stays_with_its_issue
              Example.codec Example.client Example.root true 5
              (Example.stored 42 3) 42 40 1 w (fst run) (snd run)
              eq_refl (Hint 42 ltac:(lia)) (Hint 40 ltac:(lia))
              (surjective_pairing run)) as [Hother _].
  apply Hother. lia.
Defined.
